(** * k8sintellect: the analysis aggregation engine

    A shallow embedding of [src/lib/analyzer.ts] (class [K8sAnalyzer]) and
    [src/lib/k8sgpt-adapter.ts] (class [K8sGPTAdapter]), and of their two
    callers, the [analyze] command of [src/cli/analyze.ts] and the route
    [GET /api/analyze] of [src/server/index.ts].

    Conventions of the embedding.
    - A JavaScript string is a [string]: the sequence of its bytes.  The
      needles and separators of [includes], [split] and [join] are ASCII, so
      these act byte by byte.
    - What the engine decides is a field of the class [Engine]:
      [toLowerCase], which lowers the letters of every script; the white
      space a regular expression skips; and the number of arguments a call
      can take, beyond which [push(...xs)] throws a [RangeError].  A
      statement holds for every engine unless it names one; the sample runs
      are made on [asciiEngine], and two of them on [widerEngine], which knows
      two characters outside ASCII.
    - A value that comes out of [JSON.parse] is a [value]; the TypeScript
      interfaces [K8sGPTOutput] and [K8sGPTResult] are erased at run time, so
      a field typed [string] may hold any [value].
    - [throw] is the [Throw] constructor of [result]; the calls of the
      external tool made by a run are collected in a trace.
    - Calls of [logger] are not part of the embedding.
    - The classes [\d] and [\w] of the regular expressions are those of
      ASCII, as in the engine, and [sort()] compares names byte by byte.
    - The cluster API is a record of answers, one for each list call; an
      integer of the API is a [Z]. *)

From Stdlib Require Import List String Ascii ZArith Bool Arith Lia.
From Stdlib Require Import DecimalString Orders Sorting Mergesort Permutation.
Import ListNotations.

Local Open Scope string_scope.
Local Open Scope list_scope.

(* ------------------------------------------------------------------ *)
(** ** JavaScript strings *)

Module JsString.

(** [s.startsWith(p)] *)
Fixpoint startsWith (p s : string) : bool :=
  match p, s with
  | EmptyString, _ => true
  | String _ _, EmptyString => false
  | String a p', String b s' => Ascii.eqb a b && startsWith p' s'
  end.

(** [s.includes(needle)] *)
Fixpoint includes (needle s : string) : bool :=
  startsWith needle s ||
  match s with
  | EmptyString => false
  | String _ s' => includes needle s'
  end.

Definition lowerChar (c : ascii) : ascii :=
  let n := nat_of_ascii c in
  if (65 <=? n)%nat && (n <=? 90)%nat then ascii_of_nat (n + 32) else c.

Definition upperChar (c : ascii) : ascii :=
  let n := nat_of_ascii c in
  if (97 <=? n)%nat && (n <=? 122)%nat then ascii_of_nat (n - 32) else c.

Fixpoint mapChars (f : ascii -> ascii) (s : string) : string :=
  match s with
  | EmptyString => EmptyString
  | String c s' => String (f c) (mapChars f s')
  end.

(** The letters A-Z lowered, the letters a-z raised; every other byte
    stays. *)
Definition asciiLowerCase : string -> string := mapChars lowerChar.
Definition asciiUpperCase : string -> string := mapChars upperChar.

(** A text in ASCII: every byte is below 128. *)
Fixpoint isAscii (s : string) : bool :=
  match s with
  | EmptyString => true
  | String c s' => (nat_of_ascii c <? 128)%nat && isAscii s'
  end.

(** [s.split(sep)] for a one-character separator: never the empty list. *)
Fixpoint split (sep : ascii) (s : string) : list string :=
  match s with
  | EmptyString => [EmptyString]
  | String c s' =>
      if Ascii.eqb c sep then EmptyString :: split sep s'
      else match split sep s' with
           | [] => [String c EmptyString]
           | seg :: rest => String c seg :: rest
           end
  end.

(** [xs.join(sep)] *)
Definition join (sep : string) (xs : list string) : string :=
  String.concat sep xs.

(** Truthiness of a string: every string but the empty one. *)
Definition truthy (s : string) : bool :=
  match s with EmptyString => false | _ => true end.

(** A template literal prints an absent value as "undefined". *)
Definition template (o : option string) : string :=
  match o with Some s => s | None => "undefined" end.

End JsString.

(* ------------------------------------------------------------------ *)
(** ** The JavaScript engine *)

(** What the code leaves to the engine it runs on. *)
Class Engine : Type := mkEngine {
  (** [s.toLowerCase()] *)
  toLowerCase : string -> string;
  (** [\s*] at the start of [s]: [s] without the white space it starts
      with *)
  skipWhiteSpace : string -> string;
  (** the number of arguments a call can take *)
  argumentLimit : nat
}.

(* ------------------------------------------------------------------ *)
(** ** Run-time values and exceptions *)

(** What [JSON.parse] returns, and [undefined] for an absent property.  An
    object is the list of its own properties. *)
#[warnings="-register-all"] Inductive value : Type :=
| VUndefined
| VNull
| VBool (b : bool)
| VNum (n : Z)
| VStr (s : string)
| VArr (xs : list value)
| VObj (props : list (string * value)).

(** What the code can throw: a [TypeError] or a [RangeError] of the engine,
    the [SyntaxError] of [JSON.parse], the error object of a failed
    [execFile] (with its [code] and whatever else the child process layer
    put into it, the text of the command among it), and
    [new Error(message)]. *)
Inductive exn : Type :=
| TypeError
| RangeError
| SyntaxError
| ExecError (code : option string) (detail : string)
| Error (message : string).

Inductive result (A : Type) : Type :=
| Ok (a : A)
| Throw (e : exn).

Arguments Ok {A} a.
Arguments Throw {A} e.

Definition bind {A B : Type} (r : result A) (k : A -> result B) : result B :=
  match r with
  | Ok a => k a
  | Throw e => Throw e
  end.

Declare Scope js_scope.
Delimit Scope js_scope with js.

Notation "x <- c ;; k" := (bind c (fun x => k))
  (at level 61, c at next level, right associativity) : js_scope.

Local Open Scope js_scope.

(** [for (const x of xs) body], where the body updates the state [acc] (here
    the array the loop pushes to) and may throw. *)
Fixpoint forOf {A S : Type} (body : S -> A -> result S) (xs : list A) (acc : S)
  : result S :=
  match xs with
  | [] => Ok acc
  | x :: xs' => acc' <- body acc x ;; forOf body xs' acc'
  end.

Module Js.

(** Truthiness, as [!v] and [v || w] see it. *)
Definition truthy (v : value) : bool :=
  match v with
  | VUndefined | VNull => false
  | VBool b => b
  | VNum n => negb (n =? 0)%Z
  | VStr s => JsString.truthy s
  | VArr _ | VObj _ => true
  end.

(** [Array.isArray(v)] *)
Definition isArray (v : value) : bool :=
  match v with VArr _ => true | _ => false end.

Fixpoint lookup (k : string) (props : list (string * value)) : value :=
  match props with
  | [] => VUndefined
  | (k', v) :: rest => if String.eqb k k' then v else lookup k rest
  end.

(** [o.k] for the property names this code reads ([results], [name],
    [error], [kind], [Text], [KubernetesDoc]): none of them is defined on a
    prototype, so a primitive or an array answers [undefined]; reading a
    property of [null] or [undefined] throws. *)
Definition getProp (o : value) (k : string) : result value :=
  match o with
  | VUndefined | VNull => Throw TypeError
  | VObj props => Ok (lookup k props)
  | VBool _ | VNum _ | VStr _ | VArr _ => Ok VUndefined
  end.

(** [a || b] *)
Definition or (a b : value) : value := if truthy a then a else b.

(** [v.includes('/')]: a method of strings and of arrays only; anything else
    has no callable [includes]. *)
Definition includesSlash (v : value) : result bool :=
  match v with
  | VStr s => Ok (JsString.includes "/" s)
  | VArr xs =>
      Ok (existsb (fun x => match x with
                            | VStr s => String.eqb s "/"
                            | _ => false
                            end) xs)
  | _ => Throw TypeError
  end.

(** [v.split('/')]: a method of strings only. *)
Definition splitSlash (v : value) : result (list value) :=
  match v with
  | VStr s => Ok (map VStr (JsString.split "/" s))
  | _ => Throw TypeError
  end.

(** [arr[i]] of an array literal or a split: [undefined] past the end. *)
Definition index (xs : list value) (i : nat) : value := nth i xs VUndefined.

End Js.

(* ------------------------------------------------------------------ *)
(** ** Issues ([analyzer.ts]) *)

(** [severity: 'critical' | 'warning' | 'info'] *)
Inductive Severity : Type := critical | warning | info.

Definition Severity_eq_dec (a b : Severity) : {a = b} + {a <> b}.
Proof. decide equality. Defined.

(** [a === b] on severities *)
Definition Severity_eqb (a b : Severity) : bool :=
  match a, b with
  | critical, critical | warning, warning | info, info => true
  | _, _ => false
  end.

(** [interface Issue].  The fields hold run-time values: an issue built from
    the analyzer's JSON copies its fields unchecked. *)
Record Issue : Type := mkIssue {
  kind : value;
  name : value;
  namespace : value;
  problem : value;
  solution : value;
  severity : Severity
}.

(** The [summary] field of [AnalysisResult]. *)
Record Summary : Type := mkSummary {
  total : nat;
  criticalCount : nat;
  warningCount : nat;
  infoCount : nat
}.

(** [interface AnalysisResult] *)
Record AnalysisResult : Type := mkAnalysisResult {
  timestamp : string;
  cluster : string;
  issues : list Issue;
  summary : Summary;
  commands : list string
}.

(** [interface AnalyzeOptions] *)
Record AnalyzeOptions : Type := mkAnalyzeOptions {
  namespaces : option (list string);
  allNamespaces : bool;
  filters : option (list string)
}.

(** [AVAILABLE_FILTERS] *)
Definition AVAILABLE_FILTERS : list string :=
  [ "Pod"; "Service"; "Deployment"; "ReplicaSet"; "StatefulSet";
    "PersistentVolumeClaim"; "Ingress"; "Node"; "CronJob"; "Job";
    "HorizontalPodAutoscaler"; "NetworkPolicy";
    "MutatingWebhookConfiguration"; "ValidatingWebhookConfiguration";
    "ConfigMap"; "ClusterExtension"; "Log"; "GatewayClass"; "Gateway";
    "HTTPRoute"; "Storage"; "Security"; "ClusterCatalog";
    "PodDisruptionBudget" ].

(* ------------------------------------------------------------------ *)
(** ** The external tool *)

(** One call of [execFileAsync(file, args, ...)]. *)
Record Invocation : Type := mkInvocation {
  file : string;
  args : list string
}.

(** What a call resolves to: [{stdout, stderr}], or the rejection. *)
Definition ExecOutcome : Type := result (string * string).

(** The tool as a run sees it: the answer to the [k]-th call of the run. *)
Definition Tool : Type := nat -> Invocation -> ExecOutcome.

(** Code that calls the tool: it sees the calls made so far and extends
    them; the calls stay recorded when the code throws. *)
Definition Run (A : Type) : Type := list Invocation -> result A * list Invocation.

Definition ret {A : Type} (a : A) : Run A := fun tr => (Ok a, tr).

Definition raise {A : Type} (e : exn) : Run A := fun tr => (Throw e, tr).

Definition bindRun {A B : Type} (m : Run A) (k : A -> Run B) : Run B :=
  fun tr =>
    match m tr with
    | (Ok a, tr') => k a tr'
    | (Throw e, tr') => (Throw e, tr')
    end.

(** [try { m } catch (error) { handler(error) }] *)
Definition tryCatch {A : Type} (m : Run A) (handler : exn -> Run A) : Run A :=
  fun tr =>
    match m tr with
    | (Ok a, tr') => (Ok a, tr')
    | (Throw e, tr') => handler e tr'
    end.

Definition liftResult {A : Type} (r : result A) : Run A := fun tr => (r, tr).

Declare Scope run_scope.
Delimit Scope run_scope with run.

Notation "x <~ c ;; k" := (bindRun c (fun x => k))
  (at level 61, c at next level, right associativity) : run_scope.

(** [for (const x of xs) { ... await ... }] with a loop state *)
Fixpoint forOfRun {A S : Type} (body : S -> A -> Run S) (xs : list A) (acc : S)
  : Run S :=
  match xs with
  | [] => ret acc
  | x :: xs' => bindRun (body acc x) (fun acc' => forOfRun body xs' acc')
  end.

(** [error.code] *)
Definition codeOf (e : exn) : option string :=
  match e with
  | ExecError c _ => c
  | _ => None
  end.

(* ------------------------------------------------------------------ *)
(** ** [class K8sGPTAdapter] ([k8sgpt-adapter.ts]) *)

Module K8sGPTAdapter.

Section WithEngine.

Context {E : Engine}.

(** [determineSeverity(errorText)] *)
Definition determineSeverity (errorText : string) : Severity :=
  let lowerText := toLowerCase errorText in
  if JsString.includes "crash" lowerText ||
     JsString.includes "failed" lowerText ||
     JsString.includes "error" lowerText ||
     JsString.includes "deadline exceeded" lowerText ||
     JsString.includes "oomkilled" lowerText
  then critical
  else if JsString.includes "warning" lowerText ||
          JsString.includes "pending" lowerText ||
          JsString.includes "unschedulable" lowerText
  then warning
  else info.

(** The same call on a run-time value: [errorText.toLowerCase()] is a method
    of strings only. *)
Definition determineSeverityOf (errorText : value) : result Severity :=
  match errorText with
  | VStr s => Ok (determineSeverity s)
  | _ => Throw TypeError
  end.

Definition defaultSolution : string :=
  "Check k8sgpt documentation for more details".

(** [const [namespace, name] = result.name.includes('/')
      ? result.name.split('/') : [undefined, result.name]] *)
Definition parseName (resultName : value) : result (value * value) :=
  hasSlash <- Js.includesSlash resultName ;;
  if hasSlash : bool
  then parts <- Js.splitSlash resultName ;;
       Ok (Js.index parts 0, Js.index parts 1)
  else Ok (VUndefined, resultName).

(** The body of [for (const error of result.error)]: one [issues.push]. *)
Definition pushIssue (finding namespace name : value)
  (issues : list Issue) (error : value) : result (list Issue) :=
  findingKind <- Js.getProp finding "kind" ;;
  findingName <- Js.getProp finding "name" ;;
  text <- Js.getProp error "Text" ;;
  doc <- Js.getProp error "KubernetesDoc" ;;
  sev <- determineSeverityOf text ;;
  Ok (issues ++
      [ {| kind := findingKind;
           name := Js.or name findingName;
           namespace := namespace;
           problem := text;
           solution := Js.or doc (VStr defaultSolution);
           severity := sev |} ]).

(** The body of [for (const result of output.results)]. *)
Definition convertResult (issues : list Issue) (finding : value)
  : result (list Issue) :=
  findingName <- Js.getProp finding "name" ;;
  parsed <- parseName findingName ;;
  err <- Js.getProp finding "error" ;;
  if negb (Js.truthy err) || negb (Js.isArray err)
  then Ok issues
  else match err with
       | VArr errors => forOf (pushIssue finding (fst parsed) (snd parsed)) errors issues
       | _ => Ok issues
       end.

(** [convertK8sGPTToIssues(output)] *)
Definition convertK8sGPTToIssues (output : value) : result (list Issue) :=
  results <- Js.getProp output "results" ;;
  if negb (Js.truthy results) || negb (Js.isArray results)
  then Ok []
  else match results with
       | VArr findings => forOf convertResult findings []
       | _ => Ok []
       end.

(** The [options] of [runK8sGPTAnalysis]. *)
Record RunOptions : Type := mkRunOptions {
  run_filters : option (list string);
  run_namespace : option string;
  run_allNamespaces : option bool
}.

(** What [runK8sGPTAnalysis] resolves to. *)
Record RunResult : Type := mkRunResult {
  run_issues : list Issue;
  command : string
}.

(** [args] as [runK8sGPTAnalysis] builds it. *)
Definition buildArgs (options : RunOptions) : list string :=
  ["analyze"; "--output=json"]
  ++ match run_filters options with
     | Some (f :: fs) => [("--filter=" ++ JsString.join "," (f :: fs))%string]
     | _ => []
     end
  ++ match run_namespace options with
     | Some ns => if JsString.truthy ns then [("--namespace=" ++ ns)%string] else []
     | None => []
     end.

(** [const command = `k8sgpt ${args.join(' ')}`] *)
Definition commandOf (options : RunOptions) : string :=
  ("k8sgpt " ++ JsString.join " " (buildArgs options))%string.

Definition notInstalled : exn :=
  Error "k8sgpt is not installed. Please install it to use this tool.".

Section WithTool.

(** The external tool, and [JSON.parse] ([None]: a [SyntaxError]). *)
Variable tool : Tool.
Variable JSON_parse : string -> option value.

(** [await execFileAsync(file, args, ...)] *)
Definition execFileAsync (f : string) (a : list string) : Run (string * string) :=
  fun tr =>
    let inv := {| file := f; args := a |} in
    (tool (List.length tr) inv, tr ++ [inv]).

Definition parseJSON (stdout : string) : result value :=
  match JSON_parse stdout with
  | Some v => Ok v
  | None => Throw SyntaxError
  end.

(** [runK8sGPTAnalysis(options)] *)
Definition runK8sGPTAnalysis (options : RunOptions) : Run RunResult :=
  tryCatch
    (let a := buildArgs options in
     let cmd := ("k8sgpt " ++ JsString.join " " a)%string in
     (out <~ execFileAsync "k8sgpt" a ;;
      k8sgptOutput <~ liftResult (parseJSON (fst out)) ;;
      converted <~ liftResult (convertK8sGPTToIssues k8sgptOutput) ;;
      ret {| run_issues := converted; command := cmd |})%run)
    (fun error =>
       match codeOf error with
       | Some c => if String.eqb c "ENOENT" then raise notInstalled
                   else raise error
       | None => raise error
       end).

End WithTool.

End WithEngine.

End K8sGPTAdapter.

(* ------------------------------------------------------------------ *)
(** ** [class K8sAnalyzer] ([analyzer.ts]) *)

Module K8sAnalyzer.

Import K8sGPTAdapter.

(** [summarizeIssues(issues)] *)
Definition summarizeIssues (l : list Issue) : Summary :=
  {| total := List.length l;
     criticalCount :=
       List.length (filter (fun i => Severity_eqb (severity i) critical) l);
     warningCount :=
       List.length (filter (fun i => Severity_eqb (severity i) warning) l);
     infoCount :=
       List.length (filter (fun i => Severity_eqb (severity i) info) l) |}.

(** The active connection: [kc.getCurrentContext()] and
    [kc.getCurrentCluster()]. *)
Record Cluster : Type := mkCluster {
  cluster_name : string;
  server : string
}.

Record KubeConfig : Type := mkKubeConfig {
  getCurrentContext : string;
  getCurrentCluster : option Cluster
}.

(** [cluster?.name || currentContext] *)
Definition clusterDisplayName (kc : KubeConfig) : string :=
  match getCurrentCluster kc with
  | Some c => if JsString.truthy (cluster_name c) then cluster_name c
              else getCurrentContext kc
  | None => getCurrentContext kc
  end.

(** The two local variables of [analyze]: [allIssues] and [commands]. *)
Definition Collected : Type := (list Issue * list string)%type.

Section Analyze.

Context {E : Engine}.

(** [allIssues.push(...newIssues)]: the new issues are the arguments of one
    call, which throws when they are more than a call can take. *)
Definition pushAll (allIssues newIssues : list Issue) : result (list Issue) :=
  if (List.length newIssues <=? argumentLimit)%nat
  then Ok (allIssues ++ newIssues)
  else Throw RangeError.

Variable tool : Tool.
Variable JSON_parse : string -> option value.
Variable kc : KubeConfig.

(** [new Date().toISOString()] as read when the result is built. *)
Variable isoNow : string.

(** The all-namespaces branch: one call, [allIssues = result.issues]. *)
Definition analyzeAll (activeFilters : list string) (st : Collected)
  : Run Collected :=
  (r <~ runK8sGPTAnalysis tool JSON_parse
          {| run_filters := Some activeFilters;
             run_namespace := None;
             run_allNamespaces := Some true |} ;;
   ret (run_issues r, snd st ++ [command r]))%run.

(** The body of [for (const ns of options.namespaces)]. *)
Definition analyzeNamespace (activeFilters : list string) (st : Collected)
  (ns : string) : Run Collected :=
  (r <~ runK8sGPTAnalysis tool JSON_parse
          {| run_filters := Some activeFilters;
             run_namespace := Some ns;
             run_allNamespaces := Some false |} ;;
   allIssues <~ liftResult (pushAll (fst st) (run_issues r)) ;;
   ret (allIssues, snd st ++ [command r]))%run.

(** [options.filters && options.filters.length > 0 ? options.filters
      : [...AVAILABLE_FILTERS]] *)
Definition activeFiltersOf (options : AnalyzeOptions) : list string :=
  match filters options with
  | Some (f :: fs) => f :: fs
  | _ => AVAILABLE_FILTERS
  end.

(** [analyze(options)] *)
Definition analyze (options : AnalyzeOptions) : Run AnalysisResult :=
  let activeFilters := activeFiltersOf options in
  (st <~ (if allNamespaces options
          then analyzeAll activeFilters ([], [])
          else match namespaces options with
               | Some (n :: ns) =>
                   forOfRun (analyzeNamespace activeFilters) (n :: ns) ([], [])
               | _ => analyzeAll activeFilters ([], [])
               end) ;;
   ret {| timestamp := isoNow;
          cluster := clusterDisplayName kc;
          issues := fst st;
          summary := summarizeIssues (fst st);
          commands := snd st |})%run.

End Analyze.

(** *** Pod events (the event part of [analyzePods]) *)

(** A [Date]: its time value in milliseconds, or an invalid date, whose
    [getTime()] is [NaN]. *)
Inductive JsDate : Type :=
| ValidDate (ms : Z)
| InvalidDate.

(** [k8s.CoreV1Event], the fields [analyzePods] reads. *)
Record CoreV1Event : Type := mkEvent {
  type : option string;
  reason : option string;
  message : option string;
  lastTimestamp : option JsDate
}.

(** [new Date(d).getTime() > bound]; a comparison with [NaN] is false. *)
Definition timeAfter (d : JsDate) (bound : Z) : bool :=
  match d with
  | ValidDate ms => (ms >? bound)%Z
  | InvalidDate => false
  end.

(** [new Date(a) > new Date(b)] *)
Definition dateGt (a b : JsDate) : bool :=
  match a, b with
  | ValidDate x, ValidDate y => (x >? y)%Z
  | _, _ => false
  end.

(** [events.filter(event => ...)] of the last hour; [now] is [Date.now()]. *)
Definition recentEvents (now : Z) (events : list CoreV1Event) : list CoreV1Event :=
  filter (fun event =>
            match lastTimestamp event with
            | None => false
            | Some d =>
                let oneHourAgo := (now - 60 * 60 * 1000)%Z in
                timeAfter d oneHourAgo
            end) events.

Definition optEqb (o : option string) (s : string) : bool :=
  match o with Some x => String.eqb x s | None => false end.

(** [recentEvents.filter(event => event.type === 'Warning' || event.type === 'Error')] *)
Definition errorEvents (events : list CoreV1Event) : list CoreV1Event :=
  filter (fun event => optEqb (type event) "Warning" || optEqb (type event) "Error")
         events.

(** [`${event.reason}-${event.message}`] *)
Definition eventKey (event : CoreV1Event) : string :=
  (JsString.template (reason event) ++ "-" ++ JsString.template (message event))%string.

(** A [Map<string, CoreV1Event>]: its entries in insertion order. *)
Definition EventMap : Type := list (string * CoreV1Event).

Fixpoint mapGet (key : string) (m : EventMap) : option CoreV1Event :=
  match m with
  | [] => None
  | (k, v) :: rest => if String.eqb key k then Some v else mapGet key rest
  end.

Definition mapHas (key : string) (m : EventMap) : bool :=
  match mapGet key m with Some _ => true | None => false end.

(** [m.set(key, v)]: an existing key keeps its place, a new one goes last. *)
Fixpoint mapSet (key : string) (v : CoreV1Event) (m : EventMap) : EventMap :=
  match m with
  | [] => [(key, v)]
  | (k, v') :: rest =>
      if String.eqb key k then (k, v) :: rest
      else (k, v') :: mapSet key v rest
  end.

Definition mapValues (m : EventMap) : list CoreV1Event := map snd m.

(** The guard of [uniqueEvents.set(key, event)]. *)
Definition replaces (event : CoreV1Event) (m : EventMap) : bool :=
  let key := eventKey event in
  negb (mapHas key m) ||
  match lastTimestamp event,
        match mapGet key m with
        | Some kept => lastTimestamp kept
        | None => None
        end
  with
  | Some d, Some d' => dateGt d d'
  | _, _ => false
  end.

(** The body of [for (const event of errorEvents)]. *)
Definition dedupStep (m : EventMap) (event : CoreV1Event) : EventMap :=
  if replaces event m then mapSet (eventKey event) event m else m.

Definition uniqueEvents (events : list CoreV1Event) : EventMap :=
  fold_left dedupStep events [].

(** [s || fallback] for an optional string *)
Definition orElse (o : option string) (fallback : string) : string :=
  match o with
  | Some s => if JsString.truthy s then s else fallback
  | None => fallback
  end.

(** The issue pushed for one surviving event. *)
Definition eventIssue (podName podNamespace : string) (event : CoreV1Event) : Issue :=
  {| kind := VStr "Pod";
     name := VStr podName;
     namespace := VStr podNamespace;
     problem := VStr (orElse (reason event) "Unknown" ++ ": " ++
                      orElse (message event) "No details available")%string;
     solution := VStr "Check pod logs and events for more details";
     severity := if optEqb (type event) "Error" then critical else warning |}.

(** What [analyzePods] pushes for the events of one pod (the block guarded
    by [if (podNamespace)]), given the events [getEventsForPod] returned. *)
Definition podEventIssues (now : Z) (podName podNamespace : string)
  (events : list CoreV1Event) : list Issue :=
  map (eventIssue podName podNamespace)
      (mapValues (uniqueEvents (errorEvents (recentEvents now events)))).

End K8sAnalyzer.

(* ------------------------------------------------------------------ *)
(** ** Vocabulary of the statements *)

Module Spec.

(** [text] contains [keyword] up to the case of its ASCII letters. *)
Definition mentions (keyword text : string) : Prop :=
  exists pre mid post,
    text = (pre ++ mid ++ post)%string /\ JsString.asciiLowerCase mid = keyword.

(** [keyword] is a part of [text], and one of the keywords is. *)
Definition occursIn (keyword text : string) : Prop :=
  exists pre post, text = (pre ++ keyword ++ post)%string.

Definition anyOccursIn (keywords : list string) (text : string) : Prop :=
  exists k, In k keywords /\ occursIn k text.

(** An engine lowers a text in ASCII as every engine does: letter by
    letter. *)
Definition lowersAscii (E : Engine) : Prop :=
  forall s, JsString.isAscii s = true -> toLowerCase s = JsString.asciiLowerCase s.

(** A result [push(...)] can take in one call. *)
Definition pushable {E : Engine} (l : list Issue) : Prop :=
  (List.length l <=? argumentLimit)%nat = true.

(** The two keyword sets of the severity classifier. *)
Definition criticalKeywords : list string :=
  ["crash"; "failed"; "error"; "deadline exceeded"; "oomkilled"].

Definition warningKeywords : list string :=
  ["warning"; "pending"; "unschedulable"].

Definition mentionsAny (keywords : list string) (text : string) : Prop :=
  exists k, In k keywords /\ mentions k text.

(** The number of issues of a list with a given severity. *)
Definition countSeverity (s : Severity) (l : list Issue) : nat :=
  count_occ Severity_eq_dec (map severity l) s.

(** A diagnostic entry as [K8sGPTResult] types it, as far as the normalizer
    reads it: an entry that is not [null] and whose [Text] is a string. *)
Definition wellFormedDiagnostic (d : value) : Prop :=
  exists text, Js.getProp d "Text" = Ok (VStr text).

(** A finding whose [error] is absent or no array. *)
Definition noDiagnostics (finding : value) : Prop :=
  forall errors, Js.getProp finding "error" <> Ok (VArr errors).

(** A finding the normalizer goes through: its [name] is a string and its
    [error], when it is an array, holds well-formed diagnostics. *)
Definition wellFormedFinding (finding : value) : Prop :=
  (exists s, Js.getProp finding "name" = Ok (VStr s)) /\
  (forall errors, Js.getProp finding "error" = Ok (VArr errors) ->
                  Forall wellFormedDiagnostic errors).

(** An output with the given [results]. *)
Definition outputOf (findings : list value) : value :=
  VObj [("provider", VStr ""); ("status", VStr "OK");
        ("results", VArr findings)].

(** A finding as the analyzer writes it. *)
Definition findingOf (k compositeName : string) (errors : list value) : value :=
  VObj [("kind", VStr k); ("name", VStr compositeName); ("error", VArr errors)].

Definition diagnosticOf (text doc : string) : value :=
  VObj [("Text", VStr text); ("KubernetesDoc", VStr doc); ("Sensitive", VArr [])].

(** The options [analyze] passes to the adapter for one listed namespace,
    and for the whole cluster. *)
Definition namespaceScope (activeFilters : list string) (ns : string)
  : K8sGPTAdapter.RunOptions :=
  {| K8sGPTAdapter.run_filters := Some activeFilters;
     K8sGPTAdapter.run_namespace := Some ns;
     K8sGPTAdapter.run_allNamespaces := Some false |}.

Definition clusterScope (activeFilters : list string) : K8sGPTAdapter.RunOptions :=
  {| K8sGPTAdapter.run_filters := Some activeFilters;
     K8sGPTAdapter.run_namespace := None;
     K8sGPTAdapter.run_allNamespaces := Some true |}.

(** The call of the tool that belongs to a scope. *)
Definition invocationOf (options : K8sGPTAdapter.RunOptions) : Invocation :=
  {| file := "k8sgpt"; args := K8sGPTAdapter.buildArgs options |}.

(** What the [k]-th call of a run yields once parsed and normalized. *)
Definition callOutcome {E : Engine} (tool : Tool)
  (JSON_parse : string -> option value)
  (k : nat) (inv : Invocation) : result (list Issue) :=
  (out <- tool k inv ;;
   v <- K8sGPTAdapter.parseJSON JSON_parse (fst out) ;;
   K8sGPTAdapter.convertK8sGPTToIssues v)%js.

(** What the [catch] block of [runK8sGPTAnalysis] throws for [error]. *)
Definition rethrown (error : exn) : exn :=
  match codeOf error with
  | Some c => if String.eqb c "ENOENT" then K8sGPTAdapter.notInstalled else error
  | None => error
  end.

(** The outcomes of the calls for the listed namespaces, the first of them
    being the [k]-th call of the run. *)
Fixpoint callsFrom {E : Engine} (tool : Tool)
  (JSON_parse : string -> option value)
  (activeFilters : list string) (k : nat) (nss : list string)
  : list (result (list Issue)) :=
  match nss with
  | [] => []
  | ns :: rest =>
      callOutcome tool JSON_parse k (invocationOf (namespaceScope activeFilters ns))
      :: callsFrom tool JSON_parse activeFilters (S k) rest
  end.

(** An event that passed the recency filter: its time stamp is a valid
    date. *)
Definition timed (e : K8sAnalyzer.CoreV1Event) : Prop :=
  exists t, K8sAnalyzer.lastTimestamp e = Some (K8sAnalyzer.ValidDate t).

(** The time value of an event's last time stamp. *)
Definition timeOf (e : K8sAnalyzer.CoreV1Event) : Z :=
  match K8sAnalyzer.lastTimestamp e with
  | Some (K8sAnalyzer.ValidDate t) => t
  | _ => 0%Z
  end.

(** What holds of the map after the events [seen] have gone through the
    loop: no key twice; every entry is a seen event filed under its own
    key and no seen event of that key is later; every seen event has its
    key in the map. *)
Definition deduplicated (seen : list K8sAnalyzer.CoreV1Event) (m : K8sAnalyzer.EventMap) : Prop :=
  NoDup (map fst m) /\
  (forall k v, K8sAnalyzer.mapGet k m = Some v ->
     K8sAnalyzer.eventKey v = k /\ In v seen /\
     forall e, In e seen -> K8sAnalyzer.eventKey e = k -> (timeOf e <= timeOf v)%Z) /\
  (forall e, In e seen -> K8sAnalyzer.mapGet (K8sAnalyzer.eventKey e) m <> None).

(** The deduplication key of the specification: the pair of the reason and
    the message. *)
Definition pairOf (e : K8sAnalyzer.CoreV1Event) : option string * option string :=
  (K8sAnalyzer.reason e, K8sAnalyzer.message e).

(** The string the code makes of such a pair. *)
Definition keyOfPair (p : option string * option string) : string :=
  (JsString.template (fst p) ++ "-" ++ JsString.template (snd p))%string.

(** No two of the events have different pairs and the same key string. *)
Definition noCollision (events : list K8sAnalyzer.CoreV1Event) : Prop :=
  forall e1 e2, In e1 events -> In e2 events ->
    K8sAnalyzer.eventKey e1 = K8sAnalyzer.eventKey e2 -> pairOf e1 = pairOf e2.

(** The events that take part in the deduplication. *)
Definition relevantEvents (now : Z) (events : list K8sAnalyzer.CoreV1Event)
  : list K8sAnalyzer.CoreV1Event :=
  K8sAnalyzer.errorEvents (K8sAnalyzer.recentEvents now events).

(** [event.lastTimestamp] is there. *)
Definition hasTimestamp (e : K8sAnalyzer.CoreV1Event) : bool :=
  match K8sAnalyzer.lastTimestamp e with Some _ => true | None => false end.

(** A finding the normalizer cannot name: it is [null], or its [name] is
    neither a string nor an array. *)
Definition unnamed (finding : value) : Prop :=
  match Js.getProp finding "name" with
  | Ok (VStr _) | Ok (VArr _) => False
  | _ => True
  end.

(** A diagnostic entry that is [null] or whose [Text] is no string. *)
Definition malformedDiagnostic (d : value) : Prop :=
  match Js.getProp d "Text" with
  | Ok (VStr _) => False
  | _ => True
  end.

(** A finding with a malformed field the normalizer does not guard. *)
Definition brokenFinding (finding : value) : Prop :=
  unnamed finding \/
  exists s errors,
    Js.getProp finding "name" = Ok (VStr s) /\
    Js.getProp finding "error" = Ok (VArr errors) /\
    Exists malformedDiagnostic errors.

End Spec.

(* ------------------------------------------------------------------ *)
(** ** Sample environments *)

Module Samples.

Import Spec.

(** The executable is not on the path: every call is rejected with the
    code ENOENT. *)
Definition toolMissing : Tool :=
  fun _ _ => Throw (ExecError (Some "ENOENT") "spawn k8sgpt ENOENT").

Definition forNamespace (ns : string) (inv : Invocation) : bool :=
  existsb (String.eqb ("--namespace=" ++ ns)%string) (args inv).

(** A tool that answers every call; its standard output is named by the
    scope of the call. *)
Definition stdoutOf (inv : Invocation) : string :=
  if forNamespace "a" inv then "findings of a"
  else if forNamespace "b" inv then "findings of b"
  else "findings of the cluster".

Definition toolHealthy : Tool := fun _ inv => Ok (stdoutOf inv, "").

(** A tool that exits with a failure for namespace "a": the error of the
    child process layer, which quotes the command. *)
Definition exitFailure : exn :=
  ExecError (Some "1")
    "Command failed: k8sgpt analyze --output=json --filter=Pod --namespace=a".

Definition toolFailingOnA : Tool :=
  fun _ inv =>
    if forNamespace "a" inv then Throw exitFailure
    else Ok (stdoutOf inv, "").

Definition findingsOfA : list value :=
  [findingOf "Pod" "a/web" [diagnosticOf "Back-off restarting failed container" ""]].

Definition findingsOfB : list value :=
  [findingOf "Pod" "b/db" [diagnosticOf "pod is pending" "https://kubernetes.io/docs"]].

(** [JSON.parse] on the three outputs above. *)
Definition parseSample (stdout : string) : option value :=
  if String.eqb stdout "findings of a" then Some (outputOf findingsOfA)
  else if String.eqb stdout "findings of b" then Some (outputOf findingsOfB)
  else if String.eqb stdout "findings of the cluster"
       then Some (outputOf (findingsOfA ++ findingsOfB))
       else None.

Definition kcDev : K8sAnalyzer.KubeConfig :=
  {| K8sAnalyzer.getCurrentContext := "dev";
     K8sAnalyzer.getCurrentCluster :=
       Some {| K8sAnalyzer.cluster_name := "dev-cluster";
               K8sAnalyzer.server := "https://10.0.0.1:6443" |} |}.

Definition kcBare : K8sAnalyzer.KubeConfig :=
  {| K8sAnalyzer.getCurrentContext := "minikube";
     K8sAnalyzer.getCurrentCluster := None |}.

(** A request that names two namespaces and sets the all-namespaces flag. *)
Definition bothScopes : AnalyzeOptions :=
  {| namespaces := Some ["a"; "b"]; allNamespaces := true; filters := Some ["Pod"] |}.

(** A request for the namespaces "a" and "b". *)
Definition twoNamespaces : AnalyzeOptions :=
  {| namespaces := Some ["a"; "b"]; allNamespaces := false; filters := Some ["Pod"] |}.

(** The issues the normalizer makes of [findingsOfA] and [findingsOfB]. *)
Definition issuesOfA : list Issue :=
  [ {| kind := VStr "Pod"; name := VStr "web"; namespace := VStr "a";
       problem := VStr "Back-off restarting failed container";
       solution := VStr K8sGPTAdapter.defaultSolution;
       severity := critical |} ].

Definition issuesOfB : list Issue :=
  [ {| kind := VStr "Pod"; name := VStr "db"; namespace := VStr "b";
       problem := VStr "pod is pending";
       solution := VStr "https://kubernetes.io/docs";
       severity := warning |} ].

(** [Date.now()] of the sample runs, and events so many minutes old. *)
Definition sampleNow : Z := 1700000000000%Z.

Definition minutesAgo (m : Z) : option K8sAnalyzer.JsDate :=
  Some (K8sAnalyzer.ValidDate (sampleNow - m * 60 * 1000)%Z).

(** Two warnings of the last hour with different reasons and messages. *)
Definition probeEvents : list K8sAnalyzer.CoreV1Event :=
  [ {| K8sAnalyzer.type := Some "Warning";
       K8sAnalyzer.reason := Some "Probe";
       K8sAnalyzer.message := Some "failed-liveness";
       K8sAnalyzer.lastTimestamp := minutesAgo 10 |};
    {| K8sAnalyzer.type := Some "Warning";
       K8sAnalyzer.reason := Some "Probe-failed";
       K8sAnalyzer.message := Some "liveness";
       K8sAnalyzer.lastTimestamp := minutesAgo 5 |} ].

(** An error of the last hour that carries no time stamp, and the same
    error observed half an hour ago and two hours ago. *)
Definition untimedError : K8sAnalyzer.CoreV1Event :=
  {| K8sAnalyzer.type := Some "Error";
     K8sAnalyzer.reason := Some "Failed";
     K8sAnalyzer.message := Some "image pull failed";
     K8sAnalyzer.lastTimestamp := None |}.

Definition errorAt (m : Z) : K8sAnalyzer.CoreV1Event :=
  {| K8sAnalyzer.type := Some "Error";
     K8sAnalyzer.reason := Some "Failed";
     K8sAnalyzer.message := Some "image pull failed";
     K8sAnalyzer.lastTimestamp := minutesAgo m |}.

End Samples.

(* ------------------------------------------------------------------ *)
(** ** Further vocabulary *)

Module Notions.

(** The order of the severities: info below warning below critical. *)
Definition severityRank (s : Severity) : nat :=
  match s with
  | info => 0
  | warning => 1
  | critical => 2
  end.

(** What every issue of the normalizer looks like: its problem is a text,
    its severity is the class of that text, and it has a solution. *)
Definition normalized {E : Engine} (i : Issue) : Prop :=
  exists text,
    problem i = VStr text /\
    severity i = K8sGPTAdapter.determineSeverity text /\
    Js.truthy (solution i) = true.

(** The audit string of a call: the executable and the arguments, joined by
    spaces. *)
Definition renderCall (inv : Invocation) : string :=
  (file inv ++ " " ++ JsString.join " " (args inv))%string.

(** The calls [analyze] makes for the filters [F]: the tool's [analyze]
    subcommand with JSON output and these filters, for the whole cluster or
    for one namespace with a name that is not empty. *)
Definition analysisCall (F : list string) (inv : Invocation) : Prop :=
  file inv = "k8sgpt" /\
  exists rest,
    args inv = ["analyze"; "--output=json";
                ("--filter=" ++ JsString.join "," F)%string] ++ rest /\
    (rest = [] \/
     exists ns, ns <> ""%string /\ rest = [("--namespace=" ++ ns)%string]).

(** A request with its scope and its filters replaced. *)
Definition withScope (options : AnalyzeOptions) (nss : option (list string))
  (all : bool) : AnalyzeOptions :=
  {| namespaces := nss; allNamespaces := all; filters := filters options |}.

Definition withFilters (options : AnalyzeOptions) (fs : option (list string))
  : AnalyzeOptions :=
  {| namespaces := namespaces options; allNamespaces := allNamespaces options;
     filters := fs |}.

Definition member (k : string) (ks : list string) : bool :=
  existsb (String.eqb k) ks.

(** The keys of a list in the order of their first occurrence, those in
    [seen] left out. *)
Fixpoint firstOccurrencesFrom (seen ks : list string) : list string :=
  match ks with
  | [] => []
  | k :: rest =>
      if member k seen then firstOccurrencesFrom seen rest
      else k :: firstOccurrencesFrom (seen ++ [k]) rest
  end.

Definition firstOccurrences (ks : list string) : list string :=
  firstOccurrencesFrom [] ks.

End Notions.

(* ------------------------------------------------------------------ *)
(** ** [class K8sGPTAdapter]: recommendations, version and backend *)

Module K8sGPTQueries.

Import K8sGPTAdapter.

Definition adviceCritical : string :=
  "Address critical issues immediately to prevent service disruptions".

Definition adviceWarnings : string :=
  "High number of warnings detected. Consider implementing proactive monitoring".

Definition adviceRestarts : string :=
  "Multiple container restarts detected. Review resource limits and liveness probes".

(** [i.problem.includes('restart')]: a method of strings and of arrays. *)
Definition includesRestart (v : value) : result bool :=
  match v with
  | VStr s => Ok (JsString.includes "restart" s)
  | VArr xs =>
      Ok (existsb (fun x => match x with
                            | VStr s => String.eqb s "restart"
                            | _ => false
                            end) xs)
  | _ => Throw TypeError
  end.

(** [xs.filter(p)] for a callback that may throw. *)
Fixpoint filterResult {A : Type} (p : A -> result bool) (xs : list A)
  : result (list A) :=
  match xs with
  | [] => Ok []
  | x :: rest =>
      (keep <- p x ;;
       kept <- filterResult p rest ;;
       Ok (if keep : bool then x :: kept else kept))%js
  end.

(** [getRecommendations(issues)] *)
Definition getRecommendations (l : list Issue) : result (list string) :=
  let criticalCount :=
    List.length (filter (fun i => Severity_eqb (severity i) critical) l) in
  let warningCount :=
    List.length (filter (fun i => Severity_eqb (severity i) warning) l) in
  let recommendations :=
    (if (0 <? criticalCount)%nat then [adviceCritical] else [])
    ++ (if (5 <? warningCount)%nat then [adviceWarnings] else []) in
  (restartIssues <- filterResult (fun i => includesRestart (problem i)) l ;;
   Ok (recommendations ++
       if (0 <? List.length restartIssues)%nat then [adviceRestarts] else []))%js.

(** Character classes of the two regular expressions. *)
Definition between (lo hi : nat) (c : ascii) : bool :=
  (lo <=? nat_of_ascii c)%nat && (nat_of_ascii c <=? hi)%nat.

(** The white space of ASCII: tab, line feed, vertical tab, form feed,
    carriage return, space *)
Definition isSpace (c : ascii) : bool := between 9 13 c || between 32 32 c.

(** [\d] *)
Definition isDigit (c : ascii) : bool := between 48 57 c.

(** [[\d.]] *)
Definition isVersionChar (c : ascii) : bool := isDigit c || between 46 46 c.

(** [\w] *)
Definition isWordChar (c : ascii) : bool :=
  isDigit c || between 65 90 c || between 97 122 c || between 95 95 c.

Fixpoint takeWhile (p : ascii -> bool) (s : string) : string :=
  match s with
  | EmptyString => EmptyString
  | String c s' => if p c then String c (takeWhile p s') else EmptyString
  end.

Fixpoint dropWhile (p : ascii -> bool) (s : string) : string :=
  match s with
  | EmptyString => EmptyString
  | String c s' => if p c then dropWhile p s' else s
  end.

Fixpoint stripPrefix (p s : string) : option string :=
  match p, s with
  | EmptyString, _ => Some s
  | String _ _, EmptyString => None
  | String a p', String b s' =>
      if Ascii.eqb a b then stripPrefix p' s' else None
  end.

Section WithEngine.

Context {E : Engine}.

(** [/k8sgpt:\s+([\d.]+)/] tried at the start of [s]: the captured group.
    Both repetitions are greedy and their classes are disjoint, so the
    match takes the whole run of white space and then the whole run of
    digits and dots, each of them not empty. *)
Definition versionAt (s : string) : option string :=
  match stripPrefix "k8sgpt:" s with
  | None => None
  | Some rest =>
      let afterSpace := skipWhiteSpace rest in
      if String.eqb afterSpace rest
      then None
      else match takeWhile isVersionChar afterSpace with
           | EmptyString => None
           | String c v => Some (String c v)
           end
  end.

(** [/>\s*(\w+)/] tried at the start of [s]. *)
Definition providerAt (s : string) : option string :=
  match s with
  | EmptyString => None
  | String c rest =>
      if Ascii.eqb c ">"
      then match takeWhile isWordChar (skipWhiteSpace rest) with
           | EmptyString => None
           | String w ws => Some (String w ws)
           end
      else None
  end.

(** [s.match(re)]: the leftmost position where the expression matches. *)
Fixpoint firstMatch (tryAt : string -> option string) (s : string)
  : option string :=
  match tryAt s with
  | Some g => Some g
  | None =>
      match s with
      | EmptyString => None
      | String _ s' => firstMatch tryAt s'
      end
  end.

(** [interface { provider: string; model?: string }] *)
Record BackendInfo : Type := mkBackendInfo {
  provider : string;
  model : option string
}.

(** The loop of [getBackendInfo] over the lines of the output. *)
Fixpoint scanLines (lines : list string) : option string :=
  match lines with
  | [] => None
  | line :: rest =>
      if JsString.includes "Active:" line ||
         JsString.includes "Default:" line ||
         JsString.includes ">" line
      then match firstMatch providerAt line with
           | Some p => Some p
           | None => scanLines rest
           end
      else scanLines rest
  end.

Definition lineFeed : ascii := ascii_of_nat 10.

Section WithTool.

Variable tool : Tool.

(** [getVersion()] *)
Definition getVersion : Run string :=
  tryCatch
    (out <~ execFileAsync tool "k8sgpt" ["version"] ;;
     match firstMatch versionAt (fst out) with
     | Some v => ret v
     | None => ret "unknown"
     end)%run
    (fun _ => ret "unknown").

(** [getBackendInfo()] *)
Definition getBackendInfo : Run BackendInfo :=
  tryCatch
    (out <~ execFileAsync tool "k8sgpt" ["auth"; "list"] ;;
     match scanLines (JsString.split lineFeed (fst out)) with
     | Some p => ret {| provider := p; model := None |}
     | None => ret {| provider := "localai"; model := None |}
     end)%run
    (fun _ => ret {| provider := "localai"; model := None |}).

End WithTool.

End WithEngine.

End K8sGPTQueries.

(* ------------------------------------------------------------------ *)
(** ** [class K8sAnalyzer]: the direct collectors *)

Module Collectors.

Import K8sAnalyzer.

(** The cluster objects, with the fields the collectors read. *)
Record V1ObjectMeta : Type := mkMeta {
  meta_name : option string;
  meta_namespace : option string
}.

Record V1Namespace : Type := mkNamespace {
  ns_metadata : option V1ObjectMeta
}.

Record V1PodCondition : Type := mkCondition {
  cond_type : string;
  cond_status : string;
  cond_reason : option string
}.

Record V1ContainerStatus : Type := mkContainerStatus {
  container_name : string;
  restartCount : Z
}.

Record V1PodStatus : Type := mkPodStatus {
  phase : option string;
  conditions : option (list V1PodCondition);
  containerStatuses : option (list V1ContainerStatus)
}.

Record V1Pod : Type := mkPod {
  pod_metadata : option V1ObjectMeta;
  pod_status : option V1PodStatus
}.

Record V1LoadBalancerIngress : Type := mkIngress {
  ip : option string;
  hostname : option string
}.

(** [svc_type] is [spec?.type] and [svc_ingress] is
    [status?.loadBalancer?.ingress]. *)
Record V1Service : Type := mkService {
  svc_metadata : option V1ObjectMeta;
  svc_type : option string;
  svc_ingress : option (list V1LoadBalancerIngress)
}.

(** [spec_replicas] is [spec?.replicas] and [status_availableReplicas] is
    [status?.availableReplicas]; the counts are integers. *)
Record V1Deployment : Type := mkDeployment {
  dep_metadata : option V1ObjectMeta;
  spec_replicas : option Z;
  status_availableReplicas : option Z
}.

(** The read operations of the cluster API the collectors call; each one
    answers with the [items] of its response or rejects. *)
Record CoreV1Api : Type := mkCoreApi {
  listNamespace : result (list V1Namespace);
  listNamespacedPod : string -> result (list V1Pod);
  listPodForAllNamespaces : result (list V1Pod);
  listNamespacedEvent : string -> string -> result (list CoreV1Event);
  listNamespacedService : string -> result (list V1Service);
  listServiceForAllNamespaces : result (list V1Service)
}.

Record AppsV1Api : Type := mkAppsApi {
  listNamespacedDeployment : string -> result (list V1Deployment);
  listDeploymentForAllNamespaces : result (list V1Deployment)
}.

(** The fields of [options] the collectors read.  [namespace] is no field
    of [AnalyzeOptions]: it is there when the caller's object carries it. *)
Record CollectorOptions : Type := mkCollectorOptions {
  opt_namespace : option string;
  opt_allNamespaces : bool
}.

(** [options.namespace || (options.allNamespaces ? undefined : 'default')] *)
Definition targetNamespace (options : CollectorOptions) : option string :=
  match opt_namespace options with
  | Some ns => if JsString.truthy ns then Some ns
               else if opt_allNamespaces options then None else Some "default"
  | None => if opt_allNamespaces options then None else Some "default"
  end.

(** [metadata?.name] and [metadata?.namespace] *)
Definition nameOf (m : option V1ObjectMeta) : option string :=
  match m with Some x => meta_name x | None => None end.

Definition namespaceOf (m : option V1ObjectMeta) : option string :=
  match m with Some x => meta_namespace x | None => None end.

(** An optional string as the field of an issue. *)
Definition optValue (o : option string) : value :=
  match o with Some s => VStr s | None => VUndefined end.

(** [`${n}`] for an integer. *)
Definition numberToString (n : Z) : string :=
  DecimalString.NilZero.string_of_int (Z.to_int n).

(** [n || 0] *)
Definition orZero (o : option Z) : Z :=
  match o with Some n => n | None => 0%Z end.

(** Sorting strings by their bytes, as [names.sort()] does for names whose
    characters are compared by code point. *)
Module StringOrder <: Orders.TotalLeBool.
Definition t : Type := string.
Definition leb : string -> string -> bool := String.leb.
Definition leb_total : forall a b : string, leb a b = true \/ leb b a = true :=
  String.leb_total.
End StringOrder.

Module StringSort := Mergesort.Sort StringOrder.

Fixpoint definedNames (items : list V1Namespace) : list string :=
  match items with
  | [] => []
  | item :: rest =>
      match nameOf (ns_metadata item) with
      | Some n => n :: definedNames rest
      | None => definedNames rest
      end
  end.

(** [getNamespaces()] *)
Definition getNamespaces (api : CoreV1Api) : list string :=
  match listNamespace api with
  | Ok items => StringSort.sort (definedNames items)
  | Throw _ => []
  end.

(** [getEventsForPod(podName, namespace)] *)
Definition getEventsForPod (api : CoreV1Api) (podName ns : string)
  : list CoreV1Event :=
  match listNamespacedEvent api ns
          ("involvedObject.name=" ++ podName ++ ",involvedObject.kind=Pod")%string
  with
  | Ok items => items
  | Throw _ => []
  end.

Definition podIssue (podName : string) (podNamespace : option string)
  (text remedy : string) (sev : Severity) : Issue :=
  {| kind := VStr "Pod";
     name := VStr podName;
     namespace := optValue podNamespace;
     problem := VStr text;
     solution := VStr remedy;
     severity := sev |}.

(** The first three checks of the loop of [analyzePods]: the phase, the
    scheduling of a pending pod, the restarts of the containers. *)
Definition phaseIssues (podName : string) (podNamespace status : option string)
  : list Issue :=
  match status with
  | Some st =>
      if String.eqb st "Failed" || String.eqb st "Unknown"
      then [podIssue podName podNamespace
              ("Pod is in " ++ st ++ " state")%string
              "Check pod logs and events for more details" critical]
      else []
  | None => []
  end.

Definition pendingIssues (podName : string) (podNamespace status : option string)
  (conds : option (list V1PodCondition)) : list Issue :=
  if optEqb status "Pending"
  then match find (fun c => String.eqb (cond_type c) "PodScheduled" &&
                            String.eqb (cond_status c) "False")
                  (match conds with Some cs => cs | None => [] end)
       with
       | Some unschedulable =>
           [podIssue podName podNamespace
              ("Pod is Pending: " ++
               orElse (cond_reason unschedulable) "Unknown reason")%string
              "Check node resources and pod requirements" warning]
       | None => []
       end
  else [].

Definition restartIssues (podName : string) (podNamespace : option string)
  (statuses : option (list V1ContainerStatus)) : list Issue :=
  flat_map
    (fun containerStatus =>
       if (restartCount containerStatus >? 5)%Z
       then [podIssue podName podNamespace
               ("Container " ++ container_name containerStatus ++ " has " ++
                numberToString (restartCount containerStatus) ++ " restarts")%string
               "Check container logs and resource limits" warning]
       else [])
    (match statuses with Some cs => cs | None => [] end).

(** What one turn of the loop of [analyzePods] pushes. *)
Definition issuesOfPod (api : CoreV1Api) (now : Z) (pod : V1Pod) : list Issue :=
  let status := match pod_status pod with Some s => phase s | None => None end in
  let podName := orElse (nameOf (pod_metadata pod)) "unknown" in
  let podNamespace := namespaceOf (pod_metadata pod) in
  phaseIssues podName podNamespace status
  ++ pendingIssues podName podNamespace status
       (match pod_status pod with Some s => conditions s | None => None end)
  ++ restartIssues podName podNamespace
       (match pod_status pod with Some s => containerStatuses s | None => None end)
  ++ match podNamespace with
     | Some ns =>
         if JsString.truthy ns
         then podEventIssues now podName ns (getEventsForPod api podName ns)
         else []
     | None => []
     end.

(** [analyzePods(options)]; [now] is [Date.now()]. *)
Definition analyzePods (api : CoreV1Api) (now : Z) (options : CollectorOptions)
  : list Issue :=
  match match targetNamespace options with
        | Some ns => listNamespacedPod api ns
        | None => listPodForAllNamespaces api
        end
  with
  | Ok pods => flat_map (issuesOfPod api now) pods
  | Throw _ => []
  end.

(** What one turn of the loop of [analyzeServices] pushes. *)
Definition issuesOfService (service : V1Service) : list Issue :=
  if optEqb (svc_type service) "LoadBalancer" &&
     match svc_ingress service with Some _ => false | None => true end
  then [ {| kind := VStr "Service";
            name := VStr (orElse (nameOf (svc_metadata service)) "unknown");
            namespace := optValue (namespaceOf (svc_metadata service));
            problem := VStr "LoadBalancer service has no external IP assigned";
            solution :=
              VStr "Check LoadBalancer configuration and cloud provider status";
            severity := warning |} ]
  else [].

(** [analyzeServices(options)] *)
Definition analyzeServices (api : CoreV1Api) (options : CollectorOptions)
  : list Issue :=
  match match targetNamespace options with
        | Some ns => listNamespacedService api ns
        | None => listServiceForAllNamespaces api
        end
  with
  | Ok services => flat_map issuesOfService services
  | Throw _ => []
  end.

(** What one turn of the loop of [analyzeDeployments] pushes. *)
Definition issuesOfDeployment (deployment : V1Deployment) : list Issue :=
  let desiredReplicas := orZero (spec_replicas deployment) in
  let availableReplicas := orZero (status_availableReplicas deployment) in
  if (availableReplicas <? desiredReplicas)%Z
  then [ {| kind := VStr "Deployment";
            name := VStr (orElse (nameOf (dep_metadata deployment)) "unknown");
            namespace := optValue (namespaceOf (dep_metadata deployment));
            problem :=
              VStr ("Deployment has " ++ numberToString availableReplicas ++ "/" ++
                    numberToString desiredReplicas ++ " replicas available")%string;
            solution := VStr "Check pod status and resource availability";
            severity := if (availableReplicas =? 0)%Z then critical else warning |} ]
  else [].

(** [analyzeDeployments(options)]; [makeAppsApi] is
    [this.kc.makeApiClient(k8s.AppsV1Api)]. *)
Definition analyzeDeployments (makeAppsApi : result AppsV1Api)
  (options : CollectorOptions) : list Issue :=
  match makeAppsApi with
  | Ok appsApi =>
      match match targetNamespace options with
            | Some ns => listNamespacedDeployment appsApi ns
            | None => listDeploymentForAllNamespaces appsApi
            end
      with
      | Ok deployments => flat_map issuesOfDeployment deployments
      | Throw _ => []
      end
  | Throw _ => []
  end.

End Collectors.

(* ------------------------------------------------------------------ *)
(** ** The command line ([cli/analyze.ts]) *)

Module Cli.

(** [interface AnalyzeOptions] of the command line. *)
Record CliOptions : Type := mkCliOptions {
  cli_namespace : option string;
  output : string;
  cli_allNamespaces : bool;
  filter : option string
}.

(** How the result is printed; [yaml] falls back to text. *)
Inductive Format : Type := JsonFormat | TextFormat.

(** How the command ends: the result is printed, or the process exits
    with a code. *)
Inductive CliOutcome : Type :=
| Printed (f : Format) (r : AnalysisResult)
| Exited (code : Z).

Section WithEnvironment.

Context {E : Engine}.

Variable tool : Tool.
Variable JSON_parse : string -> option value.

(** [new K8sAnalyzer()]: the configuration it loads, or what it throws
    when no client can be made of it (no active cluster). *)
Variable newAnalyzer : result K8sAnalyzer.KubeConfig.

Variable isoNow : string.

(** [f.trim()] *)
Variable trim : string -> string.

(** [options.filter ? options.filter.split(',').map(f => f.trim())
      : undefined] *)
Definition parseFilter (options : CliOptions) : option (list string) :=
  match filter options with
  | Some s => if JsString.truthy s then Some (map trim (JsString.split "," s))
              else None
  | None => None
  end.

(** The object handed to the analyzer.  It carries [namespace], which is
    no field of the analyzer's options and is not read there; its
    [namespaces] is absent. *)
Definition requestOf (options : CliOptions) : AnalyzeOptions :=
  {| namespaces := None;
     allNamespaces := cli_allNamespaces options;
     filters := parseFilter options |}.

Definition formatOf (options : CliOptions) : Format :=
  if String.eqb (output options) "json" then JsonFormat else TextFormat.

(** [analyze(options)] of the command line, up to the text it prints. *)
Definition analyze (options : CliOptions) : Run CliOutcome :=
  tryCatch
    (kc <~ liftResult newAnalyzer ;;
     r <~ K8sAnalyzer.analyze tool JSON_parse kc isoNow (requestOf options) ;;
     ret (Printed (formatOf options) r))%run
    (fun _ => ret (Exited 1)).

End WithEnvironment.

End Cli.

(* ------------------------------------------------------------------ *)
(** ** Vocabulary of the recommendations, queries and collectors *)

Module Terms.

(** An issue whose problem is a text. *)
Definition textual (i : Issue) : Prop := exists text, problem i = VStr text.

(** An issue whose problem is a text that contains "restart". *)
Definition aboutRestart (i : Issue) : Prop :=
  exists text, problem i = VStr text /\ JsString.includes "restart" text = true.

(** Every character of [s] satisfies [p]. *)
Fixpoint allChars (p : ascii -> bool) (s : string) : bool :=
  match s with
  | EmptyString => true
  | String c s' => p c && allChars p s'
  end.

(** The loop of [getBackendInfo] without its test of the line. *)
Fixpoint scanLinesUnguarded {E : Engine} (lines : list string) : option string :=
  match lines with
  | [] => None
  | line :: rest =>
      match K8sGPTQueries.firstMatch K8sGPTQueries.providerAt line with
      | Some p => Some p
      | None => scanLinesUnguarded rest
      end
  end.

(** The number of elements of a list that satisfy a test. *)
Definition countIf {A : Type} (p : A -> bool) (l : list A) : nat :=
  List.length (filter p l).

(** A deployment with fewer available replicas than desired, and one with
    no available replica at all. *)
Definition underReplicated (d : Collectors.V1Deployment) : bool :=
  (Collectors.orZero (Collectors.status_availableReplicas d)
   <? Collectors.orZero (Collectors.spec_replicas d))%Z.

Definition unavailable (d : Collectors.V1Deployment) : bool :=
  underReplicated d &&
  (Collectors.orZero (Collectors.status_availableReplicas d) =? 0)%Z.

(** A load balancer service whose status has no [ingress] field. *)
Definition unassigned (s : Collectors.V1Service) : bool :=
  K8sAnalyzer.optEqb (Collectors.svc_type s) "LoadBalancer" &&
  match Collectors.svc_ingress s with Some _ => false | None => true end.

(** The list calls the collectors make for their options. *)
Definition podListing (api : Collectors.CoreV1Api)
  (options : Collectors.CollectorOptions) : result (list Collectors.V1Pod) :=
  match Collectors.targetNamespace options with
  | Some ns => Collectors.listNamespacedPod api ns
  | None => Collectors.listPodForAllNamespaces api
  end.

Definition serviceListing (api : Collectors.CoreV1Api)
  (options : Collectors.CollectorOptions) : result (list Collectors.V1Service) :=
  match Collectors.targetNamespace options with
  | Some ns => Collectors.listNamespacedService api ns
  | None => Collectors.listServiceForAllNamespaces api
  end.

Definition deploymentListing (appsApi : Collectors.AppsV1Api)
  (options : Collectors.CollectorOptions)
  : result (list Collectors.V1Deployment) :=
  match Collectors.targetNamespace options with
  | Some ns => Collectors.listNamespacedDeployment appsApi ns
  | None => Collectors.listDeploymentForAllNamespaces appsApi
  end.

(** What a pod's own state gives, its events left aside. *)
Definition statusIssuesOfPod (pod : Collectors.V1Pod) : list Issue :=
  let status := match Collectors.pod_status pod with
                | Some s => Collectors.phase s
                | None => None
                end in
  let podName :=
    K8sAnalyzer.orElse (Collectors.nameOf (Collectors.pod_metadata pod)) "unknown" in
  let podNamespace := Collectors.namespaceOf (Collectors.pod_metadata pod) in
  Collectors.phaseIssues podName podNamespace status
  ++ Collectors.pendingIssues podName podNamespace status
       (match Collectors.pod_status pod with
        | Some s => Collectors.conditions s
        | None => None
        end)
  ++ Collectors.restartIssues podName podNamespace
       (match Collectors.pod_status pod with
        | Some s => Collectors.containerStatuses s
        | None => None
        end).

(** A summary by its four counts. *)
Definition counts (t c w i : nat) : Summary :=
  {| total := t; criticalCount := c; warningCount := w; infoCount := i |}.

(** The phase of a pod, its conditions and the states of its containers,
    each empty when absent. *)
Definition phaseOf (pod : Collectors.V1Pod) : option string :=
  match Collectors.pod_status pod with
  | Some s => Collectors.phase s
  | None => None
  end.

Definition conditionsOf (pod : Collectors.V1Pod) : list Collectors.V1PodCondition :=
  match Collectors.pod_status pod with
  | Some {| Collectors.conditions := Some cs |} => cs
  | _ => []
  end.

Definition containersOf (pod : Collectors.V1Pod) : list Collectors.V1ContainerStatus :=
  match Collectors.pod_status pod with
  | Some {| Collectors.containerStatuses := Some cs |} => cs
  | _ => []
  end.

(** A pod that failed or whose state is unknown. *)
Definition lost (pod : Collectors.V1Pod) : bool :=
  match phaseOf pod with
  | Some st => String.eqb st "Failed" || String.eqb st "Unknown"
  | None => false
  end.

(** A pending pod one of whose conditions says that it is not scheduled. *)
Definition notScheduled (c : Collectors.V1PodCondition) : bool :=
  String.eqb (Collectors.cond_type c) "PodScheduled" &&
  String.eqb (Collectors.cond_status c) "False".

Definition unschedulable (pod : Collectors.V1Pod) : bool :=
  match phaseOf pod with
  | Some st => String.eqb st "Pending" && existsb notScheduled (conditionsOf pod)
  | None => false
  end.

(** The number of containers of a pod that restarted more than five
    times. *)
Definition restartingContainers (pod : Collectors.V1Pod) : nat :=
  countIf (fun c => (5 <? Collectors.restartCount c)%Z) (containersOf pod).

(** An issue as the collectors make them: a text for a problem, a
    sentence for a solution, and a severity above info. *)
Definition actionable (i : Issue) : Prop :=
  textual i /\
  severity i <> info /\
  exists remedy, solution i = VStr remedy /\ remedy <> ""%string.

End Terms.

(* ------------------------------------------------------------------ *)
(** ** Sample cluster states and outputs *)

Module Scenarios.

Import Collectors.

Definition newline : string := String K8sGPTQueries.lineFeed EmptyString.

(** An output of [k8sgpt auth list]. *)
Definition authListOutput : string :=
  ("Default: " ++ newline ++
   "> openai" ++ newline ++
   "Active: " ++ newline ++
   "> openai" ++ newline ++
   "Unused: " ++ newline ++
   "> localai" ++ newline)%string.

Definition toolAuthList : Tool := fun _ _ => Ok (authListOutput, ""%string).

Definition named (n ns : string) : option V1ObjectMeta :=
  Some {| meta_name := Some n; meta_namespace := Some ns |}.

(** Three namespaces, one of them without metadata. *)
Definition threeNamespaces : list V1Namespace :=
  [ {| ns_metadata := Some {| meta_name := Some "kube-system";
                              meta_namespace := None |} |};
    {| ns_metadata := None |};
    {| ns_metadata := Some {| meta_name := Some "default";
                              meta_namespace := None |} |} ].

(** A deployment without available replica, one with two of three, and a
    healthy one. *)
Definition someDeployments : list V1Deployment :=
  [ {| dep_metadata := named "api" "default";
       spec_replicas := Some 3%Z; status_availableReplicas := None |};
    {| dep_metadata := named "web" "default";
       spec_replicas := Some 3%Z; status_availableReplicas := Some 2%Z |};
    {| dep_metadata := named "db" "default";
       spec_replicas := Some 1%Z; status_availableReplicas := Some 1%Z |} ].

(** A load balancer without ingress field, one with an empty ingress list,
    and a cluster-internal service. *)
Definition someServices : list V1Service :=
  [ {| svc_metadata := named "edge" "default";
       svc_type := Some "LoadBalancer"; svc_ingress := None |};
    {| svc_metadata := named "edge-2" "default";
       svc_type := Some "LoadBalancer"; svc_ingress := Some [] |};
    {| svc_metadata := named "internal" "default";
       svc_type := Some "ClusterIP"; svc_ingress := None |} ].

(** A failed pod, and a running pod with a container that restarted seven
    times. *)
Definition somePods : list V1Pod :=
  [ {| pod_metadata := named "job-1" "default";
       pod_status := Some {| phase := Some "Failed"; conditions := None;
                             containerStatuses := None |} |};
    {| pod_metadata := named "web-1" "default";
       pod_status :=
         Some {| phase := Some "Running"; conditions := None;
                 containerStatuses :=
                   Some [ {| container_name := "nginx"; restartCount := 7%Z |};
                          {| container_name := "sidecar"; restartCount := 5%Z |} ] |} |} ].

Definition forbidden : exn := Error "Forbidden".

(** What [new K8sAnalyzer()] throws without an active cluster. *)
Definition noActiveCluster : exn := Error "No active cluster!".

(** A cluster that answers the list calls for the namespace "default" and
    refuses to list events. *)
Definition apiDefault : CoreV1Api :=
  {| listNamespace := Ok threeNamespaces;
     listNamespacedPod :=
       fun ns => if String.eqb ns "default" then Ok somePods else Ok [];
     listPodForAllNamespaces := Ok somePods;
     listNamespacedEvent := fun _ _ => Throw forbidden;
     listNamespacedService :=
       fun ns => if String.eqb ns "default" then Ok someServices else Ok [];
     listServiceForAllNamespaces := Ok someServices |}.

Definition appsDefault : AppsV1Api :=
  {| listNamespacedDeployment :=
       fun ns => if String.eqb ns "default" then Ok someDeployments else Ok [];
     listDeploymentForAllNamespaces := Ok someDeployments |}.

(** A cluster that refuses every call. *)
Definition apiDown : CoreV1Api :=
  {| listNamespace := Throw forbidden;
     listNamespacedPod := fun _ => Throw forbidden;
     listPodForAllNamespaces := Throw forbidden;
     listNamespacedEvent := fun _ _ => Throw forbidden;
     listNamespacedService := fun _ => Throw forbidden;
     listServiceForAllNamespaces := Throw forbidden |}.

Definition noScope : CollectorOptions :=
  {| opt_namespace := None; opt_allNamespaces := false |}.

(** [trim] on ASCII white space. *)
Fixpoint trimEnd (s : string) : string :=
  match s with
  | EmptyString => EmptyString
  | String c s' =>
      match trimEnd s' with
      | EmptyString =>
          if K8sGPTQueries.isSpace c then EmptyString else String c EmptyString
      | String d t => String c (String d t)
      end
  end.

Definition trimAscii (s : string) : string :=
  trimEnd (K8sGPTQueries.dropWhile K8sGPTQueries.isSpace s).


End Scenarios.

(* ------------------------------------------------------------------ *)
(** ** The route [GET /api/analyze] ([server/index.ts]) *)

Module Server.

(** A query parameter as the route sees it: absent, a string, or a list of
    strings (a repeated parameter).  Parameters written with brackets,
    which the parser turns into objects, are outside this embedding. *)
Inductive QueryValue : Type :=
| QAbsent
| QString (s : string)
| QStrings (l : list string).

(** [const { namespace, namespaces, allNamespaces, filters } = req.query] *)
Record AnalyzeQuery : Type := mkAnalyzeQuery {
  q_namespace : QueryValue;
  q_namespaces : QueryValue;
  q_allNamespaces : QueryValue;
  q_filters : QueryValue
}.

(** What the route answers: [res.json(result)], or status 500 with the
    message of the error. *)
Inductive Response : Type :=
| Json200 (r : AnalysisResult)
| Json500 (error : exn).

Section WithEnvironment.

Context {E : Engine}.

Variable tool : Tool.
Variable JSON_parse : string -> option value.

(** [new K8sAnalyzer()]: the configuration it loads, or what it throws
    when no client can be made of it (no active cluster). *)
Variable newAnalyzer : result K8sAnalyzer.KubeConfig.

Variable isoNow : string.

(** [ns.trim()] *)
Variable trim : string -> string.

(** [filterList] *)
Definition filterList (q : AnalyzeQuery) : option (list string) :=
  match q_filters q with
  | QAbsent => None
  | QString s => if JsString.truthy s then Some (JsString.split "," s) else None
  | QStrings l => Some l
  end.

(** [namespaceList] *)
Definition namespaceList (q : AnalyzeQuery) : option (list string) :=
  match q_namespaces q with
  | QString s =>
      if JsString.truthy s
      then Some (filter (fun ns => negb (String.length ns =? 0)%nat)
                        (map trim (JsString.split "," s)))
      else match q_namespace q with
           | QString n => if JsString.truthy n then Some [n] else None
           | _ => None
           end
  | _ =>
      match q_namespace q with
      | QString n => if JsString.truthy n then Some [n] else None
      | _ => None
      end
  end.

(** [allNamespaces === 'true'] *)
Definition allRequested (q : AnalyzeQuery) : bool :=
  match q_allNamespaces q with
  | QString s => String.eqb s "true"
  | _ => false
  end.

Definition requestOf (q : AnalyzeQuery) : AnalyzeOptions :=
  {| namespaces := namespaceList q;
     allNamespaces := allRequested q;
     filters := filterList q |}.

(** The handler of [GET /api/analyze]. *)
Definition getAnalyze (q : AnalyzeQuery) : Run Response :=
  tryCatch
    (kc <~ liftResult newAnalyzer ;;
     r <~ K8sAnalyzer.analyze tool JSON_parse kc isoNow (requestOf q) ;;
     ret (Json200 r))%run
    (fun error => ret (Json500 error)).

End WithEnvironment.

End Server.

(* ------------------------------------------------------------------ *)
(** ** The engine of the sample runs *)

(** An engine as every engine is on a text in ASCII, with a limit of
    65535 arguments.  A statement that has no engine among its variables
    is about this one. *)
#[global, warnings="-abstract-large-number"] Instance asciiEngine : Engine :=
  {| toLowerCase := JsString.asciiLowerCase;
     skipWhiteSpace := K8sGPTQueries.dropWhile K8sGPTQueries.isSpace;
     argumentLimit := 65535 |}.

(** The Kelvin sign U+212A, in UTF-8 the bytes 226, 132 and 170: a letter
    outside ASCII that [toLowerCase] lowers to "k". *)
Definition kelvinSign : string :=
  String (ascii_of_nat 226)
    (String (ascii_of_nat 132) (String (ascii_of_nat 170) EmptyString)).

Definition isByte (n : nat) (c : ascii) : bool := (nat_of_ascii c =? n)%nat.

Fixpoint lowerKelvin (s : string) : string :=
  match s with
  | EmptyString => EmptyString
  | String a s1 =>
      match s1 with
      | String b (String c rest) =>
          if isByte 226 a && isByte 132 b && isByte 170 c
          then String "k" (lowerKelvin rest)
          else String a (lowerKelvin s1)
      | _ => String a (lowerKelvin s1)
      end
  end.

(** The no-break space U+00A0, in UTF-8 the bytes 194 and 160: white space
    outside ASCII. *)
Definition noBreakSpace : string :=
  String (ascii_of_nat 194) (String (ascii_of_nat 160) EmptyString).

Fixpoint skipWide (s : string) : string :=
  match s with
  | EmptyString => EmptyString
  | String a s1 =>
      if K8sGPTQueries.isSpace a then skipWide s1
      else match s1 with
           | String b rest =>
               if isByte 194 a && isByte 160 b then skipWide rest else s
           | EmptyString => s
           end
  end.

(** An engine that knows these two characters as well, as the engines
    do. *)
Definition widerEngine : Engine :=
  {| toLowerCase := fun s => JsString.asciiLowerCase (lowerKelvin s);
     skipWhiteSpace := skipWide;
     argumentLimit := argumentLimit (Engine := asciiEngine) |}.

(** An output of [k8sgpt auth list] with a no-break space after ">". *)
Definition toolAuthWide : Tool :=
  fun _ _ => Ok ((">" ++ noBreakSpace ++ "openai")%string, ""%string).

(* ================================================================== *)
(** * Properties *)

Import K8sGPTAdapter K8sAnalyzer Spec Samples.

(* ------------------------------------------------------------------ *)
(** ** Strings *)

Section StringFacts.

Local Open Scope string_scope.

Lemma startsWith_prefix (p s : string) :
  JsString.startsWith p s = true <-> exists post, s = p ++ post.
Proof.
  revert s; induction p as [|a p IH]; intros s; simpl.
  - split; [intros _; now exists s | reflexivity].
  - destruct s as [|b s].
    + split; [discriminate | intros [post H]; discriminate].
    + rewrite andb_true_iff, Ascii.eqb_eq, IH. split.
      * intros [-> [post ->]]. now exists post.
      * intros [post H]. injection H as -> ->. split; [reflexivity | now exists post].
Qed.

Lemma includes_substring (k s : string) :
  JsString.includes k s = true <-> exists pre post, s = pre ++ k ++ post.
Proof.
  induction s as [|c s IH].
  - simpl. rewrite orb_false_r, startsWith_prefix. split.
    + intros [post ->]. now exists "", post.
    + intros [pre [post H]]. destruct pre; simpl in H.
      * now exists post.
      * discriminate.
  - cbn [JsString.includes]. rewrite orb_true_iff, startsWith_prefix, IH. split.
    + intros [[post ->] | [pre [post ->]]].
      * now exists "", post.
      * now exists (String c pre), post.
    + intros [pre [post H]]. destruct pre as [|c' pre]; simpl in H.
      * left. now exists post.
      * right. injection H as _ ->. now exists pre, post.
Qed.

Lemma mapChars_app (f : ascii -> ascii) (a b : string) :
  JsString.mapChars f (a ++ b) = JsString.mapChars f a ++ JsString.mapChars f b.
Proof. induction a as [|c a IH]; simpl; [reflexivity | now rewrite IH]. Qed.

Lemma mapChars_split (f : ascii -> ascii) (a b s : string) :
  JsString.mapChars f s = a ++ b ->
  exists a' b', s = a' ++ b' /\ JsString.mapChars f a' = a /\ JsString.mapChars f b' = b.
Proof.
  revert s; induction a as [|c a IH]; intros s H; simpl in H.
  - now exists "", s.
  - destruct s as [|d s]; simpl in H; [discriminate|].
    injection H as Hc Hs. destruct (IH _ Hs) as (a' & b' & -> & Ha & Hb).
    exists (String d a'), b'. simpl. now rewrite Hc, Ha, Hb.
Qed.

Lemma lowerChar_upperChar (c : ascii) :
  JsString.lowerChar (JsString.upperChar c) = JsString.lowerChar c.
Proof.
  destruct c as [[] [] [] [] [] [] [] []]; vm_compute; reflexivity.
Qed.

Lemma lowerChar_idem (c : ascii) :
  JsString.lowerChar (JsString.lowerChar c) = JsString.lowerChar c.
Proof.
  destruct c as [[] [] [] [] [] [] [] []]; vm_compute; reflexivity.
Qed.

Lemma toLowerCase_toUpperCase (s : string) :
  JsString.asciiLowerCase (JsString.asciiUpperCase s) = JsString.asciiLowerCase s.
Proof.
  induction s as [|c s IH]; simpl; [reflexivity|].
  unfold JsString.asciiLowerCase, JsString.asciiUpperCase in *; simpl.
  now rewrite lowerChar_upperChar, IH.
Qed.

Lemma toLowerCase_idem (s : string) :
  JsString.asciiLowerCase (JsString.asciiLowerCase s) = JsString.asciiLowerCase s.
Proof.
  induction s as [|c s IH]; simpl; [reflexivity|].
  unfold JsString.asciiLowerCase in *; simpl.
  now rewrite lowerChar_idem, IH.
Qed.

Lemma includes_mentions (k text : string) :
  JsString.includes k (JsString.asciiLowerCase text) = true <-> mentions k text.
Proof.
  rewrite includes_substring. unfold mentions, JsString.asciiLowerCase. split.
  - intros (pre & post & H).
    apply mapChars_split in H as (pre' & rest & -> & _ & H).
    apply mapChars_split in H as (mid & post' & -> & Hmid & _).
    now exists pre', mid, post'.
  - intros (pre & mid & post & -> & <-).
    exists (JsString.mapChars JsString.lowerChar pre),
           (JsString.mapChars JsString.lowerChar post).
    now rewrite !mapChars_app.
Qed.

End StringFacts.

(* ------------------------------------------------------------------ *)
(** ** The summary *)

Lemma filter_severity_count (s : Severity) (l : list Issue) :
  List.length (filter (fun i => Severity_eqb (severity i) s) l) = countSeverity s l.
Proof.
  unfold countSeverity.
  induction l as [|i l IH]; simpl; [reflexivity|].
  destruct (Severity_eq_dec (severity i) s) as [E|E].
  - rewrite E. destruct s; simpl; now rewrite IH.
  - destruct (severity i), s; simpl; congruence.
Qed.

Lemma countSeverity_partition (l : list Issue) :
  countSeverity critical l + countSeverity warning l + countSeverity info l
  = List.length l.
Proof.
  unfold countSeverity.
  induction l as [|i l IH]; simpl; [reflexivity|].
  destruct (severity i); simpl;
    repeat match goal with
           | |- context [Severity_eq_dec ?a ?b] =>
               destruct (Severity_eq_dec a b); try congruence
           end; lia.
Qed.

(** C1.  For every issue list, the summary's total is the length of the
    list, each severity count is the number of issues of that severity, and
    the three counts add up to the total. *)
Theorem summarizeIssues_consistent (l : list Issue) :
  total (summarizeIssues l) = List.length l /\
  criticalCount (summarizeIssues l) = countSeverity critical l /\
  warningCount (summarizeIssues l) = countSeverity warning l /\
  infoCount (summarizeIssues l) = countSeverity info l /\
  criticalCount (summarizeIssues l) + warningCount (summarizeIssues l)
    + infoCount (summarizeIssues l) = total (summarizeIssues l).
Proof.
  unfold summarizeIssues; cbn [total criticalCount warningCount infoCount].
  rewrite !filter_severity_count.
  repeat split; try reflexivity.
  apply countSeverity_partition.
Qed.

Lemma summarize_app (l1 l2 : list Issue) :
  summarizeIssues (l1 ++ l2) =
  {| total := total (summarizeIssues l1) + total (summarizeIssues l2);
     criticalCount :=
       criticalCount (summarizeIssues l1) + criticalCount (summarizeIssues l2);
     warningCount :=
       warningCount (summarizeIssues l1) + warningCount (summarizeIssues l2);
     infoCount := infoCount (summarizeIssues l1) + infoCount (summarizeIssues l2) |}.
Proof.
  unfold summarizeIssues; cbn [total criticalCount warningCount infoCount].
  now rewrite !filter_app, !length_app.
Qed.

(* ------------------------------------------------------------------ *)
(** ** The severity classifier *)

Lemma mentionsAny_existsb (keywords : list string) (text : string) :
  existsb (fun k => JsString.includes k (JsString.asciiLowerCase text)) keywords = true
  <-> mentionsAny keywords text.
Proof.
  rewrite existsb_exists. unfold mentionsAny.
  split; intros (k & Hin & H); exists k; split; auto; now apply includes_mentions.
Qed.

Lemma anyOccursIn_existsb (keywords : list string) (s : string) :
  existsb (fun k => JsString.includes k s) keywords = true
  <-> anyOccursIn keywords s.
Proof.
  rewrite existsb_exists. unfold anyOccursIn, occursIn.
  split; intros (k & Hin & H); exists k; split; auto; now apply includes_substring.
Qed.

Lemma determineSeverity_existsb {engine : Engine} (text : string) :
  determineSeverity text =
  if existsb (fun k => JsString.includes k (toLowerCase text)) criticalKeywords
  then critical
  else if existsb (fun k => JsString.includes k (toLowerCase text)) warningKeywords
       then warning
       else info.
Proof.
  unfold determineSeverity, criticalKeywords, warningKeywords; cbn [existsb].
  now rewrite !orb_false_r, !orb_assoc.
Qed.

(** On the lowering of the ASCII letters, a keyword is found exactly when
    the text mentions it. *)
Lemma determineSeverity_critical (text : string) :
  determineSeverity (E := asciiEngine) text = critical
  <-> mentionsAny criticalKeywords text.
Proof.
  rewrite <- mentionsAny_existsb, determineSeverity_existsb.
  cbn [toLowerCase asciiEngine].
  destruct (existsb _ criticalKeywords); [tauto|].
  destruct (existsb _ warningKeywords); split; discriminate.
Qed.

Lemma determineSeverity_warning (text : string) :
  determineSeverity (E := asciiEngine) text = warning <->
  ~ mentionsAny criticalKeywords text /\ mentionsAny warningKeywords text.
Proof.
  rewrite <- !mentionsAny_existsb, determineSeverity_existsb.
  cbn [toLowerCase asciiEngine].
  destruct (existsb _ criticalKeywords), (existsb _ warningKeywords);
    split; try discriminate; intuition congruence.
Qed.

Lemma determineSeverity_info (text : string) :
  determineSeverity (E := asciiEngine) text = info <->
  ~ mentionsAny criticalKeywords text /\ ~ mentionsAny warningKeywords text.
Proof.
  rewrite <- !mentionsAny_existsb, determineSeverity_existsb.
  cbn [toLowerCase asciiEngine].
  destruct (existsb _ criticalKeywords), (existsb _ warningKeywords);
    split; try discriminate; intuition congruence.
Qed.

(** The class depends on the lowered text only. *)
Lemma determineSeverity_lowered {E E' : Engine} (text text' : string) :
  toLowerCase (Engine := E) text = toLowerCase (Engine := E') text' ->
  determineSeverity (E := E) text = determineSeverity (E := E') text'.
Proof. intros H. unfold determineSeverity. now rewrite H. Qed.

Lemma upperChar_ascii (c : ascii) :
  (nat_of_ascii c <? 128)%nat = true ->
  (nat_of_ascii (JsString.upperChar c) <? 128)%nat = true.
Proof.
  destruct c as [[] [] [] [] [] [] [] []]; vm_compute; intros H;
    first [reflexivity | discriminate H].
Qed.

Lemma isAscii_asciiUpperCase (s : string) :
  JsString.isAscii s = true -> JsString.isAscii (JsString.asciiUpperCase s) = true.
Proof.
  induction s as [|c s IH]; [reflexivity|].
  unfold JsString.asciiUpperCase in *.
  cbn [JsString.isAscii JsString.mapChars]. rewrite !andb_true_iff.
  intros [Hc Hs]. split; [now apply upperChar_ascii | now apply IH].
Qed.

(** C2.  On every engine that lowers a text in ASCII letter by letter, the
    classifier is total on strings and decides by the keywords that are
    part of the lowered text: critical exactly when a critical keyword is,
    otherwise warning exactly when a warning keyword is, otherwise info; two
    texts with the same lowered text are in the same class.  For a text in
    ASCII this is matching up to the case of the letters, and the class
    does not change when the text is upper-cased.  The empty string and a
    text without keyword are info, "OOMKilled container" and "crash loop"
    are critical, "Pod Pending" is warning. *)
Theorem determineSeverity_classifies {engine : Engine}
  (Hascii : lowersAscii engine) :
  (forall text,
     (determineSeverity text = critical <->
        anyOccursIn criticalKeywords (toLowerCase text)) /\
     (determineSeverity text = warning <->
        ~ anyOccursIn criticalKeywords (toLowerCase text) /\
        anyOccursIn warningKeywords (toLowerCase text)) /\
     (determineSeverity text = info <->
        ~ anyOccursIn criticalKeywords (toLowerCase text) /\
        ~ anyOccursIn warningKeywords (toLowerCase text))) /\
  (forall text text',
     toLowerCase text = toLowerCase text' ->
     determineSeverity text = determineSeverity text') /\
  (forall text,
     JsString.isAscii text = true ->
     (determineSeverity text = critical <-> mentionsAny criticalKeywords text) /\
     (determineSeverity text = warning <->
        ~ mentionsAny criticalKeywords text /\ mentionsAny warningKeywords text) /\
     (determineSeverity text = info <->
        ~ mentionsAny criticalKeywords text /\ ~ mentionsAny warningKeywords text) /\
     determineSeverity (JsString.asciiUpperCase text) = determineSeverity text) /\
  determineSeverity "" = info /\
  determineSeverity "OOMKilled container" = critical /\
  determineSeverity "crash loop" = critical /\
  determineSeverity "Pod Pending" = warning /\
  determineSeverity "all replicas are ready" = info.
Proof.
  assert (Hsame : forall text, JsString.isAscii text = true ->
            determineSeverity text = determineSeverity (E := asciiEngine) text).
  { intros text Ht. apply determineSeverity_lowered.
    cbn [toLowerCase asciiEngine]. now apply Hascii. }
  split; [|split; [|split]].
  - intros text. rewrite <- !anyOccursIn_existsb, determineSeverity_existsb.
    destruct (existsb _ criticalKeywords), (existsb _ warningKeywords);
      repeat split; try discriminate; intuition congruence.
  - intros text text'. apply determineSeverity_lowered.
  - intros text Ht. rewrite (Hsame text Ht).
    rewrite (Hsame _ (isAscii_asciiUpperCase text Ht)).
    split; [apply determineSeverity_critical|].
    split; [apply determineSeverity_warning|].
    split; [apply determineSeverity_info|].
    apply determineSeverity_lowered. cbn [toLowerCase asciiEngine].
    apply toLowerCase_toUpperCase.
  - repeat split; (rewrite Hsame; [|reflexivity]); vm_compute; reflexivity.
Qed.

Lemma lowerKelvin_ascii (s : string) :
  JsString.isAscii s = true -> lowerKelvin s = s.
Proof.
  induction s as [|a s IH]; [reflexivity|].
  cbn [JsString.isAscii]. rewrite andb_true_iff. intros [Ha Hs].
  assert (Hno : isByte 226 a = false).
  { unfold isByte. apply Nat.ltb_lt in Ha. apply Nat.eqb_neq. lia. }
  cbn [lowerKelvin]. rewrite Hno, (IH Hs). cbn [andb].
  now destruct s as [|b [|c rest]].
Qed.

(** The classes of a text in ASCII on the sample engine, and of "Container
    OOMKilled" written with the Kelvin sign on an engine that lowers that
    sign. *)
Lemma determineSeverity_classifies_witness :
  lowersAscii asciiEngine /\
  determineSeverity "Readiness probe FAILED" = critical /\
  determineSeverity "readiness probe failed" = critical /\
  lowersAscii widerEngine /\
  determineSeverity (E := widerEngine)
    ("Container OOM" ++ kelvinSign ++ "illed")%string = critical.
Proof.
  assert (Hascii : lowersAscii asciiEngine) by (intros s _; reflexivity).
  destruct (determineSeverity_classifies Hascii) as (Hany & Hlow & Hmentions & _).
  assert (Hc : determineSeverity "Readiness probe FAILED" = critical).
  { destruct (Hmentions "Readiness probe FAILED" eq_refl) as (Hcrit & _).
    apply Hcrit. exists "failed". split; [simpl; tauto|].
    exists "Readiness probe ", "FAILED", "". split; reflexivity. }
  split; [exact Hascii|]. split; [exact Hc|].
  split; [rewrite <- Hc; now apply Hlow|].
  assert (Hkelvin : lowersAscii widerEngine).
  { intros s Hs. cbn [toLowerCase widerEngine]. now rewrite lowerKelvin_ascii. }
  split; [exact Hkelvin|].
  destruct (determineSeverity_classifies (engine := widerEngine) Hkelvin)
    as (Hany' & _).
  apply (Hany' ("Container OOM" ++ kelvinSign ++ "illed")%string).
  exists "oomkilled". split; [simpl; tauto|].
  exists "container ", "". vm_compute. reflexivity.
Defined.

(* ------------------------------------------------------------------ *)
(** ** The normalizer *)

Section LoopFacts.

Context {A S : Type}.

Lemma forOf_app (body : S -> A -> result S) (xs ys : list A) (acc : S) :
  forOf body (xs ++ ys) acc = (acc' <- forOf body xs acc ;; forOf body ys acc')%js.
Proof.
  revert acc; induction xs as [|x xs IH]; intros acc; simpl; [reflexivity|].
  destruct (body acc x) as [acc'|e]; simpl; [apply IH | reflexivity].
Qed.

(** A body that leaves the state alone on [x] makes [x] invisible. *)
Lemma forOf_skip (body : S -> A -> result S) (xs ys : list A) (x : A) (acc : S) :
  (forall st, body st x = Ok st) ->
  forOf body (xs ++ x :: ys) acc = forOf body (xs ++ ys) acc.
Proof.
  intros H. rewrite !forOf_app. destruct (forOf body xs acc) as [acc'|e]; simpl.
  - now rewrite H.
  - reflexivity.
Qed.

End LoopFacts.

Lemma split_no_slash (s : string) :
  JsString.includes "/" s = false -> JsString.split "/" s = [s].
Proof.
  induction s as [|c s IH]; [reflexivity|].
  cbn [JsString.includes JsString.startsWith JsString.split].
  rewrite orb_false_iff, andb_true_r. intros [Hc Hs].
  rewrite eqb_sym, Hc, (IH Hs). reflexivity.
Qed.

Lemma split_first_slash (ns nm : string) :
  JsString.includes "/" ns = false ->
  JsString.split "/" (ns ++ "/" ++ nm)%string = ns :: JsString.split "/" nm.
Proof.
  induction ns as [|c ns IH].
  - intros _. cbn [String.append JsString.split]. now rewrite Ascii.eqb_refl.
  - cbn [String.append JsString.includes JsString.startsWith JsString.split] in *.
    rewrite orb_false_iff, andb_true_r. intros [Hc Hs].
    rewrite eqb_sym, Hc. now rewrite (IH Hs).
Qed.

Lemma includes_slash_app (ns nm : string) :
  JsString.includes "/" (ns ++ "/" ++ nm)%string = true.
Proof.
  apply includes_substring. now exists ns, nm.
Qed.

(** [parseName] on a name with exactly one "/". *)
Lemma parseName_one_slash (ns nm : string) :
  JsString.includes "/" ns = false ->
  JsString.includes "/" nm = false ->
  parseName (VStr (ns ++ "/" ++ nm)%string) = Ok (VStr ns, VStr nm).
Proof.
  intros Hns Hnm. unfold parseName. cbn [Js.includesSlash bind].
  rewrite includes_slash_app. cbn [Js.splitSlash bind].
  now rewrite (split_first_slash _ _ Hns), (split_no_slash _ Hnm).
Qed.

Lemma parseName_no_slash (s : string) :
  JsString.includes "/" s = false ->
  parseName (VStr s) = Ok (VUndefined, VStr s).
Proof.
  intros H. unfold parseName. cbn [Js.includesSlash bind]. now rewrite H.
Qed.

(** [parseName] on a name with a "/": the namespace is the part before
    the first one, however many follow. *)
Lemma parseName_first_slash (ns rest : string) :
  JsString.includes "/" ns = false ->
  exists nm, parseName (VStr (ns ++ "/" ++ rest)%string) = Ok (VStr ns, nm).
Proof.
  intros Hns. unfold parseName. cbn [Js.includesSlash bind].
  rewrite includes_slash_app. cbn [Js.splitSlash bind].
  rewrite (split_first_slash _ _ Hns). cbn [map Js.index nth]. eauto.
Qed.

(** [parseName] never throws on a string. *)
Lemma parseName_string (s : string) :
  exists ns nm, parseName (VStr s) = Ok (ns, nm).
Proof.
  unfold parseName. cbn [Js.includesSlash bind].
  destruct (JsString.includes "/" s); cbn [Js.splitSlash bind]; eauto.
Qed.

(** The inner loop over well-formed diagnostics pushes one issue for each,
    all with the namespace and name computed for the finding. *)
Lemma forOf_pushIssue {engine : Engine}
  (finding ns nm : value) (s : string) (errors : list value) :
  Js.getProp finding "name" = Ok (VStr s) ->
  Forall wellFormedDiagnostic errors ->
  forall acc, exists new,
    forOf (pushIssue finding ns nm) errors acc = Ok (acc ++ new) /\
    List.length new = List.length errors /\
    Forall (fun i => namespace i = ns /\ name i = Js.or nm (VStr s)) new.
Proof.
  intros Hname Hwf. induction Hwf as [|d errors [text Hd] _ IH]; intros acc.
  - exists []. simpl. now rewrite app_nil_r.
  - cbn [forOf]. unfold pushIssue at 1.
    assert (Hk : exists k, Js.getProp finding "kind" = Ok k).
    { destruct finding; simpl in Hname |- *; try discriminate; eauto. }
    destruct Hk as [k Hk]. rewrite Hk, Hname, Hd. cbn [bind].
    assert (Hdoc : exists doc, Js.getProp d "KubernetesDoc" = Ok doc).
    { destruct d; simpl in Hd |- *; try discriminate; eauto. }
    destruct Hdoc as [doc ->]. cbn [bind determineSeverityOf].
    match goal with
    | |- context [forOf _ errors (acc ++ [?i])] =>
        destruct (IH (acc ++ [i])) as (new & -> & Hlen & Hall); exists (i :: new)
    end.
    rewrite <- app_assoc. simpl. repeat split; auto.
Qed.

Lemma getProp_named (finding : value) (s k : string) :
  Js.getProp finding "name" = Ok (VStr s) ->
  exists v, Js.getProp finding k = Ok v.
Proof.
  destruct finding; simpl; intros H; try discriminate; eauto.
Qed.

(** A finding with a string name and no array of diagnostics leaves the
    issues as they are: the loop goes on. *)
Lemma convertResult_noDiagnostics {engine : Engine}
  (finding : value) (acc : list Issue) :
  (exists s, Js.getProp finding "name" = Ok (VStr s)) ->
  noDiagnostics finding ->
  convertResult acc finding = Ok acc.
Proof.
  intros [s Hname] Hno. unfold convertResult. rewrite Hname. cbn [bind].
  destruct (parseName_string s) as (ns & nm & ->). cbn [bind].
  destruct (getProp_named _ _ "error" Hname) as [err Herr]. rewrite Herr. cbn [bind].
  destruct err; try reflexivity.
  - now destruct (negb _ || negb _).
  - now destruct (negb _ || negb _).
  - now destruct (negb _ || negb _).
  - exfalso. now apply (Hno xs).
Qed.

(** A well-formed finding pushes one issue for each of its diagnostics. *)
Lemma convertResult_wellFormed {engine : Engine}
  (finding : value) (s : string) (errors : list value)
  (acc : list Issue) :
  Js.getProp finding "name" = Ok (VStr s) ->
  Js.getProp finding "error" = Ok (VArr errors) ->
  Forall wellFormedDiagnostic errors ->
  exists ns nm new,
    parseName (VStr s) = Ok (ns, nm) /\
    convertResult acc finding = Ok (acc ++ new) /\
    List.length new = List.length errors /\
    Forall (fun i => namespace i = ns /\ name i = Js.or nm (VStr s)) new.
Proof.
  intros Hname Herr Hwf. unfold convertResult. rewrite Hname. cbn [bind].
  destruct (parseName_string s) as (ns & nm & Hp). rewrite Hp. cbn [bind].
  rewrite Herr. cbn [bind Js.truthy Js.isArray negb orb fst snd].
  destruct (forOf_pushIssue finding ns nm s errors Hname Hwf acc)
    as (new & Hrun & Hlen & Hall).
  exists ns, nm, new. auto.
Qed.

Lemma convertResult_total {engine : Engine}
  (finding : value) (acc : list Issue) :
  wellFormedFinding finding ->
  exists new, convertResult acc finding = Ok (acc ++ new).
Proof.
  intros [[s Hname] Hwf].
  destruct (getProp_named _ _ "error" Hname) as [err Herr].
  destruct err as [| | | | |errors|];
    try (exists []; rewrite app_nil_r; apply convertResult_noDiagnostics;
         [now exists s | intros errors H; rewrite Herr in H; discriminate]).
  destruct (convertResult_wellFormed finding s errors acc Hname Herr (Hwf _ Herr))
    as (ns & nm & new & _ & H & _).
  now exists new.
Qed.

Lemma forOf_convertResult_total {engine : Engine} (findings : list value) :
  Forall wellFormedFinding findings ->
  forall acc, exists new, forOf convertResult findings acc = Ok (acc ++ new).
Proof.
  induction 1 as [|f findings Hf _ IH]; intros acc.
  - exists []. simpl. now rewrite app_nil_r.
  - cbn [forOf]. destruct (convertResult_total f acc Hf) as [new ->]. cbn [bind].
    destruct (IH (acc ++ new)) as [new' ->]. exists (new ++ new').
    now rewrite app_assoc.
Qed.

Lemma convert_results_array {engine : Engine}
  (output : value) (findings : list value) :
  Js.getProp output "results" = Ok (VArr findings) ->
  convertK8sGPTToIssues output = forOf convertResult findings [].
Proof.
  intros H. unfold convertK8sGPTToIssues. now rewrite H.
Qed.

Lemma getProp_outputOf (findings : list value) :
  Js.getProp (outputOf findings) "results" = Ok (VArr findings).
Proof. reflexivity. Qed.

(** C5, as the code has it.  For a finding whose composite name is a string
    and whose diagnostics are well formed, one issue is produced for each
    diagnostic; without "/" the namespace is absent and the name is the
    whole string; with a "/" the namespace is the part before the first
    one, however many follow; with exactly one "/" the name is the part
    after it when that part is not empty, and the whole composite name when
    it is empty. *)
Theorem convert_composite_name {engine : Engine}
  (finding : value) (s : string) (errors : list value) :
  Js.getProp finding "name" = Ok (VStr s) ->
  Js.getProp finding "error" = Ok (VArr errors) ->
  Forall wellFormedDiagnostic errors ->
  exists new,
    convertK8sGPTToIssues (outputOf [finding]) = Ok new /\
    List.length new = List.length errors /\
    (JsString.includes "/" s = false ->
     Forall (fun i => namespace i = VUndefined /\ name i = VStr s) new) /\
    (forall ns rest,
       s = (ns ++ "/" ++ rest)%string ->
       JsString.includes "/" ns = false ->
       Forall (fun i => namespace i = VStr ns) new) /\
    (forall ns nm,
       s = (ns ++ "/" ++ nm)%string ->
       JsString.includes "/" ns = false ->
       JsString.includes "/" nm = false ->
       Forall (fun i => namespace i = VStr ns /\
                        name i = VStr (if JsString.truthy nm then nm else s)) new).
Proof.
  intros Hname Herr Hwf.
  destruct (convertResult_wellFormed finding s errors [] Hname Herr Hwf)
    as (ns0 & nm0 & new & Hp & Hrun & Hlen & Hall).
  exists new. rewrite (convert_results_array _ _ (getProp_outputOf _)).
  cbn [forOf]. rewrite Hrun. cbn [bind app]. repeat split; auto.
  - intros Hno. rewrite (parseName_no_slash _ Hno) in Hp. injection Hp as <- <-.
    eapply Forall_impl; [|exact Hall]. intros i [-> ->]. split; [reflexivity|].
    unfold Js.or. now destruct (Js.truthy (VStr s)).
  - intros ns rest -> Hns.
    destruct (parseName_first_slash ns rest Hns) as [nm Hp'].
    rewrite Hp' in Hp. injection Hp as <- <-.
    eapply Forall_impl; [|exact Hall]. now intros i [-> _].
  - intros ns nm -> Hns Hnm. rewrite (parseName_one_slash _ _ Hns Hnm) in Hp.
    injection Hp as <- <-.
    eapply Forall_impl; [|exact Hall]. intros i [-> ->]. split; [reflexivity|].
    unfold Js.or. cbn [Js.truthy]. now destruct (JsString.truthy nm).
Qed.

(** The two names of the specification: "kube-system/coredns-abc" and
    "my-node". *)
Lemma convert_composite_name_witness :
  exists new,
    convertK8sGPTToIssues
      (outputOf [findingOf "Pod" "kube-system/coredns-abc"
                   [diagnosticOf "Back-off restarting failed container" ""]]) = Ok new /\
    List.length new = 1 /\
    Forall (fun i => namespace i = VStr "kube-system" /\
                     name i = VStr "coredns-abc") new.
Proof.
  assert (Hwf : Forall wellFormedDiagnostic
                  [diagnosticOf "Back-off restarting failed container" ""]).
  { repeat constructor. now exists "Back-off restarting failed container". }
  destruct (convert_composite_name
              (findingOf "Pod" "kube-system/coredns-abc"
                 [diagnosticOf "Back-off restarting failed container" ""])
              "kube-system/coredns-abc"
              [diagnosticOf "Back-off restarting failed container" ""]
              eq_refl eq_refl Hwf)
    as (new & Hrun & Hlen & _ & _ & Hslash).
  exists new. split; [exact Hrun|]. split; [exact Hlen|].
  exact (Hslash "kube-system" "coredns-abc" eq_refl eq_refl eq_refl).
Defined.

Example convert_node_name :
  convertK8sGPTToIssues
    (outputOf [findingOf "Node" "my-node" [diagnosticOf "node is not ready" ""]])
  = Ok [ {| kind := VStr "Node"; name := VStr "my-node"; namespace := VUndefined;
            problem := VStr "node is not ready";
            solution := VStr defaultSolution;
            severity := info |} ].
Proof. vm_compute. reflexivity. Qed.

(** C5 fails as stated.  For "kube-system/" the part after the first "/" is
    empty and the issue is named by the whole composite name; for
    "a/b/c" the issue is named "b", not "b/c". *)
Lemma convert_composite_name_counterexample :
  convertK8sGPTToIssues
    (outputOf [findingOf "Pod" "kube-system/" [diagnosticOf "pod pending" ""]])
  = Ok [ {| kind := VStr "Pod"; name := VStr "kube-system/";
            namespace := VStr "kube-system";
            problem := VStr "pod pending";
            solution := VStr defaultSolution;
            severity := warning |} ] /\
  convertK8sGPTToIssues
    (outputOf [findingOf "Pod" "a/b/c" [diagnosticOf "pod pending" ""]])
  = Ok [ {| kind := VStr "Pod"; name := VStr "b";
            namespace := VStr "a";
            problem := VStr "pod pending";
            solution := VStr defaultSolution;
            severity := warning |} ].
Proof. split; vm_compute; reflexivity. Qed.

(** Whatever the normalizer throws is a [TypeError]. *)
Lemma getProp_TypeError (o : value) (k : string) (e : exn) :
  Js.getProp o k = Throw e -> e = TypeError.
Proof. destruct o; simpl; congruence. Qed.

Lemma pushIssue_TypeError {engine : Engine}
  (finding ns nm : value) (acc : list Issue)
  (d : value) (e : exn) :
  pushIssue finding ns nm acc d = Throw e -> e = TypeError.
Proof.
  unfold pushIssue.
  destruct (Js.getProp finding "kind") eqn:H1; cbn [bind];
    [|intros E; injection E as <-; eapply getProp_TypeError; eauto].
  destruct (Js.getProp finding "name") eqn:H2; cbn [bind];
    [|intros E; injection E as <-; eapply getProp_TypeError; eauto].
  destruct (Js.getProp d "Text") as [text|] eqn:H3; cbn [bind];
    [|intros E; injection E as <-; eapply getProp_TypeError; eauto].
  destruct (Js.getProp d "KubernetesDoc") eqn:H4; cbn [bind];
    [|intros E; injection E as <-; eapply getProp_TypeError; eauto].
  destruct text; cbn [determineSeverityOf bind]; congruence.
Qed.

Lemma forOf_throws_only {A S : Type} (body : S -> A -> result S) (x : exn) :
  (forall acc a e, body acc a = Throw e -> e = x) ->
  forall xs acc e, forOf body xs acc = Throw e -> e = x.
Proof.
  intros Hbody. induction xs as [|a xs IH]; intros acc e; cbn [forOf].
  - discriminate.
  - destruct (body acc a) as [acc'|e'] eqn:Ha; cbn [bind].
    + apply IH.
    + intros E; injection E as <-. eapply Hbody; eauto.
Qed.

Lemma parseName_TypeError (v : value) (e : exn) :
  parseName v = Throw e -> e = TypeError.
Proof.
  unfold parseName.
  destruct v; cbn [Js.includesSlash bind]; try congruence.
  - destruct (JsString.includes "/" s); cbn [Js.splitSlash bind]; congruence.
  - destruct (existsb _ xs); cbn [Js.splitSlash bind]; congruence.
Qed.

Lemma convertResult_TypeError {engine : Engine}
  (acc : list Issue) (finding : value) (e : exn) :
  convertResult acc finding = Throw e -> e = TypeError.
Proof.
  unfold convertResult.
  destruct (Js.getProp finding "name") as [nm|] eqn:H1; cbn [bind];
    [|intros E; injection E as <-; eapply getProp_TypeError; eauto].
  destruct (parseName nm) as [p|] eqn:H2; cbn [bind];
    [|intros E; injection E as <-; eapply parseName_TypeError; eauto].
  destruct (Js.getProp finding "error") as [err|] eqn:H3; cbn [bind];
    [|intros E; injection E as <-; eapply getProp_TypeError; eauto].
  destruct (negb (Js.truthy err) || negb (Js.isArray err)); [discriminate|].
  destruct err; try discriminate.
  apply forOf_throws_only. intros acc' d e'. apply pushIssue_TypeError.
Qed.

Lemma convert_TypeError {engine : Engine} (output : value) (e : exn) :
  convertK8sGPTToIssues output = Throw e -> e = TypeError.
Proof.
  unfold convertK8sGPTToIssues.
  destruct (Js.getProp output "results") as [r|] eqn:H1; cbn [bind];
    [|intros E; injection E as <-; eapply getProp_TypeError; eauto].
  destruct (negb (Js.truthy r) || negb (Js.isArray r)); [discriminate|].
  destruct r; try discriminate.
  apply forOf_throws_only. intros acc f e'. apply convertResult_TypeError.
Qed.

(** A loop throws when its body throws on one of the elements, whatever the
    state it is reached in. *)
Lemma forOf_Exists_throws {A S : Type} (body : S -> A -> result S) (xs : list A) :
  Exists (fun a => forall acc, exists e, body acc a = Throw e) xs ->
  forall acc, exists e, forOf body xs acc = Throw e.
Proof.
  induction 1 as [a xs Ha|a xs _ IH]; intros acc; cbn [forOf].
  - destruct (Ha acc) as [e ->]. now exists e.
  - destruct (body acc a) as [acc'|e]; cbn [bind]; [apply IH | now exists e].
Qed.

Lemma pushIssue_malformed {engine : Engine}
  (finding ns nm : value) (acc : list Issue) (d : value) :
  malformedDiagnostic d -> exists e, pushIssue finding ns nm acc d = Throw e.
Proof.
  unfold malformedDiagnostic, pushIssue. intros Hd.
  destruct (Js.getProp finding "kind"); cbn [bind]; [|eauto].
  destruct (Js.getProp finding "name"); cbn [bind]; [|eauto].
  destruct (Js.getProp d "Text") as [text|]; cbn [bind]; [|eauto].
  destruct (Js.getProp d "KubernetesDoc"); cbn [bind]; [|eauto].
  destruct text; cbn [determineSeverityOf bind]; eauto. contradiction.
Qed.

Lemma convertResult_broken {engine : Engine}
  (acc : list Issue) (finding : value) :
  brokenFinding finding -> exists e, convertResult acc finding = Throw e.
Proof.
  unfold convertResult. intros [Hun|(s & errors & Hname & Herr & Hbad)].
  - unfold unnamed in Hun.
    destruct (Js.getProp finding "name") as [nm|]; cbn [bind]; [|eauto].
    destruct nm; try contradiction; cbn [parseName Js.includesSlash bind]; eauto.
  - rewrite Hname. cbn [bind].
    destruct (parseName_string s) as (ns & nm & ->). cbn [bind].
    rewrite Herr. cbn [bind Js.truthy Js.isArray negb orb fst snd].
    apply forOf_Exists_throws.
    eapply Exists_impl; [|exact Hbad].
    intros d Hd acc'. now apply pushIssue_malformed.
Qed.

(** C7, as the code has it.  An output other than [null] whose [results] is
    absent or no array gives no issue; a finding with a string name whose
    [error] is absent or no array contributes nothing and the other findings
    are treated as if it were not there; an output whose findings are all
    well formed is normalized without a throw.  The other malformed shapes
    are not tolerated: [null] as output, a finding that is [null] or has no
    string for a name, and a diagnostic that is [null] or has no string for
    a text make the normalizer throw a [TypeError], and the whole batch is
    lost. *)
Theorem convert_tolerates {engine : Engine} :
  (forall output,
     output <> VNull -> output <> VUndefined ->
     (forall findings, Js.getProp output "results" <> Ok (VArr findings)) ->
     convertK8sGPTToIssues output = Ok []) /\
  (forall output output' pre post finding,
     Js.getProp output "results" = Ok (VArr (pre ++ finding :: post)) ->
     Js.getProp output' "results" = Ok (VArr (pre ++ post)) ->
     (exists s, Js.getProp finding "name" = Ok (VStr s)) ->
     noDiagnostics finding ->
     convertK8sGPTToIssues output = convertK8sGPTToIssues output') /\
  (forall output findings,
     Js.getProp output "results" = Ok (VArr findings) ->
     Forall wellFormedFinding findings ->
     exists l, convertK8sGPTToIssues output = Ok l) /\
  convertK8sGPTToIssues VNull = Throw TypeError /\
  (forall output findings,
     Js.getProp output "results" = Ok (VArr findings) ->
     Exists brokenFinding findings ->
     convertK8sGPTToIssues output = Throw TypeError).
Proof.
  split; [|split; [|split; [|split]]].
  - intros output Hnull Hundef Hno. unfold convertK8sGPTToIssues.
    destruct (Js.getProp output "results") as [r|e] eqn:Hr.
    + cbn [bind]. destruct r; try reflexivity;
        try (now destruct (negb _ || negb _)).
      exfalso. now apply (Hno xs).
    + destruct output; simpl in Hr; congruence.
  - intros output output' pre post finding Hr Hr' Hname Hno.
    rewrite (convert_results_array _ _ Hr), (convert_results_array _ _ Hr').
    apply forOf_skip. intros st. now apply convertResult_noDiagnostics.
  - intros output findings Hr Hwf. rewrite (convert_results_array _ _ Hr).
    destruct (forOf_convertResult_total findings Hwf []) as [new ->]. eauto.
  - reflexivity.
  - intros output findings Hr Hbad.
    assert (Hthrow : exists e, convertK8sGPTToIssues output = Throw e).
    { rewrite (convert_results_array _ _ Hr). apply forOf_Exists_throws.
      eapply Exists_impl; [|exact Hbad].
      intros f Hf acc. now apply convertResult_broken. }
    destruct Hthrow as [e He]. rewrite He. f_equal.
    now apply (convert_TypeError output).
Qed.

Lemma convert_tolerates_witness :
  convertK8sGPTToIssues (VObj [("status", VStr "OK"); ("results", VNull)]) = Ok [] /\
  convertK8sGPTToIssues
    (outputOf [findingOf "Pod" "default/web" [diagnosticOf "crash loop" ""];
               VObj [("kind", VStr "Service"); ("name", VStr "default/api")];
               findingOf "Node" "worker-1" [diagnosticOf "disk pressure" ""]])
  = convertK8sGPTToIssues
      (outputOf [findingOf "Pod" "default/web" [diagnosticOf "crash loop" ""];
                 findingOf "Node" "worker-1" [diagnosticOf "disk pressure" ""]]) /\
  exists l,
    convertK8sGPTToIssues
      (outputOf [findingOf "Pod" "default/web" [diagnosticOf "crash loop" ""]]) = Ok l.
Proof.
  destruct convert_tolerates as (Hmissing & Hskip & Htotal & _).
  split; [|split].
  - apply Hmissing; [discriminate | discriminate | intros findings H; discriminate H].
  - apply (Hskip _ _
             [findingOf "Pod" "default/web" [diagnosticOf "crash loop" ""]]
             [findingOf "Node" "worker-1" [diagnosticOf "disk pressure" ""]]
             (VObj [("kind", VStr "Service"); ("name", VStr "default/api")])).
    + reflexivity.
    + reflexivity.
    + now exists "default/api".
    + intros errors H; discriminate H.
  - apply (Htotal _ [findingOf "Pod" "default/web" [diagnosticOf "crash loop" ""]]).
    + reflexivity.
    + repeat constructor.
      * now exists "default/web".
      * intros errors H. injection H as <-. repeat constructor. now exists "crash loop".
Defined.

(** C7 fails as stated: a finding without [name], or a diagnostic without
    [Text], makes the normalizer throw, and the issues of the well-formed
    findings before it are lost with it. *)
Lemma convert_throws_counterexample :
  convertK8sGPTToIssues
    (outputOf [findingOf "Pod" "default/web" [diagnosticOf "crash loop" ""];
               VObj [("kind", VStr "Node"); ("error", VArr [])]])
  = Throw TypeError /\
  convertK8sGPTToIssues
    (outputOf [findingOf "Pod" "default/web" [VObj [("KubernetesDoc", VStr "")]]])
  = Throw TypeError /\
  convertK8sGPTToIssues VNull = Throw TypeError.
Proof. repeat split; vm_compute; reflexivity. Qed.

(* ------------------------------------------------------------------ *)
(** ** The external analysis invoker *)

Section Invoker.

Context {engine : Engine}.

Variable tool : Tool.
Variable JSON_parse : string -> option value.

(** One run of the adapter makes exactly one call, the one its options
    determine, and resolves or throws by the outcome of that call. *)
Lemma runK8sGPTAnalysis_eq (options : RunOptions) (tr : list Invocation) :
  runK8sGPTAnalysis tool JSON_parse options tr =
  (match callOutcome tool JSON_parse (List.length tr) (invocationOf options) with
   | Ok l => Ok {| run_issues := l; command := commandOf options |}
   | Throw e => Throw (rethrown e)
   end,
   tr ++ [invocationOf options]).
Proof.
  unfold runK8sGPTAnalysis, tryCatch, bindRun, execFileAsync, liftResult, ret,
    callOutcome, invocationOf, commandOf, rethrown, raise.
  destruct (tool (List.length tr) _) as [[stdout stderr]|e]; cbn [bind fst].
  - destruct (parseJSON JSON_parse stdout) as [v|e]; cbn [bind].
    + destruct (convertK8sGPTToIssues v) as [l|e]; [reflexivity|].
      destruct (codeOf e) as [c|]; [destruct (String.eqb c "ENOENT")|]; reflexivity.
    + destruct (codeOf e) as [c|]; [destruct (String.eqb c "ENOENT")|]; reflexivity.
  - destruct (codeOf e) as [c|]; [destruct (String.eqb c "ENOENT")|]; reflexivity.
Qed.

End Invoker.

(* ------------------------------------------------------------------ *)
(** ** The aggregation orchestrator *)

Section Orchestrator.

Context {engine : Engine}.

Variable tool : Tool.
Variable JSON_parse : string -> option value.

Lemma pushAll_pushable (allIssues l : list Issue) :
  pushable l -> pushAll allIssues l = Ok (allIssues ++ l).
Proof. unfold pushable, pushAll. now intros ->. Qed.

Lemma pushAll_not_pushable (allIssues l : list Issue) :
  ~ pushable l -> pushAll allIssues l = Throw RangeError.
Proof.
  unfold pushable, pushAll. intros Hno.
  destruct (List.length l <=? argumentLimit)%nat; [now contradiction Hno | reflexivity].
Qed.

Lemma pushAll_Ok (allIssues l all : list Issue) :
  pushAll allIssues l = Ok all -> pushable l /\ all = allIssues ++ l.
Proof.
  unfold pushable, pushAll.
  destruct (List.length l <=? argumentLimit)%nat; [|discriminate].
  intros Heq. injection Heq as <-. now split.
Qed.

Lemma analyzeNamespace_eq (F : list string) (st : Collected) (ns : string)
  (tr : list Invocation) :
  analyzeNamespace tool JSON_parse F st ns tr =
  (match callOutcome tool JSON_parse (List.length tr)
           (invocationOf (namespaceScope F ns)) with
   | Ok l =>
       match pushAll (fst st) l with
       | Ok allIssues => Ok (allIssues, snd st ++ [commandOf (namespaceScope F ns)])
       | Throw e => Throw e
       end
   | Throw e => Throw (rethrown e)
   end,
   tr ++ [invocationOf (namespaceScope F ns)]).
Proof.
  unfold analyzeNamespace, bindRun.
  change {| run_filters := Some F; run_namespace := Some ns;
            run_allNamespaces := Some false |} with (namespaceScope F ns).
  rewrite runK8sGPTAnalysis_eq.
  destruct (callOutcome _ _ _ _) as [l|e]; [|reflexivity].
  cbn [run_issues command]. unfold liftResult, ret.
  now destruct (pushAll (fst st) l).
Qed.

Lemma analyzeAll_eq (F : list string) (st : Collected) (tr : list Invocation) :
  analyzeAll tool JSON_parse F st tr =
  (match callOutcome tool JSON_parse (List.length tr)
           (invocationOf (clusterScope F)) with
   | Ok l => Ok (l, snd st ++ [commandOf (clusterScope F)])
   | Throw e => Throw (rethrown e)
   end,
   tr ++ [invocationOf (clusterScope F)]).
Proof.
  unfold analyzeAll, bindRun.
  change {| run_filters := Some F; run_namespace := None;
            run_allNamespaces := Some true |} with (clusterScope F).
  rewrite runK8sGPTAnalysis_eq.
  now destruct (callOutcome _ _ _ _).
Qed.

Lemma length_snoc {A : Type} (l : list A) (x : A) :
  List.length (l ++ [x]) = S (List.length l).
Proof. rewrite length_app. simpl. lia. Qed.

(** A loop that runs to its end has called the tool once for each listed
    namespace, in order, and has appended the issues and the command of
    each call; every call has succeeded with a result [push] could take. *)
Lemma namespaces_loop_ok (F : list string) (nss : list string) :
  forall (st st' : Collected) (tr tr' : list Invocation),
    forOfRun (analyzeNamespace tool JSON_parse F) nss st tr = (Ok st', tr') ->
    tr' = tr ++ map (fun ns => invocationOf (namespaceScope F ns)) nss /\
    snd st' = snd st ++ map (fun ns => commandOf (namespaceScope F ns)) nss /\
    exists outs,
      callsFrom tool JSON_parse F (List.length tr) nss = map Ok outs /\
      fst st' = fst st ++ List.concat outs /\
      Forall pushable outs.
Proof.
  induction nss as [|ns nss IH]; intros st st' tr tr' H.
  - injection H as <- <-. rewrite !app_nil_r. repeat split.
    exists []. rewrite app_nil_r. auto.
  - cbn [forOfRun] in H. unfold bindRun in H. rewrite analyzeNamespace_eq in H.
    cbn [callsFrom].
    destruct (callOutcome _ _ _ _) as [l|e]; [|discriminate].
    destruct (pushAll (fst st) l) as [allIssues|e] eqn:Hpush; [|discriminate].
    apply pushAll_Ok in Hpush as [Hl ->].
    apply IH in H as (-> & Hcmd & outs & Hcalls & Hiss & Hall).
    cbn [fst snd] in *. rewrite length_snoc in Hcalls.
    rewrite Hcmd, Hiss, <- !app_assoc. repeat split.
    exists (l :: outs). cbn [map List.concat]. rewrite Hcalls, app_assoc. auto.
Qed.

(** When every call succeeds with a result [push] can take, the loop runs
    to its end. *)
Lemma namespaces_loop_total (F : list string) (nss : list string) :
  forall (outs : list (list Issue)) (st : Collected) (tr : list Invocation),
    callsFrom tool JSON_parse F (List.length tr) nss = map Ok outs ->
    Forall pushable outs ->
    forOfRun (analyzeNamespace tool JSON_parse F) nss st tr =
    (Ok (fst st ++ List.concat outs,
         snd st ++ map (fun ns => commandOf (namespaceScope F ns)) nss),
     tr ++ map (fun ns => invocationOf (namespaceScope F ns)) nss).
Proof.
  induction nss as [|ns nss IH]; intros outs st tr H Hall.
  - destruct outs; [|discriminate]. cbn [forOfRun ret map List.concat].
    rewrite !app_nil_r. now destruct st.
  - cbn [forOfRun]. unfold bindRun. rewrite analyzeNamespace_eq.
    cbn [callsFrom] in H. destruct outs as [|l outs]; [discriminate|].
    cbn [map] in H. injection H as Hcall Hrest. rewrite Hcall.
    inversion Hall as [|? ? Hl Houts]; subst.
    rewrite (pushAll_pushable _ _ Hl).
    rewrite (IH outs); [|now rewrite length_snoc | exact Houts].
    cbn [fst snd map List.concat]. now rewrite <- !app_assoc.
Qed.

(** Whatever happens, the calls made are the first ones of the list, in
    order: a failing call ends the run, and so does a result [push] cannot
    take. *)
Lemma namespaces_loop_prefix (F : list string) (nss : list string) :
  forall (st : Collected) (tr : list Invocation),
    exists k,
      k <= List.length nss /\ (nss <> [] -> 1 <= k) /\
      snd (forOfRun (analyzeNamespace tool JSON_parse F) nss st tr) =
      tr ++ firstn k (map (fun ns => invocationOf (namespaceScope F ns)) nss).
Proof.
  induction nss as [|ns nss IH]; intros st tr.
  - exists 0. simpl. rewrite app_nil_r. split; [lia|]. split; [congruence | reflexivity].
  - cbn [forOfRun]. unfold bindRun. rewrite analyzeNamespace_eq.
    destruct (callOutcome _ _ _ _) as [l|e].
    + destruct (pushAll (fst st) l) as [allIssues|e].
      * destruct (IH (allIssues, snd st ++ [commandOf (namespaceScope F ns)])
                    (tr ++ [invocationOf (namespaceScope F ns)])) as (k & Hk & _ & ->).
        exists (S k). cbn [map firstn List.length]. rewrite <- app_assoc.
        split; [lia|]. split; [lia | reflexivity].
      * exists 1. cbn [List.length]. split; [lia|]. split; [lia | reflexivity].
    + exists 1. cbn [List.length]. split; [lia|]. split; [lia | reflexivity].
Qed.

End Orchestrator.

Lemma activeFiltersOf_args (options : AnalyzeOptions) :
  args (invocationOf (clusterScope (activeFiltersOf options))) =
  ["analyze"; "--output=json";
   ("--filter=" ++ JsString.join "," (activeFiltersOf options))%string].
Proof.
  unfold invocationOf, clusterScope, buildArgs, activeFiltersOf; cbn [args run_filters run_namespace].
  destruct (filters options) as [[|f fs]|]; reflexivity.
Qed.

(** C3, as the code has it.  When the all-namespaces flag is set, whatever
    the namespace list, [analyze] makes exactly one call of the tool, the
    one for the whole cluster (no namespace argument), and a result lists
    that single command: the flag takes precedence over the list. *)
Theorem analyze_allNamespaces_precedence {engine : Engine} (tool : Tool)
  (JSON_parse : string -> option value) (kc : KubeConfig) (isoNow : string)
  (options : AnalyzeOptions) (tr : list Invocation) :
  allNamespaces options = true ->
  snd (analyze tool JSON_parse kc isoNow options tr) =
    tr ++ [invocationOf (clusterScope (activeFiltersOf options))] /\
  args (invocationOf (clusterScope (activeFiltersOf options))) =
    ["analyze"; "--output=json";
     ("--filter=" ++ JsString.join "," (activeFiltersOf options))%string] /\
  (forall r,
     fst (analyze tool JSON_parse kc isoNow options tr) = Ok r ->
     commands r = [commandOf (clusterScope (activeFiltersOf options))] /\
     callOutcome tool JSON_parse (List.length tr)
       (invocationOf (clusterScope (activeFiltersOf options))) = Ok (issues r)).
Proof.
  intros Hall. unfold analyze. rewrite Hall. unfold bindRun.
  rewrite analyzeAll_eq, activeFiltersOf_args.
  destruct (callOutcome _ _ _ _) as [l|e]; cbn [fst snd ret].
  - repeat split; auto; injection H as <-; reflexivity.
  - repeat split; auto; discriminate.
Qed.

Lemma analyze_allNamespaces_precedence_witness :
  snd (analyze toolHealthy parseSample kcDev "2024-01-01T00:00:00.000Z" bothScopes []) =
    [ {| file := "k8sgpt"; args := ["analyze"; "--output=json"; "--filter=Pod"] |} ].
Proof.
  exact (proj1 (analyze_allNamespaces_precedence toolHealthy parseSample kcDev
                  "2024-01-01T00:00:00.000Z" bothScopes [] eq_refl)).
Defined.

(** C3 fails as stated: with the flag set and the list ["a"; "b"], the tool
    is called once, for the whole cluster, and not once for each of "a" and
    "b". *)
Lemma analyze_both_scopes_counterexample :
  allNamespaces bothScopes = true /\
  namespaces bothScopes = Some ["a"; "b"] /\
  snd (analyze toolHealthy parseSample kcDev "2024-01-01T00:00:00.000Z" bothScopes []) =
    [ {| file := "k8sgpt"; args := ["analyze"; "--output=json"; "--filter=Pod"] |} ] /\
  option_map commands
    (match fst (analyze toolHealthy parseSample kcDev "2024-01-01T00:00:00.000Z"
                  bothScopes []) with
     | Ok r => Some r
     | Throw _ => None
     end) = Some ["k8sgpt analyze --output=json --filter=Pod"].
Proof. repeat split; vm_compute; reflexivity. Qed.

(** C4, as the code has it.  With the flag unset and a non-empty namespace
    list, when every call succeeds and returns no more issues than one
    [push] can take, [analyze] calls the tool exactly once for each listed
    namespace, in list order, and returns a result whose issues are the
    issues of these calls concatenated in that order and whose commands are
    the audit strings of these calls in that order.  It returns a result in
    no other case; and in any case the calls made are the first ones of the
    list, in order, and at least one. *)
Theorem analyze_namespace_list {engine : Engine} (tool : Tool)
  (JSON_parse : string -> option value) (kc : KubeConfig) (isoNow : string)
  (options : AnalyzeOptions) (n : string) (ns : list string)
  (tr : list Invocation) :
  allNamespaces options = false ->
  namespaces options = Some (n :: ns) ->
  (forall outs,
     callsFrom tool JSON_parse (activeFiltersOf options) (List.length tr) (n :: ns)
       = map Ok outs ->
     Forall pushable outs ->
     analyze tool JSON_parse kc isoNow options tr =
       (Ok {| timestamp := isoNow;
              cluster := clusterDisplayName kc;
              issues := List.concat outs;
              summary := summarizeIssues (List.concat outs);
              commands :=
                map (fun x => commandOf (namespaceScope (activeFiltersOf options) x))
                    (n :: ns) |},
        tr ++ map (fun x => invocationOf (namespaceScope (activeFiltersOf options) x))
                  (n :: ns))) /\
  (forall r,
     fst (analyze tool JSON_parse kc isoNow options tr) = Ok r ->
     snd (analyze tool JSON_parse kc isoNow options tr) =
       tr ++ map (fun x => invocationOf (namespaceScope (activeFiltersOf options) x))
                 (n :: ns) /\
     List.length (snd (analyze tool JSON_parse kc isoNow options tr)) =
       List.length tr + List.length (n :: ns) /\
     commands r =
       map (fun x => commandOf (namespaceScope (activeFiltersOf options) x)) (n :: ns) /\
     List.length (commands r) = List.length (n :: ns) /\
     exists outs,
       callsFrom tool JSON_parse (activeFiltersOf options) (List.length tr) (n :: ns)
         = map Ok outs /\
       Forall pushable outs /\
       issues r = List.concat outs) /\
  (exists k,
     1 <= k <= List.length (n :: ns) /\
     snd (analyze tool JSON_parse kc isoNow options tr) =
       tr ++ firstn k
               (map (fun x => invocationOf (namespaceScope (activeFiltersOf options) x))
                    (n :: ns))).
Proof.
  intros Hflag Hlist. unfold analyze. rewrite Hflag, Hlist. unfold bindRun.
  set (F := activeFiltersOf options). split; [|split].
  - intros outs Hcalls Hall.
    rewrite (namespaces_loop_total tool JSON_parse F (n :: ns) outs ([], []) tr
               Hcalls Hall).
    reflexivity.
  - intros r Hr.
    destruct (forOfRun _ (n :: ns) _ tr) as [[st'|e] tr'] eqn:Hloop; [|discriminate].
    apply namespaces_loop_ok in Hloop as (-> & Hcmd & outs & Hcalls & Hiss & Hall).
    cbn [fst snd ret app] in *. injection Hr as <-. cbn [commands issues].
    rewrite Hcmd. rewrite length_app, !length_map. repeat split.
    exists outs. auto.
  - destruct (namespaces_loop_prefix tool JSON_parse F (n :: ns) ([], []) tr)
      as (k & Hle & Hge & Hk).
    exists k. split; [split; [apply Hge; discriminate | exact Hle]|].
    rewrite <- Hk.
    now destruct (forOfRun _ (n :: ns) _ tr) as [[st'|e] tr'].
Qed.

Lemma analyze_namespace_list_witness :
  analyze toolHealthy parseSample kcDev "2024-01-01T00:00:00.000Z" twoNamespaces [] =
  (Ok {| timestamp := "2024-01-01T00:00:00.000Z";
         cluster := "dev-cluster";
         issues := issuesOfA ++ issuesOfB;
         summary := {| total := 2; criticalCount := 1; warningCount := 1;
                       infoCount := 0 |};
         commands :=
           [ "k8sgpt analyze --output=json --filter=Pod --namespace=a";
             "k8sgpt analyze --output=json --filter=Pod --namespace=b" ] |},
   [ {| file := "k8sgpt";
        args := ["analyze"; "--output=json"; "--filter=Pod"; "--namespace=a"] |};
     {| file := "k8sgpt";
        args := ["analyze"; "--output=json"; "--filter=Pod"; "--namespace=b"] |} ]).
Proof.
  assert (Hall : Forall pushable [issuesOfA; issuesOfB]).
  { repeat constructor. }
  destruct (analyze_namespace_list toolHealthy parseSample kcDev
              "2024-01-01T00:00:00.000Z" twoNamespaces "a" ["b"] []
              eq_refl eq_refl) as (Hok & _).
  exact (Hok [issuesOfA; issuesOfB] eq_refl Hall).
Defined.

(** C4 fails as stated: with the list ["a"; "b"] and a tool that fails for
    "a", one call is made, not two, and [analyze] throws the error of that
    call: it returns no issues and no commands. *)
Lemma analyze_namespace_list_counterexample :
  allNamespaces twoNamespaces = false /\
  namespaces twoNamespaces = Some ["a"; "b"] /\
  analyze toolFailingOnA parseSample kcDev "2024-01-01T00:00:00.000Z" twoNamespaces [] =
  (Throw exitFailure,
   [ {| file := "k8sgpt";
        args := ["analyze"; "--output=json"; "--filter=Pod"; "--namespace=a"] |} ]).
Proof. repeat split; vm_compute; reflexivity. Qed.

Lemma rethrown_missing (e : exn) :
  codeOf e = Some "ENOENT"%string -> rethrown e = notInstalled.
Proof. unfold rethrown. now intros ->. Qed.

Lemma rethrown_other (e : exn) :
  codeOf e <> Some "ENOENT"%string -> rethrown e = e.
Proof.
  unfold rethrown. destruct (codeOf e) as [c|]; [|reflexivity].
  destruct (String.eqb_spec c "ENOENT") as [->|]; [now intros [] | reflexivity].
Qed.

(** C8, as the code has it.  The call and the audit string are functions of
    the filters and the namespace alone; the call made is that call,
    whatever its outcome; a run that succeeds returns the audit string with
    the issues.  A run that fails returns nothing: when the executable is
    missing it throws the installation error, the same for every call, and
    otherwise it throws the error of the failure as it is. *)
Theorem runK8sGPTAnalysis_audit {engine : Engine} (tool : Tool)
  (JSON_parse : string -> option value) (options : RunOptions)
  (tr : list Invocation) :
  snd (runK8sGPTAnalysis tool JSON_parse options tr) = tr ++ [invocationOf options] /\
  commandOf options =
    ("k8sgpt " ++ JsString.join " " (args (invocationOf options)))%string /\
  (forall options',
     run_filters options' = run_filters options ->
     run_namespace options' = run_namespace options ->
     invocationOf options' = invocationOf options /\
     commandOf options' = commandOf options) /\
  (forall l,
     callOutcome tool JSON_parse (List.length tr) (invocationOf options) = Ok l ->
     fst (runK8sGPTAnalysis tool JSON_parse options tr) =
       Ok {| run_issues := l; command := commandOf options |}) /\
  (forall e,
     callOutcome tool JSON_parse (List.length tr) (invocationOf options) = Throw e ->
     codeOf e = Some "ENOENT"%string ->
     fst (runK8sGPTAnalysis tool JSON_parse options tr) = Throw notInstalled) /\
  (forall e,
     callOutcome tool JSON_parse (List.length tr) (invocationOf options) = Throw e ->
     codeOf e <> Some "ENOENT"%string ->
     fst (runK8sGPTAnalysis tool JSON_parse options tr) = Throw e).
Proof.
  rewrite runK8sGPTAnalysis_eq. cbn [fst snd].
  split; [reflexivity|]. split; [reflexivity|]. split; [|split; [|split]].
  - intros options' Hf Hn.
    unfold commandOf, invocationOf, buildArgs. now rewrite Hf, Hn.
  - intros l ->. reflexivity.
  - intros e -> Hcode. now rewrite rethrown_missing.
  - intros e -> Hcode. now rewrite rethrown_other.
Qed.

Lemma runK8sGPTAnalysis_audit_witness :
  fst (runK8sGPTAnalysis toolHealthy parseSample (namespaceScope ["Pod"] "a") []) =
    Ok {| run_issues := issuesOfA;
          command := "k8sgpt analyze --output=json --filter=Pod --namespace=a" |} /\
  fst (runK8sGPTAnalysis toolMissing parseSample (namespaceScope ["Pod"] "a") []) =
    Throw notInstalled /\
  fst (runK8sGPTAnalysis toolFailingOnA parseSample (namespaceScope ["Pod"] "a") []) =
    Throw exitFailure.
Proof.
  destruct (runK8sGPTAnalysis_audit toolHealthy parseSample
              (namespaceScope ["Pod"] "a") []) as (_ & _ & _ & Hok & _).
  destruct (runK8sGPTAnalysis_audit toolMissing parseSample
              (namespaceScope ["Pod"] "a") []) as (_ & _ & _ & _ & Hmissing & _).
  destruct (runK8sGPTAnalysis_audit toolFailingOnA parseSample
              (namespaceScope ["Pod"] "a") []) as (_ & _ & _ & _ & _ & Hfail).
  split; [|split].
  - exact (Hok issuesOfA eq_refl).
  - exact (Hmissing (ExecError (Some "ENOENT") "spawn k8sgpt ENOENT") eq_refl eq_refl).
  - apply (Hfail exitFailure eq_refl). discriminate.
Defined.

(** C8 fails as stated: when the executable is missing, the runs for the
    namespaces "a" and "b" have different audit strings and hand the caller
    the same thing, the installation error; the audit string of such a
    failed run is not among what the caller receives. *)
Lemma runK8sGPTAnalysis_failure_counterexample :
  commandOf (namespaceScope ["Pod"] "a") =
    "k8sgpt analyze --output=json --filter=Pod --namespace=a" /\
  commandOf (namespaceScope ["Pod"] "b") =
    "k8sgpt analyze --output=json --filter=Pod --namespace=b" /\
  fst (runK8sGPTAnalysis toolMissing parseSample (namespaceScope ["Pod"] "a") []) =
    Throw (Error "k8sgpt is not installed. Please install it to use this tool.") /\
  fst (runK8sGPTAnalysis toolMissing parseSample (namespaceScope ["Pod"] "b") []) =
    Throw (Error "k8sgpt is not installed. Please install it to use this tool.").
Proof. repeat split; vm_compute; reflexivity. Qed.

(* ------------------------------------------------------------------ *)
(** ** Replaying a run *)

Section Replay.

Context {engine : Engine}.

Variables tool tool' : Tool.
Variable JSON_parse : string -> option value.

Hypothesis same_output : forall k inv, tool k inv = tool' k inv.

Lemma runK8sGPTAnalysis_replay (options : RunOptions) (tr : list Invocation) :
  runK8sGPTAnalysis tool JSON_parse options tr =
  runK8sGPTAnalysis tool' JSON_parse options tr.
Proof.
  rewrite !runK8sGPTAnalysis_eq. unfold callOutcome. now rewrite same_output.
Qed.

Lemma analyzeNamespace_replay (F : list string) (st : Collected) (ns : string)
  (tr : list Invocation) :
  analyzeNamespace tool JSON_parse F st ns tr =
  analyzeNamespace tool' JSON_parse F st ns tr.
Proof.
  unfold analyzeNamespace, bindRun. now rewrite runK8sGPTAnalysis_replay.
Qed.

Lemma namespaces_loop_replay (F : list string) (nss : list string) :
  forall (st : Collected) (tr : list Invocation),
    forOfRun (analyzeNamespace tool JSON_parse F) nss st tr =
    forOfRun (analyzeNamespace tool' JSON_parse F) nss st tr.
Proof.
  induction nss as [|ns nss IH]; intros st tr; [reflexivity|].
  cbn [forOfRun]. unfold bindRun. rewrite analyzeNamespace_replay.
  destruct (analyzeNamespace tool' JSON_parse F st ns tr) as [[st'|e] tr'];
    [apply IH | reflexivity].
Qed.

Lemma analyzeAll_replay (F : list string) (st : Collected) (tr : list Invocation) :
  analyzeAll tool JSON_parse F st tr = analyzeAll tool' JSON_parse F st tr.
Proof.
  unfold analyzeAll, bindRun. now rewrite runK8sGPTAnalysis_replay.
Qed.

End Replay.

(** C9.  Two runs of [analyze] on the same request that get the same
    output from the tool either both throw the same error or both return a
    result, with the same issues, the same summary (the summary of these
    issues) and the same commands, whatever the clock and the connection
    context of each run: only [timestamp] and [cluster] depend on them. *)
Theorem analyze_replay {engine : Engine}
  (tool tool' : Tool) (JSON_parse : string -> option value)
  (kc kc' : KubeConfig) (isoNow isoNow' : string) (options : AnalyzeOptions) :
  (forall k inv, tool k inv = tool' k inv) ->
  match fst (analyze tool JSON_parse kc isoNow options []),
        fst (analyze tool' JSON_parse kc' isoNow' options []) with
  | Ok r, Ok r' =>
      issues r = issues r' /\
      summary r = summary r' /\
      commands r = commands r' /\
      summary r = summarizeIssues (issues r)
  | Throw e, Throw e' => e = e'
  | _, _ => False
  end.
Proof.
  intros Hsame. unfold analyze, bindRun.
  destruct (allNamespaces options).
  - rewrite (analyzeAll_replay tool tool' JSON_parse Hsame).
    destruct (analyzeAll tool' _ _ _ _) as [[st|e] tr]; cbn; auto.
  - destruct (namespaces options) as [[|n ns]|].
    + rewrite (analyzeAll_replay tool tool' JSON_parse Hsame).
      destruct (analyzeAll tool' _ _ _ _) as [[st|e] tr]; cbn; auto.
    + rewrite (namespaces_loop_replay tool tool' JSON_parse Hsame).
      destruct (forOfRun _ _ _ _) as [[st|e] tr]; cbn; auto.
    + rewrite (analyzeAll_replay tool tool' JSON_parse Hsame).
      destruct (analyzeAll tool' _ _ _ _) as [[st|e] tr]; cbn; auto.
Qed.

Lemma analyze_replay_witness :
  match fst (analyze toolHealthy parseSample kcDev "2024-01-01T00:00:00.000Z"
               twoNamespaces []),
        fst (analyze toolHealthy parseSample kcBare
               "2024-06-30T12:00:00.000Z" twoNamespaces []) with
  | Ok r, Ok r' =>
      issues r = issues r' /\
      summary r = summary r' /\
      commands r = commands r' /\
      summary r = summarizeIssues (issues r)
  | Throw e, Throw e' => e = e'
  | _, _ => False
  end.
Proof.
  apply (analyze_replay toolHealthy toolHealthy
           parseSample kcDev kcBare "2024-01-01T00:00:00.000Z"
           "2024-06-30T12:00:00.000Z" twoNamespaces).
  intros k inv. reflexivity.
Defined.

(** The two runs of the witness differ in [timestamp] and [cluster] only. *)
Example analyze_replay_sample :
  fst (analyze toolHealthy parseSample kcBare "2024-06-30T12:00:00.000Z"
         twoNamespaces []) =
  Ok {| timestamp := "2024-06-30T12:00:00.000Z";
        cluster := "minikube";
        issues := issuesOfA ++ issuesOfB;
        summary := {| total := 2; criticalCount := 1; warningCount := 1;
                      infoCount := 0 |};
        commands :=
          [ "k8sgpt analyze --output=json --filter=Pod --namespace=a";
            "k8sgpt analyze --output=json --filter=Pod --namespace=b" ] |}.
Proof. vm_compute. reflexivity. Qed.

(* ------------------------------------------------------------------ *)
(** ** Pod events *)

Section EventMapFacts.

Lemma mapGet_set_same (k : string) (v : CoreV1Event) (m : EventMap) :
  mapGet k (mapSet k v m) = Some v.
Proof.
  induction m as [|[k' v'] m IH]; cbn [mapSet mapGet].
  - now rewrite String.eqb_refl.
  - destruct (String.eqb_spec k k') as [->|Hne]; cbn [mapGet].
    + now rewrite String.eqb_refl.
    + destruct (String.eqb_spec k k'); [contradiction | exact IH].
Qed.

Lemma mapGet_set_other (k k' : string) (v : CoreV1Event) (m : EventMap) :
  k' <> k -> mapGet k' (mapSet k v m) = mapGet k' m.
Proof.
  intros Hne. induction m as [|[k0 v0] m IH]; cbn [mapSet mapGet].
  - destruct (String.eqb_spec k' k); [contradiction | reflexivity].
  - destruct (String.eqb_spec k k0) as [->|Hk]; cbn [mapGet].
    + destruct (String.eqb_spec k' k0); [contradiction | reflexivity].
    + destruct (String.eqb_spec k' k0); [reflexivity | exact IH].
Qed.

Lemma mapGet_None_keys (k : string) (m : EventMap) :
  mapGet k m = None <-> ~ In k (map fst m).
Proof.
  induction m as [|[k' v'] m IH]; cbn [mapGet map fst In].
  - tauto.
  - destruct (String.eqb_spec k k') as [->|Hne].
    + split; [discriminate | intros H; exfalso; apply H; now left].
    + rewrite IH. split.
      * intros H [E|E]; [now apply Hne | now apply H].
      * intros H E. apply H. now right.
Qed.

(** The keys after [set]: unchanged for a key that is there, one more at
    the end for a new key. *)
Lemma mapSet_keys (k : string) (v : CoreV1Event) (m : EventMap) :
  map fst (mapSet k v m) =
  if mapHas k m then map fst m else map fst m ++ [k].
Proof.
  unfold mapHas. induction m as [|[k' v'] m IH]; cbn [mapSet mapGet map fst app].
  - reflexivity.
  - destruct (String.eqb_spec k k') as [->|Hne]; cbn [map fst].
    + reflexivity.
    + rewrite IH. now destruct (mapGet k m).
Qed.

Lemma mapGet_In (k : string) (v : CoreV1Event) (m : EventMap) :
  mapGet k m = Some v -> In (k, v) m.
Proof.
  induction m as [|[k' v'] m IH]; cbn [mapGet In]; [discriminate|].
  destruct (String.eqb_spec k k') as [->|Hne].
  - intros H; injection H as ->. now left.
  - intros H. right. now apply IH.
Qed.

Lemma In_mapGet (k : string) (v : CoreV1Event) (m : EventMap) :
  NoDup (map fst m) -> In (k, v) m -> mapGet k m = Some v.
Proof.
  induction m as [|[k' v'] m IH]; cbn [mapGet In map fst]; [tauto|].
  intros Hnd [E|Hin].
  - injection E as -> ->. now rewrite String.eqb_refl.
  - inversion Hnd as [|? ? Hnotin Hnd']; subst.
    destruct (String.eqb_spec k k') as [->|Hne].
    + exfalso. apply Hnotin. now apply (in_map fst _ (k', v)).
    + now apply IH.
Qed.

End EventMapFacts.

Lemma recentEvents_timed (now : Z) (events : list CoreV1Event) :
  Forall timed (recentEvents now events).
Proof.
  apply Forall_forall. intros e He. apply filter_In in He as [_ He].
  unfold timed. destruct (lastTimestamp e) as [[t|]|]; try discriminate.
  now exists t.
Qed.

Lemma errorEvents_timed (events : list CoreV1Event) :
  Forall timed events -> Forall timed (errorEvents events).
Proof.
  rewrite !Forall_forall. intros H e He. apply filter_In in He as [He _]. auto.
Qed.

Lemma timeOf_timed (e : CoreV1Event) (t : Z) :
  lastTimestamp e = Some (ValidDate t) -> timeOf e = t.
Proof. unfold timeOf. now intros ->. Qed.

(** One turn of the loop keeps the map deduplicated. *)
Lemma dedupStep_deduplicated (seen : list CoreV1Event) (m : EventMap)
  (e : CoreV1Event) :
  Forall timed seen -> timed e ->
  deduplicated seen m -> deduplicated (seen ++ [e]) (dedupStep m e).
Proof.
  intros Hseen [te Hte] (Hnd & Hrep & Hall).
  unfold dedupStep, replaces, mapHas.
  destruct (mapGet (eventKey e) m) as [kept|] eqn:Hget.
  - destruct (Hrep _ _ Hget) as (Hkey & Hin & Hmax).
    assert (Hk : timed kept) by (rewrite Forall_forall in Hseen; auto).
    destruct Hk as [tk Htk]. rewrite Hte, Htk. cbn [negb orb dateGt].
    destruct (Z.gtb_spec te tk) as [Hgt|Hle].
    + (* the new event is later: it replaces the kept one *)
      split; [|split].
      * rewrite mapSet_keys. unfold mapHas. now rewrite Hget.
      * intros k v Hv. destruct (string_dec k (eventKey e)) as [->|Hne].
        -- rewrite mapGet_set_same in Hv. injection Hv as <-.
           split; [reflexivity|]. split; [apply in_or_app; right; now left|].
           intros e' He' Hk'. apply in_app_or in He' as [He'|[<-|[]]]; [|lia].
           specialize (Hmax e' He' Hk').
           rewrite (timeOf_timed _ _ Hte), (timeOf_timed _ _ Htk) in *. lia.
        -- rewrite (mapGet_set_other _ _ _ _ Hne) in Hv.
           destruct (Hrep _ _ Hv) as (Hkv & Hinv & Hmaxv).
           split; [exact Hkv|]. split; [apply in_or_app; now left|].
           intros e' He' Hk'. apply in_app_or in He' as [He'|[<-|[]]]; auto; exfalso; now apply Hne.
      * intros e' He'. destruct (string_dec (eventKey e') (eventKey e)) as [->|Hne].
        -- now rewrite mapGet_set_same.
        -- rewrite (mapGet_set_other _ _ _ _ Hne).
           apply in_app_or in He' as [He'|[<-|[]]]; auto; exfalso; now apply Hne.
    + (* the kept event stays *)
      split; [exact Hnd|]. split.
      * intros k v Hv. destruct (Hrep _ _ Hv) as (Hkv & Hinv & Hmaxv).
        split; [exact Hkv|]. split; [apply in_or_app; now left|].
        intros e' He' Hk'. apply in_app_or in He' as [He'|[<-|[]]]; auto.
        rewrite <- Hk' in Hv. rewrite Hget in Hv. injection Hv as <-.
        rewrite (timeOf_timed _ _ Hte), (timeOf_timed _ _ Htk). lia.
      * intros e' He'. apply in_app_or in He' as [He'|[<-|[]]]; auto.
        now rewrite Hget.
  - (* a new key *)
    cbn [negb orb]. split; [|split].
    + rewrite mapSet_keys. unfold mapHas. rewrite Hget.
      apply NoDup_app; [exact Hnd | repeat constructor; intros [] | ].
      intros k Hk [<-|[]]. now apply mapGet_None_keys in Hget.
    + intros k v Hv. destruct (string_dec k (eventKey e)) as [->|Hne].
      * rewrite mapGet_set_same in Hv. injection Hv as <-.
        split; [reflexivity|]. split; [apply in_or_app; right; now left|].
        intros e' He' Hk'. apply in_app_or in He' as [He'|[<-|[]]]; [|lia].
        exfalso. apply (Hall e' He'). now rewrite Hk'.
      * rewrite (mapGet_set_other _ _ _ _ Hne) in Hv.
        destruct (Hrep _ _ Hv) as (Hkv & Hinv & Hmaxv).
        split; [exact Hkv|]. split; [apply in_or_app; now left|].
        intros e' He' Hk'. apply in_app_or in He' as [He'|[<-|[]]]; auto; exfalso; now apply Hne.
    + intros e' He'. destruct (string_dec (eventKey e') (eventKey e)) as [->|Hne].
      * now rewrite mapGet_set_same.
      * rewrite (mapGet_set_other _ _ _ _ Hne).
        apply in_app_or in He' as [He'|[<-|[]]]; auto; exfalso; now apply Hne.
Qed.

Lemma fold_dedupStep_deduplicated (events : list CoreV1Event) :
  forall (seen : list CoreV1Event) (m : EventMap),
    Forall timed seen -> Forall timed events ->
    deduplicated seen m ->
    deduplicated (seen ++ events) (fold_left dedupStep events m).
Proof.
  induction events as [|e events IH]; intros seen m Hseen Hev Hm.
  - now rewrite app_nil_r.
  - inversion Hev as [|? ? He Hev']; subst. cbn [fold_left].
    replace (seen ++ e :: events) with ((seen ++ [e]) ++ events)
      by now rewrite <- app_assoc.
    apply IH; auto.
    + apply Forall_app. split; [exact Hseen | now constructor].
    + now apply dedupStep_deduplicated.
Qed.

(** The loop over events with valid time stamps leaves one entry for each
    key that occurs, and that entry is an event of the key with the latest
    time stamp. *)
Lemma uniqueEvents_deduplicated (events : list CoreV1Event) :
  Forall timed events -> deduplicated events (uniqueEvents events).
Proof.
  intros H. unfold uniqueEvents.
  apply (fold_dedupStep_deduplicated events [] []); auto.
  split; [constructor|]. split.
  - intros k v Hv. discriminate.
  - intros e [].
Qed.

Lemma entries_keyed (seen : list CoreV1Event) (m : EventMap) :
  deduplicated seen m -> map fst m = map eventKey (mapValues m).
Proof.
  intros (Hnd & Hrep & _). unfold mapValues. rewrite map_map.
  apply map_ext_in. intros [k v] Hin. cbn [fst snd].
  symmetry. now apply (Hrep k v), In_mapGet.
Qed.

Lemma In_mapValues (v : CoreV1Event) (m : EventMap) :
  In v (mapValues m) <-> exists k, In (k, v) m.
Proof.
  unfold mapValues. rewrite in_map_iff. split.
  - intros [[k v'] [E H]]. cbn in E. subst. now exists k.
  - intros [k H]. now exists (k, v).
Qed.

(** The events that survive, when no two pairs of reason and message
    collide on the key string: one for each pair that occurs among the
    warnings and errors of the last hour, and it is one with the latest time
    stamp of its pair. *)
Lemma podEventIssues_one_per_pair (now : Z) (podName podNamespace : string)
  (events : list CoreV1Event) :
  podEventIssues now podName podNamespace events =
    map (eventIssue podName podNamespace)
        (mapValues (uniqueEvents (relevantEvents now events))) /\
  NoDup (map pairOf (mapValues (uniqueEvents (relevantEvents now events)))) /\
  (forall v, In v (mapValues (uniqueEvents (relevantEvents now events))) ->
     In v (relevantEvents now events) /\
     severity (eventIssue podName podNamespace v) =
       (if optEqb (type v) "Error" then critical else warning)) /\
  (noCollision (relevantEvents now events) ->
   forall e, In e (relevantEvents now events) ->
     exists v, In v (mapValues (uniqueEvents (relevantEvents now events))) /\
               pairOf v = pairOf e /\ (timeOf e <= timeOf v)%Z).
Proof.
  assert (Hd : deduplicated (relevantEvents now events)
                 (uniqueEvents (relevantEvents now events))).
  { apply uniqueEvents_deduplicated, errorEvents_timed, recentEvents_timed. }
  split; [reflexivity|]. split; [|split].
  - apply (NoDup_map_inv keyOfPair). rewrite map_map.
    change (fun x => keyOfPair (pairOf x)) with eventKey.
    rewrite <- (entries_keyed _ _ Hd). apply Hd.
  - intros v Hv. apply In_mapValues in Hv as [k Hin].
    destruct Hd as (Hnd & Hrep & _).
    split; [|reflexivity]. now apply (Hrep k v), In_mapGet.
  - intros Hnc e He. destruct Hd as (Hnd & Hrep & Hall).
    destruct (mapGet (eventKey e) (uniqueEvents (relevantEvents now events)))
      as [v|] eqn:Hget; [|now contradiction (Hall e He)].
    destruct (Hrep _ _ Hget) as (Hkey & Hin & Hmax).
    exists v. split; [|split].
    + apply In_mapValues. exists (eventKey e). now apply mapGet_In.
    + now apply Hnc.
    + now apply Hmax.
Qed.

(** C6 at an input where it fails.  Two warnings of the last hour have the
    pairs ("Probe", "failed-liveness") and ("Probe-failed", "liveness"): two
    distinct pairs that are glued to the same key string, so that one issue
    is reported for them instead of two. *)
Theorem podEventIssues_key_collision :
  map pairOf (relevantEvents sampleNow probeEvents) =
    [ (Some "Probe", Some "failed-liveness"); (Some "Probe-failed", Some "liveness") ] /\
  map eventKey (relevantEvents sampleNow probeEvents) =
    [ "Probe-failed-liveness"; "Probe-failed-liveness" ] /\
  podEventIssues sampleNow "web" "default" probeEvents =
    [ {| kind := VStr "Pod"; name := VStr "web"; namespace := VStr "default";
         problem := VStr "Probe-failed: liveness";
         solution := VStr "Check pod logs and events for more details";
         severity := warning |} ].
Proof. repeat split; vm_compute; reflexivity. Qed.

(** C10.  An event without last-observed time stamp never takes part: the
    issues of a pod are those of its events that carry a time stamp, and
    taking such an event out of the list, whatever its type, reason and
    message, changes nothing. *)
Theorem podEventIssues_ignores_untimed (now : Z) (podName podNamespace : string) :
  (forall events,
     podEventIssues now podName podNamespace events =
     podEventIssues now podName podNamespace (filter hasTimestamp events)) /\
  (forall before after e,
     lastTimestamp e = None ->
     podEventIssues now podName podNamespace (before ++ e :: after) =
     podEventIssues now podName podNamespace (before ++ after)) /\
  (forall events,
     Forall (fun e => lastTimestamp e = None) events ->
     podEventIssues now podName podNamespace events = []).
Proof.
  assert (Hrecent : forall events,
             recentEvents now events = recentEvents now (filter hasTimestamp events)).
  { induction events as [|e events IH]; [reflexivity|].
    cbn [filter recentEvents]. unfold hasTimestamp at 1.
    destruct (lastTimestamp e) as [d|] eqn:Hd.
    - cbn [filter]. rewrite Hd. fold (recentEvents now events).
      fold (recentEvents now (filter hasTimestamp events)). now rewrite IH.
    - exact IH. }
  split; [|split].
  - intros events. unfold podEventIssues. now rewrite <- Hrecent.
  - intros before after e He. unfold podEventIssues, recentEvents.
    rewrite !filter_app. cbn [filter]. now rewrite He.
  - intros events Hall. unfold podEventIssues.
    replace (recentEvents now events) with (@nil CoreV1Event); [reflexivity|].
    symmetry. induction Hall as [|e events He _ IH]; [reflexivity|].
    cbn [recentEvents filter]. now rewrite He.
Qed.

Lemma podEventIssues_ignores_untimed_witness :
  podEventIssues sampleNow "web" "default" [errorAt 30; untimedError; errorAt 120] =
  podEventIssues sampleNow "web" "default" [errorAt 30; errorAt 120] /\
  podEventIssues sampleNow "web" "default" [untimedError] = [].
Proof.
  destruct (podEventIssues_ignores_untimed sampleNow "web" "default")
    as (_ & Hdrop & Hnone).
  split.
  - exact (Hdrop [errorAt 30] [errorAt 120] untimedError eq_refl).
  - apply Hnone. repeat constructor.
Defined.

(** The example of the specification: of the same error observed 30
    minutes ago and two hours ago, the first is reported, once; the second
    alone is not reported. *)
Example podEventIssues_window :
  podEventIssues sampleNow "web" "default" [errorAt 120; errorAt 30] =
    [ {| kind := VStr "Pod"; name := VStr "web"; namespace := VStr "default";
         problem := VStr "Failed: image pull failed";
         solution := VStr "Check pod logs and events for more details";
         severity := critical |} ] /\
  podEventIssues sampleNow "web" "default" [errorAt 120] = [].
Proof. split; vm_compute; reflexivity. Qed.

(* ================================================================== *)
(** * Further properties *)

Import Notions.

(* ------------------------------------------------------------------ *)
(** ** The classifier and the text around a keyword *)

Lemma string_app_assoc (a b c : string) :
  ((a ++ b) ++ c = a ++ (b ++ c))%string.
Proof. induction a as [|x a IH]; simpl; [reflexivity | now rewrite IH]. Qed.

Lemma mentions_surrounded (k pre text post : string) :
  mentions k text -> mentions k (pre ++ text ++ post)%string.
Proof.
  intros (a & mid & b & -> & Hmid).
  exists (pre ++ a)%string, mid, (b ++ post)%string. split; [|exact Hmid].
  now rewrite !string_app_assoc.
Qed.

Lemma mentionsAny_surrounded (ks : list string) (pre text post : string) :
  mentionsAny ks text -> mentionsAny ks (pre ++ text ++ post)%string.
Proof.
  intros (k & Hin & Hk). exists k. split; [exact Hin|].
  now apply mentions_surrounded.
Qed.

Lemma isAscii_app (a b : string) :
  JsString.isAscii (a ++ b)%string = JsString.isAscii a && JsString.isAscii b.
Proof.
  induction a as [|c a IH]; [reflexivity|].
  cbn [String.append JsString.isAscii]. now rewrite IH, andb_assoc.
Qed.

(** X1.  Text around a diagnostic never lowers its severity: a text that
    contains [text] is classified at least as high as [text].  This holds
    for the lowering of the ASCII letters, whatever the bytes of the texts,
    and so for a text in ASCII on every engine that lowers such a text
    letter by letter. *)
Theorem determineSeverity_surrounded (pre text post : string) :
  severityRank (determineSeverity (E := asciiEngine) text)
  <= severityRank (determineSeverity (E := asciiEngine) (pre ++ text ++ post)%string) /\
  (forall engine : Engine,
     lowersAscii engine ->
     JsString.isAscii (pre ++ text ++ post)%string = true ->
     severityRank (determineSeverity text)
     <= severityRank (determineSeverity (pre ++ text ++ post)%string)).
Proof.
  assert (Hrank :
            severityRank (determineSeverity (E := asciiEngine) text)
            <= severityRank
                 (determineSeverity (E := asciiEngine) (pre ++ text ++ post)%string)).
  { destruct (determineSeverity (E := asciiEngine) text) eqn:Htext;
      cbn [severityRank].
    - apply determineSeverity_critical in Htext.
      apply (mentionsAny_surrounded _ pre _ post) in Htext.
      apply determineSeverity_critical in Htext. rewrite Htext. cbn. lia.
    - apply determineSeverity_warning in Htext as [_ Hw].
      apply (mentionsAny_surrounded _ pre _ post) in Hw.
      destruct (determineSeverity (E := asciiEngine) (pre ++ text ++ post)%string)
        eqn:Hall; cbn; try lia.
      apply determineSeverity_info in Hall as [_ Hno]. contradiction.
    - lia. }
  split; [exact Hrank|].
  intros engine Hascii Hall.
  assert (Htext : JsString.isAscii text = true).
  { rewrite !isAscii_app, !andb_true_iff in Hall. tauto. }
  rewrite (determineSeverity_lowered (E' := asciiEngine) text text),
    (determineSeverity_lowered (E' := asciiEngine) (pre ++ text ++ post)
       (pre ++ text ++ post)); [exact Hrank | |]; cbn [toLowerCase asciiEngine];
    now apply Hascii.
Qed.

(* ------------------------------------------------------------------ *)
(** ** What the normalizer produces *)

Lemma forOf_preserves {A S : Type} (I : S -> Prop) (body : S -> A -> result S) :
  (forall acc x acc', I acc -> body acc x = Ok acc' -> I acc') ->
  forall xs acc acc', I acc -> forOf body xs acc = Ok acc' -> I acc'.
Proof.
  intros Hbody. induction xs as [|x xs IH]; intros acc acc' Hacc; cbn [forOf].
  - intros E; injection E as <-. exact Hacc.
  - destruct (body acc x) as [acc1|e] eqn:Hx; cbn [bind]; [|discriminate].
    apply IH. now apply (Hbody acc x).
Qed.

Lemma pushIssue_normalized {engine : Engine}
  (finding ns nm : value) (acc acc' : list Issue)
  (d : value) :
  Forall normalized acc ->
  pushIssue finding ns nm acc d = Ok acc' ->
  Forall normalized acc'.
Proof.
  intros Hacc. unfold pushIssue.
  destruct (Js.getProp finding "kind"); cbn [bind]; [|discriminate].
  destruct (Js.getProp finding "name"); cbn [bind]; [|discriminate].
  destruct (Js.getProp d "Text") as [text|]; cbn [bind]; [|discriminate].
  destruct (Js.getProp d "KubernetesDoc") as [doc|]; cbn [bind]; [|discriminate].
  destruct text; cbn [determineSeverityOf bind]; try discriminate.
  intros E; injection E as <-. apply Forall_app. split; [exact Hacc|].
  constructor; [|constructor]. exists s. cbn [problem severity solution].
  repeat split. unfold Js.or. destruct (Js.truthy doc) eqn:Hdoc; [exact Hdoc|].
  reflexivity.
Qed.

Lemma convertResult_normalized {engine : Engine}
  (acc acc' : list Issue) (finding : value) :
  Forall normalized acc ->
  convertResult acc finding = Ok acc' ->
  Forall normalized acc'.
Proof.
  intros Hacc. unfold convertResult.
  destruct (Js.getProp finding "name") as [nm|]; cbn [bind]; [|discriminate].
  destruct (parseName nm) as [p|]; cbn [bind]; [|discriminate].
  destruct (Js.getProp finding "error") as [err|]; cbn [bind]; [|discriminate].
  destruct (negb (Js.truthy err) || negb (Js.isArray err)).
  - intros E; injection E as <-. exact Hacc.
  - destruct err; try (intros E; injection E as <-; exact Hacc).
    apply (forOf_preserves (Forall normalized)); [|exact Hacc].
    intros a d a' Ha. now apply pushIssue_normalized.
Qed.

(** X2.  Every issue the normalizer returns has a text for a problem, the
    severity the classifier gives that text, and a solution that is not
    empty (the documentation link or the fallback sentence). *)
Theorem convert_normalized {engine : Engine} (output : value) (l : list Issue) :
  convertK8sGPTToIssues output = Ok l -> Forall normalized l.
Proof.
  unfold convertK8sGPTToIssues.
  destruct (Js.getProp output "results") as [r|]; cbn [bind]; [|discriminate].
  destruct (negb (Js.truthy r) || negb (Js.isArray r)).
  - intros E; injection E as <-. constructor.
  - destruct r; try (intros E; injection E as <-; constructor).
    apply (forOf_preserves (Forall normalized)); [|constructor].
    intros a f a' Ha. now apply convertResult_normalized.
Qed.

Lemma convert_normalized_witness :
  Forall normalized issuesOfB.
Proof.
  apply (convert_normalized (outputOf findingsOfB) issuesOfB). reflexivity.
Defined.

(** A loop that only pushes can be run on the empty array and its pushes
    appended afterwards. *)
Lemma forOf_acc {A B : Type} (body : list B -> A -> result (list B)) :
  (forall acc x, body acc x = (l <- body [] x ;; Ok (acc ++ l))%js) ->
  forall xs acc, forOf body xs acc = (l <- forOf body xs [] ;; Ok (acc ++ l))%js.
Proof.
  intros Hbody. induction xs as [|x xs IH]; intros acc; cbn [forOf].
  - cbn [bind]. now rewrite app_nil_r.
  - rewrite (Hbody acc x). destruct (body [] x) as [l|e]; cbn [bind]; [|reflexivity].
    rewrite (IH (acc ++ l)), (IH l).
    destruct (forOf body xs []) as [l'|e]; cbn [bind]; [|reflexivity].
    now rewrite app_assoc.
Qed.

Lemma pushIssue_acc {engine : Engine}
  (finding ns nm : value) (acc : list Issue) (d : value) :
  pushIssue finding ns nm acc d =
  (l <- pushIssue finding ns nm [] d ;; Ok (acc ++ l))%js.
Proof.
  unfold pushIssue.
  destruct (Js.getProp finding "kind"); cbn [bind]; [|reflexivity].
  destruct (Js.getProp finding "name"); cbn [bind]; [|reflexivity].
  destruct (Js.getProp d "Text") as [text|]; cbn [bind]; [|reflexivity].
  destruct (Js.getProp d "KubernetesDoc"); cbn [bind]; [|reflexivity].
  destruct (determineSeverityOf text); reflexivity.
Qed.

Lemma convertResult_acc {engine : Engine} (acc : list Issue) (finding : value) :
  convertResult acc finding =
  (l <- convertResult [] finding ;; Ok (acc ++ l))%js.
Proof.
  unfold convertResult.
  destruct (Js.getProp finding "name") as [nm|]; cbn [bind]; [|reflexivity].
  destruct (parseName nm) as [p|]; cbn [bind]; [|reflexivity].
  destruct (Js.getProp finding "error") as [err|]; cbn [bind]; [|reflexivity].
  destruct (negb (Js.truthy err) || negb (Js.isArray err));
    [cbn [bind]; now rewrite app_nil_r|].
  destruct err; try (cbn [bind]; now rewrite app_nil_r).
  apply forOf_acc. intros a d. apply pushIssue_acc.
Qed.

(** X3.  The normalizer works finding by finding: the issues of a batch
    are the issues of its first part followed by those of the rest, and
    the batch throws exactly when one of the two parts throws. *)
Theorem convert_concat {engine : Engine}
  (output output1 output2 : value) (fs1 fs2 : list value) :
  Js.getProp output "results" = Ok (VArr (fs1 ++ fs2)) ->
  Js.getProp output1 "results" = Ok (VArr fs1) ->
  Js.getProp output2 "results" = Ok (VArr fs2) ->
  convertK8sGPTToIssues output =
  (l1 <- convertK8sGPTToIssues output1 ;;
   l2 <- convertK8sGPTToIssues output2 ;;
   Ok (l1 ++ l2))%js.
Proof.
  intros H H1 H2.
  rewrite (convert_results_array _ _ H), (convert_results_array _ _ H1),
    (convert_results_array _ _ H2), forOf_app.
  destruct (forOf convertResult fs1 []) as [l1|e]; cbn [bind]; [|reflexivity].
  apply forOf_acc. intros acc f. apply convertResult_acc.
Qed.

Lemma convert_concat_witness :
  convertK8sGPTToIssues (outputOf (findingsOfA ++ findingsOfB)) =
  (l1 <- convertK8sGPTToIssues (outputOf findingsOfA) ;;
   l2 <- convertK8sGPTToIssues (outputOf findingsOfB) ;;
   Ok (l1 ++ l2))%js.
Proof.
  exact (convert_concat (outputOf (findingsOfA ++ findingsOfB))
           (outputOf findingsOfA) (outputOf findingsOfB)
           findingsOfA findingsOfB eq_refl eq_refl eq_refl).
Defined.

(* ------------------------------------------------------------------ *)
(** ** Scope, failure and audit trail of [analyze] *)

Lemma activeFiltersOf_cons (options : AnalyzeOptions) :
  exists f fs, activeFiltersOf options = f :: fs.
Proof.
  unfold activeFiltersOf. destruct (filters options) as [[|f fs]|]; eauto;
    unfold AVAILABLE_FILTERS; eauto.
Qed.

(** X4.  The defaults of a request: without namespace list (absent or
    empty) and without the all-namespaces flag, [analyze] does what it does
    with the flag set; without filters (absent or empty) it does what it
    does with all available filters. *)
Theorem analyze_defaults {engine : Engine}
  (tool : Tool) (JSON_parse : string -> option value)
  (kc : KubeConfig) (isoNow : string) (options : AnalyzeOptions)
  (tr : list Invocation) :
  (allNamespaces options = false ->
   namespaces options = None \/ namespaces options = Some [] ->
   analyze tool JSON_parse kc isoNow options tr =
   analyze tool JSON_parse kc isoNow (withScope options None true) tr) /\
  (filters options = None \/ filters options = Some [] ->
   analyze tool JSON_parse kc isoNow options tr =
   analyze tool JSON_parse kc isoNow
     (withFilters options (Some AVAILABLE_FILTERS)) tr).
Proof.
  split.
  - intros Hflag Hlist. unfold analyze, withScope, activeFiltersOf.
    cbn [allNamespaces namespaces filters]. rewrite Hflag.
    now destruct Hlist as [-> | ->].
  - intros Hf. unfold analyze, withFilters, activeFiltersOf.
    cbn [allNamespaces namespaces filters].
    now destruct Hf as [-> | ->].
Qed.

Lemma analyze_defaults_witness :
  analyze toolHealthy parseSample kcDev "2024-01-01T00:00:00.000Z"
    {| namespaces := Some []; allNamespaces := false; filters := Some [] |} [] =
  analyze toolHealthy parseSample kcDev "2024-01-01T00:00:00.000Z"
    {| namespaces := None; allNamespaces := true;
       filters := Some AVAILABLE_FILTERS |} [].
Proof.
  destruct (analyze_defaults toolHealthy parseSample kcDev
              "2024-01-01T00:00:00.000Z"
              {| namespaces := Some []; allNamespaces := false;
                 filters := Some [] |} []) as [Hscope _].
  rewrite (Hscope eq_refl (or_intror eq_refl)).
  destruct (analyze_defaults toolHealthy parseSample kcDev
              "2024-01-01T00:00:00.000Z"
              {| namespaces := None; allNamespaces := true;
                 filters := Some [] |} []) as [_ Hfilters].
  exact (Hfilters (or_intror eq_refl)).
Defined.

Section FailFast.

Context {engine : Engine}.

Variable tool : Tool.
Variable JSON_parse : string -> option value.

(** The loop up to the namespace [ns], when the calls before it
    succeed with results [push] can take. *)
Lemma namespaces_loop_upto (F : list string) (ns : string) (post : list string)
  (pre : list string) :
  forall (outs : list (list Issue)) (st : Collected) (tr : list Invocation),
    callsFrom tool JSON_parse F (List.length tr) pre = map Ok outs ->
    Forall pushable outs ->
    forOfRun (analyzeNamespace tool JSON_parse F) (pre ++ ns :: post) st tr =
    forOfRun (analyzeNamespace tool JSON_parse F) (ns :: post)
      (fst st ++ List.concat outs,
       snd st ++ map (fun x => commandOf (namespaceScope F x)) pre)
      (tr ++ map (fun x => invocationOf (namespaceScope F x)) pre).
Proof.
  induction pre as [|p pre IH]; intros outs st tr Hpre Hall.
  - destruct outs; [|discriminate]. cbn [app map List.concat].
    rewrite !app_nil_r. now destruct st.
  - cbn [app]. cbn [forOfRun]. unfold bindRun at 1. rewrite analyzeNamespace_eq.
    cbn [callsFrom] in Hpre. destruct outs as [|l outs]; [discriminate|].
    cbn [map] in Hpre. injection Hpre as Hcall Hrest. rewrite Hcall.
    inversion Hall as [|? ? Hl Houts]; subst.
    rewrite (pushAll_pushable _ _ Hl).
    rewrite (IH outs); [|now rewrite length_snoc | exact Houts].
    cbn [fst snd map List.concat]. now rewrite <- !app_assoc.
Qed.

Lemma namespaces_loop_fail (F : list string) (ns : string) (post : list string)
  (e : exn) (pre : list string) :
  forall (outs : list (list Issue)) (st : Collected) (tr : list Invocation),
    callsFrom tool JSON_parse F (List.length tr) pre = map Ok outs ->
    Forall pushable outs ->
    callOutcome tool JSON_parse (List.length tr + List.length pre)
      (invocationOf (namespaceScope F ns)) = Throw e ->
    forOfRun (analyzeNamespace tool JSON_parse F) (pre ++ ns :: post) st tr =
    (Throw (rethrown e),
     tr ++ map (fun x => invocationOf (namespaceScope F x)) (pre ++ [ns])).
Proof.
  intros outs st tr Hpre Hall Hfail.
  rewrite (namespaces_loop_upto F ns post pre outs st tr Hpre Hall).
  cbn [forOfRun]. unfold bindRun. rewrite analyzeNamespace_eq.
  rewrite length_app, length_map, Hfail.
  now rewrite map_app, app_assoc.
Qed.

Lemma namespaces_loop_overflow (F : list string) (ns : string) (post : list string)
  (l : list Issue) (pre : list string) :
  forall (outs : list (list Issue)) (st : Collected) (tr : list Invocation),
    callsFrom tool JSON_parse F (List.length tr) pre = map Ok outs ->
    Forall pushable outs ->
    callOutcome tool JSON_parse (List.length tr + List.length pre)
      (invocationOf (namespaceScope F ns)) = Ok l ->
    ~ pushable l ->
    forOfRun (analyzeNamespace tool JSON_parse F) (pre ++ ns :: post) st tr =
    (Throw RangeError,
     tr ++ map (fun x => invocationOf (namespaceScope F x)) (pre ++ [ns])).
Proof.
  intros outs st tr Hpre Hall Hcall Hbig.
  rewrite (namespaces_loop_upto F ns post pre outs st tr Hpre Hall).
  cbn [forOfRun]. unfold bindRun. rewrite analyzeNamespace_eq.
  rewrite length_app, length_map, Hcall.
  rewrite (pushAll_not_pushable _ _ Hbig).
  now rewrite map_app, app_assoc.
Qed.

(** The calls a loop makes, whether it runs to its end or not. *)
Lemma namespaces_loop_calls (F : list string) (nss : list string) :
  forall (st : Collected) (tr : list Invocation),
    exists k,
      k <= List.length nss /\
      (nss <> [] -> 1 <= k) /\
      snd (forOfRun (analyzeNamespace tool JSON_parse F) nss st tr) =
        tr ++ firstn k (map (fun x => invocationOf (namespaceScope F x)) nss) /\
      forall st',
        fst (forOfRun (analyzeNamespace tool JSON_parse F) nss st tr) = Ok st' ->
        k = List.length nss /\
        snd st' = snd st ++ map (fun x => commandOf (namespaceScope F x)) nss.
Proof.
  induction nss as [|ns nss IH]; intros st tr.
  - exists 0. cbn [forOfRun ret fst snd List.length map firstn].
    split; [lia|]. split; [intros H; now contradiction H|].
    split; [now rewrite app_nil_r|].
    intros st' E. injection E as <-. split; [reflexivity | now rewrite app_nil_r].
  - cbn [forOfRun]. unfold bindRun. rewrite analyzeNamespace_eq.
    destruct (callOutcome _ _ _ _) as [l|e].
    + destruct (pushAll (fst st) l) as [allIssues|e].
      * destruct (IH (allIssues, snd st ++ [commandOf (namespaceScope F ns)])
                    (tr ++ [invocationOf (namespaceScope F ns)]))
          as (k & Hk & _ & Htrace & Hok).
        exists (S k). cbn [List.length map firstn]. rewrite Htrace, <- app_assoc.
        split; [lia|]. split; [intros _; lia|]. split; [reflexivity|].
        intros st' E. destruct (Hok st' E) as [-> ->]. cbn [snd].
        split; [reflexivity | now rewrite <- app_assoc].
      * exists 1. cbn [List.length map firstn fst snd].
        split; [lia|]. split; [intros _; lia|]. split; [reflexivity|].
        intros st' E. discriminate E.
    + exists 1. cbn [List.length map firstn fst snd].
      split; [lia|]. split; [intros _; lia|]. split; [reflexivity|].
      intros st' E. discriminate E.
Qed.

End FailFast.

(** X5.  The first failure ends the analysis at once.  When the calls for
    the namespaces before [ns] succeed with results that [push] can take,
    and the call for [ns] fails, [analyze] throws the error of that call
    (the installation message when the executable is missing); when the
    call for [ns] succeeds with more issues than [push] can take, [analyze]
    throws a [RangeError].  Either way it returns no partial result, and
    has made the calls up to and including the one for [ns] and none after
    it. *)
Theorem analyze_fail_fast {engine : Engine}
  (tool : Tool) (JSON_parse : string -> option value)
  (kc : KubeConfig) (isoNow : string) (options : AnalyzeOptions)
  (pre : list string) (ns : string) (post : list string)
  (outs : list (list Issue)) (tr : list Invocation) :
  allNamespaces options = false ->
  namespaces options = Some (pre ++ ns :: post) ->
  callsFrom tool JSON_parse (activeFiltersOf options) (List.length tr) pre
    = map Ok outs ->
  Forall pushable outs ->
  (forall e,
     callOutcome tool JSON_parse (List.length tr + List.length pre)
       (invocationOf (namespaceScope (activeFiltersOf options) ns)) = Throw e ->
     analyze tool JSON_parse kc isoNow options tr =
     (Throw (rethrown e),
      tr ++ map (fun x => invocationOf (namespaceScope (activeFiltersOf options) x))
                (pre ++ [ns]))) /\
  (forall l,
     callOutcome tool JSON_parse (List.length tr + List.length pre)
       (invocationOf (namespaceScope (activeFiltersOf options) ns)) = Ok l ->
     ~ pushable l ->
     analyze tool JSON_parse kc isoNow options tr =
     (Throw RangeError,
      tr ++ map (fun x => invocationOf (namespaceScope (activeFiltersOf options) x))
                (pre ++ [ns]))).
Proof.
  intros Hflag Hlist Hpre Hall. unfold analyze. rewrite Hflag, Hlist.
  unfold bindRun. split.
  - intros e Hfail.
    assert (Hloop := namespaces_loop_fail tool JSON_parse (activeFiltersOf options)
                       ns post e pre outs ([], []) tr Hpre Hall Hfail).
    destruct (pre ++ ns :: post) as [|n rest] eqn:Hl.
    + destruct pre; discriminate.
    + now rewrite Hloop.
  - intros l Hcall Hbig.
    assert (Hloop := namespaces_loop_overflow tool JSON_parse (activeFiltersOf options)
                       ns post l pre outs ([], []) tr Hpre Hall Hcall Hbig).
    destruct (pre ++ ns :: post) as [|n rest] eqn:Hl.
    + destruct pre; discriminate.
    + now rewrite Hloop.
Qed.

Lemma analyze_fail_fast_witness :
  analyze toolFailingOnA parseSample kcDev "2024-01-01T00:00:00.000Z"
    {| namespaces := Some ["b"; "a"; "c"]; allNamespaces := false;
       filters := Some ["Pod"] |} [] =
  (Throw exitFailure,
   [ {| file := "k8sgpt";
        args := ["analyze"; "--output=json"; "--filter=Pod"; "--namespace=b"] |};
     {| file := "k8sgpt";
        args := ["analyze"; "--output=json"; "--filter=Pod"; "--namespace=a"] |} ]).
Proof.
  assert (Hall : Forall pushable [issuesOfB]) by repeat constructor.
  exact (proj1 (analyze_fail_fast toolFailingOnA parseSample kcDev
                  "2024-01-01T00:00:00.000Z"
                  {| namespaces := Some ["b"; "a"; "c"]; allNamespaces := false;
                     filters := Some ["Pod"] |}
                  ["b"] "a" ["c"] [issuesOfB] [] eq_refl eq_refl eq_refl Hall)
               exitFailure eq_refl).
Defined.

Lemma renderCall_invocationOf (o : RunOptions) :
  renderCall (invocationOf o) = commandOf o.
Proof. reflexivity. Qed.

Lemma analysisCall_cluster (F : list string) :
  F <> [] -> analysisCall F (invocationOf (clusterScope F)).
Proof.
  intros HF. split; [reflexivity|]. exists [].
  split; [|now left]. unfold invocationOf, clusterScope, buildArgs.
  cbn [args run_filters run_namespace]. destruct F; [now contradiction HF|].
  reflexivity.
Qed.

Lemma analysisCall_namespace (F : list string) (ns : string) :
  F <> [] -> analysisCall F (invocationOf (namespaceScope F ns)).
Proof.
  intros HF. split; [reflexivity|].
  unfold invocationOf, namespaceScope, buildArgs.
  cbn [args run_filters run_namespace]. destruct F; [now contradiction HF|].
  destruct ns as [|c ns]; cbn [JsString.truthy].
  - exists []. split; [reflexivity | now left].
  - exists [("--namespace=" ++ String c ns)%string]. split; [reflexivity|].
    right. exists (String c ns). split; [discriminate | reflexivity].
Qed.

Lemma Forall_firstn {A : Type} (P : A -> Prop) (k : nat) (l : list A) :
  Forall P l -> Forall P (firstn k l).
Proof.
  intros H. rewrite <- (firstn_skipn k l) in H.
  now apply Forall_app in H as [H _].
Qed.

(** X6.  The audit trail of [analyze].  Every run calls the tool at least
    once; every call it makes is [k8sgpt analyze --output=json] with the
    active filters, for the whole cluster or for one named namespace, and
    nothing else is ever run; and when the run returns a result, its
    commands are these very calls, in the order they were made, its summary
    is the summary of its issues and its timestamp is the clock reading. *)
Theorem analyze_audit_trail {engine : Engine}
  (tool : Tool) (JSON_parse : string -> option value)
  (kc : KubeConfig) (isoNow : string) (options : AnalyzeOptions)
  (tr : list Invocation) :
  exists calls,
    snd (analyze tool JSON_parse kc isoNow options tr) = tr ++ calls /\
    calls <> [] /\
    Forall (analysisCall (activeFiltersOf options)) calls /\
    forall r,
      fst (analyze tool JSON_parse kc isoNow options tr) = Ok r ->
      commands r = map renderCall calls /\
      summary r = summarizeIssues (issues r) /\
      timestamp r = isoNow.
Proof.
  destruct (activeFiltersOf_cons options) as (f & fs & HF).
  assert (HF' : activeFiltersOf options <> []) by (rewrite HF; discriminate).
  unfold analyze. unfold bindRun.
  destruct (allNamespaces options) eqn:Hflag.
  - rewrite analyzeAll_eq.
    exists [invocationOf (clusterScope (activeFiltersOf options))].
    split; [now destruct (callOutcome _ _ _ _)|]. split; [discriminate|].
    split; [repeat constructor; now apply analysisCall_cluster|].
    intros r. destruct (callOutcome _ _ _ _); cbn [fst ret]; [|discriminate].
    intros E; injection E as <-. repeat split.
  - destruct (namespaces options) as [[|n ns]|] eqn:Hlist.
    + rewrite analyzeAll_eq.
      exists [invocationOf (clusterScope (activeFiltersOf options))].
      split; [now destruct (callOutcome _ _ _ _)|]. split; [discriminate|].
      split; [repeat constructor; now apply analysisCall_cluster|].
      intros r. destruct (callOutcome _ _ _ _); cbn [fst ret]; [|discriminate].
      intros E; injection E as <-. repeat split.
    + destruct (namespaces_loop_calls tool JSON_parse (activeFiltersOf options)
                  (n :: ns) ([], []) tr) as (k & Hk & Hpos & Htrace & Hok).
      exists (firstn k (map (fun x => invocationOf
                                        (namespaceScope (activeFiltersOf options) x))
                            (n :: ns))).
      split; [|split; [|split]].
      * rewrite <- Htrace. now destruct (forOfRun _ _ _ _) as [[st|e] tr'].
      * assert (1 <= k) by (apply Hpos; discriminate).
        destruct k; [lia | discriminate].
      * apply Forall_firstn, Forall_forall. intros inv Hin.
        apply in_map_iff in Hin as (x & <- & _). now apply analysisCall_namespace.
      * intros r. destruct (forOfRun _ _ _ _) as [[st|e] tr'] eqn:Hloop;
          cbn [fst ret]; [|discriminate].
        intros E; injection E as <-. cbn [commands summary issues timestamp].
        destruct (Hok st eq_refl) as [-> ->].
        rewrite <- (length_map (fun x => invocationOf
                                 (namespaceScope (activeFiltersOf options) x))),
          firstn_all, map_map.
        repeat split.
    + rewrite analyzeAll_eq.
      exists [invocationOf (clusterScope (activeFiltersOf options))].
      split; [now destruct (callOutcome _ _ _ _)|]. split; [discriminate|].
      split; [repeat constructor; now apply analysisCall_cluster|].
      intros r. destruct (callOutcome _ _ _ _); cbn [fst ret]; [|discriminate].
      intros E; injection E as <-. repeat split.
Qed.

Lemma analyze_audit_trail_witness :
  exists calls,
    snd (analyze toolHealthy parseSample kcDev "2024-01-01T00:00:00.000Z"
           twoNamespaces []) = calls /\
    calls <> [] /\
    Forall (analysisCall ["Pod"]) calls.
Proof.
  destruct (analyze_audit_trail toolHealthy parseSample kcDev
              "2024-01-01T00:00:00.000Z" twoNamespaces [])
    as (calls & Htrace & Hne & Hshape & _).
  exists calls. split; [exact Htrace|]. split; [exact Hne | exact Hshape].
Defined.

(* ------------------------------------------------------------------ *)
(** ** Order and stability of the event issues *)

Lemma mapHas_member (k : string) (m : EventMap) :
  mapHas k m = member k (map fst m).
Proof.
  unfold mapHas, member. induction m as [|[k' v] m IH]; cbn [mapGet map fst existsb].
  - reflexivity.
  - destruct (String.eqb k k'); [reflexivity | exact IH].
Qed.

Lemma dedupStep_keys (m : EventMap) (e : CoreV1Event) :
  map fst (dedupStep m e) =
  if member (eventKey e) (map fst m) then map fst m
  else map fst m ++ [eventKey e].
Proof.
  unfold dedupStep, replaces. rewrite <- mapHas_member.
  destruct (mapHas (eventKey e) m) eqn:Hhas; cbn [negb orb].
  - match goal with |- context [if ?c then _ else _] => destruct c end;
      [rewrite mapSet_keys, Hhas|]; reflexivity.
  - now rewrite mapSet_keys, Hhas.
Qed.

Lemma fold_dedupStep_keys (events : list CoreV1Event) :
  forall m : EventMap,
    map fst (fold_left dedupStep events m) =
    map fst m ++ firstOccurrencesFrom (map fst m) (map eventKey events).
Proof.
  induction events as [|e events IH]; intros m; cbn [fold_left map firstOccurrencesFrom].
  - now rewrite app_nil_r.
  - rewrite IH, dedupStep_keys.
    destruct (member (eventKey e) (map fst m)); [reflexivity|].
    now rewrite <- app_assoc.
Qed.

Lemma relevantEvents_deduplicated (now : Z) (events : list CoreV1Event) :
  deduplicated (relevantEvents now events)
    (uniqueEvents (relevantEvents now events)).
Proof.
  apply uniqueEvents_deduplicated, errorEvents_timed, recentEvents_timed.
Qed.

(** X7.  The event issues of a pod come in the order in which their keys
    first occur among the warnings and errors of the last hour, one issue
    for each key, each made of an event of that list. *)
Theorem podEventIssues_order (now : Z) (podName podNamespace : string)
  (events : list CoreV1Event) :
  exists kept,
    podEventIssues now podName podNamespace events =
      map (eventIssue podName podNamespace) kept /\
    map eventKey kept =
      firstOccurrences (map eventKey (relevantEvents now events)) /\
    NoDup (map eventKey kept) /\
    Forall (fun v => In v (relevantEvents now events)) kept /\
    List.length (podEventIssues now podName podNamespace events) =
      List.length (firstOccurrences (map eventKey (relevantEvents now events))).
Proof.
  exists (mapValues (uniqueEvents (relevantEvents now events))).
  assert (Hd := relevantEvents_deduplicated now events).
  assert (Hkeys : map eventKey (mapValues (uniqueEvents (relevantEvents now events)))
                  = firstOccurrences (map eventKey (relevantEvents now events))).
  { rewrite <- (entries_keyed _ _ Hd). unfold uniqueEvents.
    now rewrite fold_dedupStep_keys. }
  split; [reflexivity|]. split; [exact Hkeys|]. split; [|split].
  - rewrite <- (entries_keyed _ _ Hd). apply Hd.
  - apply Forall_forall. intros v Hv. apply In_mapValues in Hv as [k Hin].
    destruct Hd as (Hnd & Hrep & _). now apply (Hrep k v), In_mapGet.
  - unfold podEventIssues. fold (relevantEvents now events).
    now rewrite length_map, <- Hkeys, length_map.
Qed.





(* ------------------------------------------------------------------ *)
(** ** Recommendations *)

Import K8sGPTQueries Collectors Terms.

Local Open Scope nat_scope.

Lemma filterResult_textual (l : list Issue) :
  Forall textual l ->
  filterResult (fun i => includesRestart (problem i)) l =
  Ok (filter (fun i => match problem i with
                       | VStr s => JsString.includes "restart" s
                       | _ => false
                       end) l).
Proof.
  induction 1 as [|i l [text Hi] _ IH]; cbn [filterResult filter]; [reflexivity|].
  rewrite Hi, IH. cbn [includesRestart bind].
  now destruct (JsString.includes "restart" text).
Qed.

Lemma filter_nonempty {A : Type} (p : A -> bool) (l : list A) :
  (0 <? List.length (filter p l)) = true <-> exists x, In x l /\ p x = true.
Proof.
  rewrite Nat.ltb_lt. split.
  - intros H. destruct (filter p l) as [|x xs] eqn:Hf; [cbn in H; lia|].
    exists x. apply filter_In. rewrite Hf. now left.
  - intros (x & Hx & Hp). assert (Hin : In x (filter p l)) by now apply filter_In.
    destruct (filter p l); [contradiction | cbn; lia].
Qed.

(** What [getRecommendations] returns for issues with a text for a problem. *)
Lemma getRecommendations_textual (l : list Issue) :
  Forall textual l ->
  getRecommendations l =
  Ok (((if 0 <? criticalCount (summarizeIssues l) then [adviceCritical] else [])
       ++ (if 5 <? warningCount (summarizeIssues l) then [adviceWarnings] else []))
      ++ (if 0 <? List.length
                    (filter (fun i => match problem i with
                                      | VStr s => JsString.includes "restart" s
                                      | _ => false
                                      end) l)
          then [adviceRestarts] else [])).
Proof.
  intros H. unfold getRecommendations. now rewrite (filterResult_textual l H).
Qed.

(** X9.  For issues whose problem is a text, [getRecommendations] does not
    throw and gives at most three distinct recommendations: the one on
    critical issues exactly when the summary counts a critical issue, the
    one on warnings exactly when it counts more than five warnings, and the
    one on restarts exactly when a problem contains "restart" in lower
    case. *)
Theorem getRecommendations_summary (l : list Issue) :
  Forall textual l ->
  exists recs,
    getRecommendations l = Ok recs /\
    (In adviceCritical recs <-> 0 < criticalCount (summarizeIssues l)) /\
    (In adviceWarnings recs <-> 5 < warningCount (summarizeIssues l)) /\
    (In adviceRestarts recs <-> exists i, In i l /\ aboutRestart i) /\
    NoDup recs /\
    List.length recs <= 3.
Proof.
  intros H. rewrite (getRecommendations_textual l H). eexists. split; [reflexivity|].
  rewrite <- !Nat.ltb_lt.
  assert (Hr : (0 <? List.length
                        (filter (fun i => match problem i with
                                          | VStr s => JsString.includes "restart" s
                                          | _ => false
                                          end) l)) = true
               <-> exists i, In i l /\ aboutRestart i).
  { rewrite filter_nonempty. split.
    - intros (i & Hi & Hp). exists i. split; [exact Hi|].
      destruct (problem i) eqn:E; try discriminate. now exists s.
    - intros (i & Hi & text & E & Hp). exists i. split; [exact Hi|]. now rewrite E. }
  rewrite <- Hr.
  destruct (0 <? criticalCount (summarizeIssues l)),
           (5 <? warningCount (summarizeIssues l)),
           (0 <? List.length _);
    cbn [app In List.length];
    (split; [|split; [|split; [|split]]]);
    try (split; intros; intuition (try discriminate; try congruence));
    try lia;
    repeat constructor; cbn [In]; intuition discriminate.
Qed.

Lemma getRecommendations_summary_witness :
  exists recs,
    getRecommendations (issuesOfA ++ issuesOfB) = Ok recs /\
    In adviceCritical recs /\
    ~ In adviceWarnings recs /\
    In adviceRestarts recs.
Proof.
  assert (Ht : Forall textual (issuesOfA ++ issuesOfB)).
  { repeat constructor; eexists; reflexivity. }
  destruct (getRecommendations_summary (issuesOfA ++ issuesOfB) Ht)
    as (recs & Hrun & Hc & Hw & Hr & _).
  exists recs. split; [exact Hrun|]. split; [|split].
  - apply Hc. vm_compute. lia.
  - intros Hin. apply Hw in Hin. vm_compute in Hin. lia.
  - apply Hr. eexists. split; [left; reflexivity|]. eexists. split; reflexivity.
Defined.

Lemma normalized_textual {engine : Engine} (l : list Issue) :
  Forall normalized l -> Forall textual l.
Proof.
  apply Forall_impl. intros i (text & H & _). now exists text.
Qed.

Lemma callOutcome_normalized {engine : Engine}
  (tool : Tool) (JSON_parse : string -> option value)
  (k : nat) (inv : Invocation) (l : list Issue) :
  callOutcome tool JSON_parse k inv = Ok l -> Forall normalized l.
Proof.
  unfold callOutcome.
  destruct (tool k inv) as [out|]; cbn [bind]; [|discriminate].
  destruct (parseJSON JSON_parse (fst out)) as [v|]; cbn [bind]; [|discriminate].
  unfold convertK8sGPTToIssues.
  destruct (Js.getProp v "results") as [r|]; cbn [bind]; [|discriminate].
  destruct (negb (Js.truthy r) || negb (Js.isArray r)).
  - intros E; injection E as <-. constructor.
  - destruct r; try (intros E; injection E as <-; constructor).
    apply (forOf_preserves (Forall normalized)); [|constructor].
    intros a f a' Ha. now apply convertResult_normalized.
Qed.

Lemma callsFrom_normalized {engine : Engine}
  (tool : Tool) (JSON_parse : string -> option value)
  (F : list string) (nss : list string) :
  forall (k : nat) (outs : list (list Issue)),
    callsFrom tool JSON_parse F k nss = map Ok outs ->
    Forall normalized (List.concat outs).
Proof.
  induction nss as [|ns nss IH]; intros k outs H; cbn [callsFrom] in H.
  - destruct outs; [constructor | discriminate].
  - destruct outs as [|l outs]; [discriminate|]. cbn [map] in H.
    injection H as Hl Hrest. cbn [List.concat]. apply Forall_app. split.
    + exact (callOutcome_normalized tool JSON_parse k _ l Hl).
    + exact (IH (S k) outs Hrest).
Qed.

Lemma analyze_normalized {engine : Engine}
  (tool : Tool) (JSON_parse : string -> option value)
  (kc : KubeConfig) (isoNow : string) (options : AnalyzeOptions)
  (tr : list Invocation) (r : AnalysisResult) :
  fst (analyze tool JSON_parse kc isoNow options tr) = Ok r ->
  Forall normalized (issues r).
Proof.
  unfold analyze, bindRun.
  assert (Hall : forall st,
             fst (match analyzeAll tool JSON_parse (activeFiltersOf options) st tr with
                  | (Ok x, tr') =>
                      ret {| timestamp := isoNow; cluster := clusterDisplayName kc;
                             issues := fst x; summary := summarizeIssues (fst x);
                             commands := snd x |} tr'
                  | (Throw e, tr') => (Throw e, tr')
                  end) = Ok r -> Forall normalized (issues r)).
  { intros st. rewrite analyzeAll_eq.
    destruct (callOutcome _ _ _ _) as [l|e] eqn:Hcall; cbn [fst ret]; [|discriminate].
    intros E; injection E as <-. cbn [issues fst].
    now apply (callOutcome_normalized tool JSON_parse _ _ l Hcall). }
  destruct (allNamespaces options); [apply Hall|].
  destruct (namespaces options) as [[|n ns]|]; try apply Hall.
  destruct (forOfRun _ _ _ _) as [[st|e] tr'] eqn:Hloop; cbn [fst ret]; [|discriminate].
  intros E; injection E as <-. cbn [issues].
  apply namespaces_loop_ok in Hloop as (_ & _ & outs & Hcalls & -> & _).
  cbn [fst app]. now apply (callsFrom_normalized tool JSON_parse _ _ _ _ Hcalls).
Qed.

(** X10.  Every issue of an analysis result is a normalized one (a text
    for a problem, the severity of that text, a solution), and the
    recommendations for the issues of an analysis result can always be
    computed: [getRecommendations] does not throw on them. *)
Theorem analyze_recommendations {engine : Engine}
  (tool : Tool) (JSON_parse : string -> option value)
  (kc : KubeConfig) (isoNow : string) (options : AnalyzeOptions)
  (tr : list Invocation) (r : AnalysisResult) :
  fst (analyze tool JSON_parse kc isoNow options tr) = Ok r ->
  Forall normalized (issues r) /\
  exists recs, getRecommendations (issues r) = Ok recs.
Proof.
  intros H. apply analyze_normalized in H. split; [exact H|].
  rewrite (getRecommendations_textual _ (normalized_textual _ H)). eauto.
Qed.

Lemma analyze_recommendations_witness :
  exists r recs,
    fst (analyze toolHealthy parseSample kcDev "2024-01-01T00:00:00.000Z"
           twoNamespaces []) = Ok r /\
    getRecommendations (issues r) = Ok recs.
Proof.
  assert (Hrun : exists r,
             fst (analyze toolHealthy parseSample kcDev "2024-01-01T00:00:00.000Z"
                    twoNamespaces []) = Ok r).
  { eexists. vm_compute. reflexivity. }
  destruct Hrun as [r Hr].
  destruct (analyze_recommendations toolHealthy parseSample kcDev
              "2024-01-01T00:00:00.000Z" twoNamespaces [] r Hr)
    as (_ & recs & Hrecs).
  exists r, recs. split; [exact Hr | exact Hrecs].
Defined.

(** X11.  More issues never take a recommendation away: what is
    recommended for a list of issues is still recommended for that list
    followed by further issues. *)
Theorem getRecommendations_monotone (l l' : list Issue) (recs recs' : list string) :
  Forall textual l -> Forall textual l' ->
  getRecommendations l = Ok recs ->
  getRecommendations (l ++ l') = Ok recs' ->
  incl recs recs'.
Proof.
  intros Hl Hl'.
  rewrite (getRecommendations_textual l Hl).
  rewrite (getRecommendations_textual (l ++ l')) by (apply Forall_app; now split).
  unfold summarizeIssues; cbn [criticalCount warningCount].
  rewrite !filter_app, !length_app.
  intros E E'; injection E as <-; injection E' as <-.
  repeat match goal with
         | |- context [?a <? ?b] =>
             let H := fresh "B" in destruct (a <? b) eqn:H;
             [apply Nat.ltb_lt in H | apply Nat.ltb_ge in H]
         end;
    try lia; cbn [app]; intros x Hx; cbn [In] in *; intuition.
Qed.

Lemma getRecommendations_monotone_witness :
  incl [adviceCritical; adviceRestarts] [adviceCritical; adviceRestarts].
Proof.
  apply (getRecommendations_monotone issuesOfA issuesOfB).
  - repeat constructor; eexists; reflexivity.
  - repeat constructor; eexists; reflexivity.
  - reflexivity.
  - reflexivity.
Defined.

(* ------------------------------------------------------------------ *)
(** ** Version and backend of the tool *)

Lemma takeWhile_allChars (p : ascii -> bool) (s : string) :
  allChars p (takeWhile p s) = true.
Proof.
  induction s as [|c s IH]; cbn [takeWhile]; [reflexivity|].
  destruct (p c) eqn:Hc; [cbn [allChars]; now rewrite Hc | reflexivity].
Qed.

Lemma firstMatch_preserves (P : string -> Prop) (tryAt : string -> option string) :
  (forall s g, tryAt s = Some g -> P g) ->
  forall s g, firstMatch tryAt s = Some g -> P g.
Proof.
  intros Hat. induction s as [|c s IH]; intros g; cbn [firstMatch].
  - destruct (tryAt "") eqn:E; [|discriminate]. intros H; injection H as <-. eauto.
  - destruct (tryAt (String c s)) eqn:E.
    + intros H; injection H as <-. eauto.
    + apply IH.
Qed.

Lemma versionAt_shape {engine : Engine} (s g : string) :
  versionAt s = Some g -> g <> ""%string /\ allChars isVersionChar g = true.
Proof.
  unfold versionAt. destruct (stripPrefix "k8sgpt:" s) as [rest|]; [|discriminate].
  cbv zeta. destruct (String.eqb (skipWhiteSpace rest) rest); [discriminate|].
  destruct (takeWhile isVersionChar (skipWhiteSpace rest)) eqn:Hrun; [discriminate|].
  intros H; injection H as <-. split; [discriminate|].
  rewrite <- Hrun. apply takeWhile_allChars.
Qed.

Lemma providerAt_shape {engine : Engine} (s g : string) :
  providerAt s = Some g -> g <> ""%string /\ allChars isWordChar g = true.
Proof.
  unfold providerAt. destruct s as [|c rest]; [discriminate|].
  destruct (Ascii.eqb c ">"); [|discriminate].
  destruct (takeWhile isWordChar (skipWhiteSpace rest)) eqn:Hrun; [discriminate|].
  intros H; injection H as <-. split; [discriminate|].
  rewrite <- Hrun. apply takeWhile_allChars.
Qed.

(** X12.  [getVersion] never throws and calls the tool exactly once, as
    [k8sgpt version]; it answers "unknown" when the call fails, and
    otherwise "unknown" or a version that is not empty and made of digits
    and dots only. *)
Theorem getVersion_answer {engine : Engine}
  (tool : Tool) (tr : list Invocation) :
  snd (getVersion tool tr) = tr ++ [ {| file := "k8sgpt"; args := ["version"] |} ] /\
  (exists v,
     fst (getVersion tool tr) = Ok v /\
     (v = "unknown"%string \/
      (v <> ""%string /\ allChars isVersionChar v = true))) /\
  (forall e,
     tool (List.length tr) {| file := "k8sgpt"; args := ["version"] |} = Throw e ->
     fst (getVersion tool tr) = Ok "unknown"%string).
Proof.
  unfold getVersion, tryCatch, bindRun, execFileAsync, ret.
  destruct (tool (List.length tr) _) as [[stdout stderr]|e0] eqn:Hcall; cbn [fst snd].
  - destruct (firstMatch versionAt stdout) as [v|] eqn:Hm; cbn [fst snd].
    + split; [reflexivity|]. split; [|discriminate].
      exists v. split; [reflexivity|]. right.
      exact (firstMatch_preserves _ versionAt versionAt_shape stdout v Hm).
    + split; [reflexivity|]. split; [|discriminate].
      exists "unknown"%string. split; [reflexivity | now left].
  - split; [reflexivity|]. split; [|reflexivity].
    exists "unknown"%string. split; [reflexivity | now left].
Qed.

Lemma getVersion_answer_witness :
  fst (getVersion toolMissing []) = Ok "unknown"%string.
Proof.
  destruct (getVersion_answer toolMissing []) as (_ & _ & Hfail).
  exact (Hfail (ExecError (Some "ENOENT") "spawn k8sgpt ENOENT") eq_refl).
Defined.

(** The output the source quotes: "k8sgpt: 0.4.23 (00c99dc), built at:
    unknown". *)
Example getVersion_sample :
  fst (getVersion (fun _ _ => Ok ("k8sgpt: 0.4.23 (00c99dc), built at: unknown", ""))
         []) = Ok "0.4.23"%string.
Proof. vm_compute. reflexivity. Qed.

Lemma firstMatch_providerAt_includes {engine : Engine} (line p : string) :
  firstMatch providerAt line = Some p -> JsString.includes ">" line = true.
Proof.
  induction line as [|c line IH]; cbn [firstMatch providerAt]; [discriminate|].
  cbn [JsString.includes JsString.startsWith].
  destruct (Ascii.eqb c ">") eqn:Hc.
  - intros _. rewrite eqb_sym, Hc. reflexivity.
  - intros H. rewrite (IH H). apply orb_true_r.
Qed.

Lemma scanLines_unguarded {engine : Engine} (lines : list string) :
  scanLines lines = scanLinesUnguarded lines.
Proof.
  induction lines as [|line lines IH]; cbn [scanLines scanLinesUnguarded];
    [reflexivity|].
  destruct (firstMatch providerAt line) as [p|] eqn:Hm.
  - rewrite (firstMatch_providerAt_includes line p Hm), !orb_true_r. reflexivity.
  - rewrite IH. now destruct (_ || _ || _).
Qed.

Lemma scanLinesUnguarded_shape {engine : Engine}
  (lines : list string) (p : string) :
  scanLinesUnguarded lines = Some p ->
  p <> ""%string /\ allChars isWordChar p = true.
Proof.
  induction lines as [|line lines IH]; cbn [scanLinesUnguarded]; [discriminate|].
  destruct (firstMatch providerAt line) as [q|] eqn:Hm; [|exact IH].
  intros H; injection H as <-.
  exact (firstMatch_preserves _ providerAt providerAt_shape line q Hm).
Qed.

(** X13.  [getBackendInfo] never throws and calls the tool exactly once,
    as [k8sgpt auth list]; it never names a model; its provider is
    "localai" or a word that is not empty; and its tests for "Active:" and
    "Default:" change nothing: the provider is the word after the first
    ">" followed by a word, on the first line that has one, whatever else
    the lines say. *)
Theorem getBackendInfo_answer {engine : Engine}
  (tool : Tool) (tr : list Invocation) :
  snd (getBackendInfo tool tr) =
    tr ++ [ {| file := "k8sgpt"; args := ["auth"; "list"] |} ] /\
  (exists b,
     fst (getBackendInfo tool tr) = Ok b /\
     model b = None /\
     (provider b = "localai"%string \/
      (provider b <> ""%string /\ allChars isWordChar (provider b) = true))) /\
  (forall stdout stderr,
     tool (List.length tr) {| file := "k8sgpt"; args := ["auth"; "list"] |}
       = Ok (stdout, stderr) ->
     fst (getBackendInfo tool tr) =
       Ok {| provider :=
               match scanLinesUnguarded (JsString.split lineFeed stdout) with
               | Some p => p
               | None => "localai"%string
               end;
             model := None |}) /\
  (forall e,
     tool (List.length tr) {| file := "k8sgpt"; args := ["auth"; "list"] |} = Throw e ->
     fst (getBackendInfo tool tr) = Ok {| provider := "localai"; model := None |}).
Proof.
  unfold getBackendInfo, tryCatch, bindRun, execFileAsync, ret.
  destruct (tool (List.length tr) _) as [[stdout stderr]|e0] eqn:Hcall; cbn [fst snd].
  - rewrite scanLines_unguarded.
    destruct (scanLinesUnguarded (JsString.split lineFeed stdout)) as [p|] eqn:Hs;
      cbn [fst snd].
    + split; [reflexivity|]. split; [|split; [|discriminate]].
      * eexists. split; [reflexivity|]. cbn [model provider]. split; [reflexivity|].
        right. exact (scanLinesUnguarded_shape _ p Hs).
      * intros o e E. injection E as <- <-. now rewrite Hs.
    + split; [reflexivity|]. split; [|split; [|discriminate]].
      * eexists. split; [reflexivity|]. cbn [model provider]. split; [reflexivity|].
        now left.
      * intros o e E. injection E as <- <-. now rewrite Hs.
  - split; [reflexivity|]. split; [|split; [discriminate | reflexivity]].
    eexists. split; [reflexivity|]. cbn [model provider]. split; [reflexivity|].
    now left.
Qed.

Import Scenarios.

(** The provider on the sample engine, and after a no-break space on an
    engine that skips it. *)
Lemma getBackendInfo_answer_witness :
  fst (getBackendInfo toolAuthList []) =
    Ok {| provider := "openai"; model := None |} /\
  fst (getBackendInfo toolMissing []) =
    Ok {| provider := "localai"; model := None |} /\
  fst (getBackendInfo (E := widerEngine) toolAuthWide []) =
    Ok {| provider := "openai"; model := None |}.
Proof.
  destruct (getBackendInfo_answer toolAuthList []) as (_ & _ & Hok & _).
  destruct (getBackendInfo_answer toolMissing []) as (_ & _ & _ & Hfail).
  destruct (getBackendInfo_answer (engine := widerEngine) toolAuthWide [])
    as (_ & _ & Hwide & _).
  split; [|split].
  - exact (Hok authListOutput ""%string eq_refl).
  - exact (Hfail (ExecError (Some "ENOENT") "spawn k8sgpt ENOENT") eq_refl).
  - exact (Hwide (">" ++ noBreakSpace ++ "openai")%string ""%string eq_refl).
Defined.

(* ------------------------------------------------------------------ *)
(** ** The direct collectors *)

Lemma In_definedNames (n : string) (items : list V1Namespace) :
  In n (definedNames items) <->
  exists item, In item items /\ nameOf (ns_metadata item) = Some n.
Proof.
  induction items as [|item items IH]; cbn [definedNames In].
  - split; [contradiction | intros (x & [] & _)].
  - destruct (nameOf (ns_metadata item)) as [m|] eqn:Hm; cbn [In]; rewrite ?IH.
    + split.
      * intros [->|(x & Hx & Hn)]; [exists item; auto | exists x; auto].
      * intros (x & [->|Hx] & Hn); [left; congruence | right; exists x; auto].
    + split.
      * intros (x & Hx & Hn). exists x; auto.
      * intros (x & [->|Hx] & Hn); [congruence | exists x; auto].
Qed.

(** X14.  [getNamespaces] never throws: it answers with the names of the
    namespaces that have one, each as often as it is listed, in ascending
    order, and with the empty list when the cluster cannot be asked. *)
Theorem getNamespaces_sorted (api : CoreV1Api) :
  (forall items,
     listNamespace api = Ok items ->
     Sorted (fun a b => String.leb a b = true) (getNamespaces api) /\
     Permutation (definedNames items) (getNamespaces api) /\
     (forall n, In n (getNamespaces api) <->
                exists item, In item items /\ nameOf (ns_metadata item) = Some n)) /\
  (forall e, listNamespace api = Throw e -> getNamespaces api = []).
Proof.
  unfold getNamespaces. split.
  - intros items ->. split; [apply StringSort.Sorted_sort|].
    split; [apply StringSort.Permuted_sort|].
    intros n. rewrite <- In_definedNames. split.
    + apply Permutation_in, Permutation_sym, StringSort.Permuted_sort.
    + apply Permutation_in, StringSort.Permuted_sort.
  - now intros e ->.
Qed.

Lemma getNamespaces_sorted_witness :
  Sorted (fun a b => String.leb a b = true) (getNamespaces apiDefault) /\
  getNamespaces apiDown = [].
Proof.
  destruct (getNamespaces_sorted apiDefault) as [Hok _].
  destruct (getNamespaces_sorted apiDown) as [_ Hfail].
  split.
  - exact (proj1 (Hok threeNamespaces eq_refl)).
  - exact (Hfail forbidden eq_refl).
Defined.

Example getNamespaces_sample :
  getNamespaces apiDefault = ["default"; "kube-system"]%string.
Proof. vm_compute. reflexivity. Qed.

Lemma deployments_summary (deployments : list V1Deployment) :
  total (summarizeIssues (flat_map issuesOfDeployment deployments))
    = countIf underReplicated deployments /\
  criticalCount (summarizeIssues (flat_map issuesOfDeployment deployments))
    = countIf unavailable deployments /\
  criticalCount (summarizeIssues (flat_map issuesOfDeployment deployments))
  + warningCount (summarizeIssues (flat_map issuesOfDeployment deployments))
    = countIf underReplicated deployments /\
  infoCount (summarizeIssues (flat_map issuesOfDeployment deployments)) = 0.
Proof.
  unfold summarizeIssues, countIf; cbn [total criticalCount warningCount infoCount].
  induction deployments as [|d ds IH]; [repeat split|].
  destruct IH as (IH1 & IH2 & IH3 & IH4).
  cbn [flat_map filter]. unfold issuesOfDeployment at 1 3 5 7 9.
  unfold unavailable, underReplicated in *.
  destruct (orZero (status_availableReplicas d) <? orZero (spec_replicas d))%Z;
    [|cbn [app andb]; auto].
  destruct (orZero (status_availableReplicas d) =? 0)%Z;
    cbn [app filter severity Severity_eqb List.length andb];
    repeat split; lia.
Qed.

(** X15.  [analyzeDeployments] reports one issue for each deployment with
    fewer available replicas than desired (absent counts are zero), a
    critical one exactly when no replica is available and a warning
    otherwise, so that its summary counts these deployments; when the
    client cannot be made or the list call fails it reports nothing. *)
Theorem analyzeDeployments_summary (makeAppsApi : result AppsV1Api)
  (options : CollectorOptions) :
  (forall appsApi deployments,
     makeAppsApi = Ok appsApi ->
     deploymentListing appsApi options = Ok deployments ->
     total (summarizeIssues (analyzeDeployments makeAppsApi options))
       = countIf underReplicated deployments /\
     criticalCount (summarizeIssues (analyzeDeployments makeAppsApi options))
       = countIf unavailable deployments /\
     criticalCount (summarizeIssues (analyzeDeployments makeAppsApi options))
     + warningCount (summarizeIssues (analyzeDeployments makeAppsApi options))
       = countIf underReplicated deployments /\
     infoCount (summarizeIssues (analyzeDeployments makeAppsApi options)) = 0) /\
  (forall e, makeAppsApi = Throw e -> analyzeDeployments makeAppsApi options = []) /\
  (forall appsApi e,
     makeAppsApi = Ok appsApi ->
     deploymentListing appsApi options = Throw e ->
     analyzeDeployments makeAppsApi options = []).
Proof.
  unfold analyzeDeployments, deploymentListing. split; [|split].
  - intros appsApi deployments -> ->. apply deployments_summary.
  - now intros e ->.
  - now intros appsApi e -> ->.
Qed.

Lemma analyzeDeployments_summary_witness :
  summarizeIssues (analyzeDeployments (Ok appsDefault) noScope) =
    {| total := 2; criticalCount := 1; warningCount := 1; infoCount := 0 |} /\
  analyzeDeployments (Throw forbidden) noScope = [].
Proof.
  destruct (analyzeDeployments_summary (Ok appsDefault) noScope) as (Hok & _ & _).
  destruct (analyzeDeployments_summary (Throw forbidden) noScope) as (_ & Hfail & _).
  split; [|exact (Hfail forbidden eq_refl)].
  destruct (Hok appsDefault someDeployments eq_refl eq_refl) as (Ht & Hc & Hcw & Hi).
  destruct (summarizeIssues (analyzeDeployments (Ok appsDefault) noScope))
    as [t c w i].
  cbn [total criticalCount warningCount infoCount] in *.
  vm_compute in Ht, Hc, Hcw. subst t c i. f_equal. lia.
Defined.

Lemma issuesOfService_length (s : V1Service) :
  List.length (issuesOfService s) = if unassigned s then 1 else 0.
Proof.
  unfold issuesOfService, unassigned.
  now destruct (optEqb (svc_type s) "LoadBalancer" && _).
Qed.

Lemma issuesOfService_none (s : V1Service) :
  unassigned s = false -> issuesOfService s = [].
Proof.
  unfold issuesOfService, unassigned. now intros ->.
Qed.

Lemma issuesOfService_warning (s : V1Service) :
  Forall (fun i => kind i = VStr "Service" /\ severity i = warning)
         (issuesOfService s).
Proof.
  unfold issuesOfService.
  destruct (optEqb (svc_type s) "LoadBalancer" && _); repeat constructor.
Qed.

(** X16.  [analyzeServices] reports one warning for each load balancer
    service whose status has no ingress field and nothing else: a load
    balancer with an ingress list, even an empty one, is not reported, nor
    is a service of another type; when the list call fails it reports
    nothing. *)
Theorem analyzeServices_unassigned (api : CoreV1Api) (options : CollectorOptions) :
  (forall services,
     serviceListing api options = Ok services ->
     analyzeServices api options =
       flat_map issuesOfService (filter unassigned services) /\
     List.length (analyzeServices api options) = countIf unassigned services /\
     Forall (fun i => kind i = VStr "Service" /\ severity i = warning)
            (analyzeServices api options)) /\
  (forall e,
     serviceListing api options = Throw e -> analyzeServices api options = []).
Proof.
  unfold analyzeServices, serviceListing. split; [|now intros e ->].
  intros services ->. unfold countIf. split; [|split].
  - induction services as [|s services IH]; [reflexivity|].
    cbn [flat_map filter]. destruct (unassigned s) eqn:Hs.
    + cbn [flat_map]. now rewrite IH.
    + now rewrite (issuesOfService_none s Hs), IH.
  - induction services as [|s services IH]; [reflexivity|].
    cbn [flat_map filter]. rewrite length_app, issuesOfService_length, IH.
    now destruct (unassigned s).
  - induction services as [|s services IH]; [constructor|].
    cbn [flat_map]. apply Forall_app. split; [apply issuesOfService_warning | exact IH].
Qed.

Lemma analyzeServices_unassigned_witness :
  List.length (analyzeServices apiDefault noScope) = 1 /\
  analyzeServices apiDown noScope = [].
Proof.
  destruct (analyzeServices_unassigned apiDefault noScope) as [Hok _].
  destruct (analyzeServices_unassigned apiDown noScope) as [_ Hfail].
  split.
  - exact (proj1 (proj2 (Hok someServices eq_refl))).
  - exact (Hfail forbidden eq_refl).
Defined.

Lemma getEventsForPod_failing (api : CoreV1Api) (podName ns : string) :
  (forall n sel, exists e, listNamespacedEvent api n sel = Throw e) ->
  getEventsForPod api podName ns = [].
Proof.
  intros H. unfold getEventsForPod.
  destruct (H ns ("involvedObject.name=" ++ podName ++ ",involvedObject.kind=Pod")%string)
    as [e ->]. reflexivity.
Qed.

(** With the events out of reach, what is left of a turn of the loop is
    what the state of the pod shows. *)
Lemma analyzePods_state_only (api : CoreV1Api) (now : Z) (pods : list V1Pod) :
  (forall ns sel, exists e, listNamespacedEvent api ns sel = Throw e) ->
  flat_map (issuesOfPod api now) pods = flat_map statusIssuesOfPod pods.
Proof.
  intros Hev. apply flat_map_ext. intros pod.
  unfold issuesOfPod, statusIssuesOfPod.
  destruct (namespaceOf (pod_metadata pod)) as [ns|]; [|now rewrite app_nil_r].
  destruct (JsString.truthy ns); [|now rewrite app_nil_r].
  rewrite (getEventsForPod_failing api _ ns Hev).
  unfold podEventIssues. cbn [recentEvents filter errorEvents uniqueEvents fold_left
                                mapValues map].
  now rewrite app_nil_r.
Qed.

Lemma phaseIssues_summary (podName : string) (podNamespace status : option string) :
  summarizeIssues (phaseIssues podName podNamespace status) =
  match status with
  | Some st =>
      if String.eqb st "Failed" || String.eqb st "Unknown"
      then counts 1 1 0 0 else counts 0 0 0 0
  | None => counts 0 0 0 0
  end.
Proof.
  unfold phaseIssues. destruct status as [st|]; [|reflexivity].
  now destruct (String.eqb st "Failed" || String.eqb st "Unknown").
Qed.

Lemma find_existsb {A : Type} (p : A -> bool) (l : list A) :
  existsb p l = match find p l with Some _ => true | None => false end.
Proof.
  induction l as [|x l IH]; [reflexivity|]. cbn [existsb find].
  now destruct (p x).
Qed.

Lemma pendingIssues_summary (podName : string) (podNamespace status : option string)
  (conds : option (list V1PodCondition)) :
  summarizeIssues (pendingIssues podName podNamespace status conds) =
  match status with
  | Some st =>
      if String.eqb st "Pending" &&
         existsb notScheduled (match conds with Some cs => cs | None => [] end)
      then counts 1 0 1 0 else counts 0 0 0 0
  | None => counts 0 0 0 0
  end.
Proof.
  unfold pendingIssues, optEqb. destruct status as [st|]; [|reflexivity].
  destruct (String.eqb st "Pending"); [|reflexivity]. cbn [andb].
  rewrite find_existsb. unfold notScheduled.
  now destruct (find _ _).
Qed.

Lemma restartIssues_summary (podName : string) (podNamespace : option string)
  (statuses : option (list V1ContainerStatus)) :
  summarizeIssues (restartIssues podName podNamespace statuses) =
  let k := countIf (fun c => (5 <? restartCount c)%Z)
                   (match statuses with Some cs => cs | None => [] end) in
  counts k 0 k 0.
Proof.
  unfold restartIssues, countIf. cbv zeta.
  induction (match statuses with Some cs => cs | None => [] end) as [|c cs IH];
    [reflexivity|].
  cbn [flat_map filter]. rewrite summarize_app, IH, Z.gtb_ltb.
  unfold counts; cbn [total criticalCount warningCount infoCount].
  now destruct (5 <? restartCount c)%Z.
Qed.

Lemma statusIssuesOfPod_summary (pod : V1Pod) :
  summarizeIssues (statusIssuesOfPod pod) =
  counts ((if lost pod then 1 else 0) + (if unschedulable pod then 1 else 0)
          + restartingContainers pod)
         (if lost pod then 1 else 0)
         ((if unschedulable pod then 1 else 0) + restartingContainers pod)
         0.
Proof.
  unfold statusIssuesOfPod. cbv zeta.
  rewrite !summarize_app, phaseIssues_summary, pendingIssues_summary,
    restartIssues_summary.
  unfold lost, unschedulable, restartingContainers, phaseOf, conditionsOf, containersOf.
  destruct (pod_status pod) as [[ph conds statuses]|];
    cbn [phase conditions containerStatuses]; [|reflexivity].
  cbv zeta.
  replace (match conds with Some cs => cs | None => [] end)
    with (match conds with Some cs => cs | None => @nil V1PodCondition end)
    by reflexivity.
  destruct ph as [st|];
    [destruct (String.eqb st "Failed" || String.eqb st "Unknown"),
       (String.eqb st "Pending" && existsb notScheduled
          (match conds with Some cs => cs | None => [] end))|];
    destruct statuses; unfold counts;
    cbn [total criticalCount warningCount infoCount]; f_equal; lia.
Qed.

(** X17.  [analyzePods] never throws.  When the pods cannot be listed it
    reports nothing.  When the pods are listed and their events cannot be
    fetched, its summary counts the states of the pods: as many critical
    issues as there are pods in the phase Failed or Unknown, as many
    warnings as there are pending pods with a condition that says they are
    not scheduled plus containers with more than five restarts, and no
    issue of severity info; every issue is about a pod. *)
Theorem analyzePods_state_summary (api : CoreV1Api) (now : Z)
  (options : CollectorOptions) :
  (forall e, podListing api options = Throw e -> analyzePods api now options = []) /\
  (forall pods,
     podListing api options = Ok pods ->
     (forall ns sel, exists e, listNamespacedEvent api ns sel = Throw e) ->
     criticalCount (summarizeIssues (analyzePods api now options))
       = countIf lost pods /\
     warningCount (summarizeIssues (analyzePods api now options))
       = countIf unschedulable pods + list_sum (map restartingContainers pods) /\
     infoCount (summarizeIssues (analyzePods api now options)) = 0 /\
     total (summarizeIssues (analyzePods api now options))
       = countIf lost pods + countIf unschedulable pods
         + list_sum (map restartingContainers pods) /\
     Forall (fun i => kind i = VStr "Pod") (analyzePods api now options)).
Proof.
  unfold analyzePods, podListing. split; [now intros e ->|].
  intros pods -> Hev. split; [|split; [|split; [|split]]].
  1-4: rewrite (analyzePods_state_only api now pods Hev); unfold countIf;
    induction pods as [|pod pods IH]; [reflexivity|];
    cbn [flat_map filter map list_sum List.length];
    rewrite summarize_app, statusIssuesOfPod_summary;
    unfold counts; cbn [total criticalCount warningCount infoCount];
    rewrite IH; destruct (lost pod), (unschedulable pod);
    cbn [List.length]; unfold list_sum; cbn [fold_right]; lia.
  clear Hev. induction pods as [|pod pods IH]; [constructor|].
  cbn [flat_map]. apply Forall_app. split; [|exact IH].
  unfold issuesOfPod. cbv zeta.
  repeat (apply Forall_app; split).
  - unfold phaseIssues. destruct (match pod_status pod with Some _ => _ | None => _ end)
      as [st|]; [|constructor].
    destruct (_ || _); repeat constructor.
  - unfold pendingIssues. destruct (optEqb _ _); [|constructor].
    destruct (find _ _); repeat constructor.
  - unfold restartIssues.
    induction (match match pod_status pod with Some _ => _ | None => _ end with
               | Some cs => cs | None => [] end) as [|c cs IHc]; [constructor|].
    cbn [flat_map]. apply Forall_app. split; [|exact IHc].
    destruct (_ >? _)%Z; repeat constructor.
  - destruct (namespaceOf (pod_metadata pod)) as [ns|]; [|constructor].
    destruct (JsString.truthy ns); [|constructor].
    unfold podEventIssues. apply Forall_forall. intros i Hi.
    apply in_map_iff in Hi as (ev & <- & _). reflexivity.
Qed.

Lemma analyzePods_state_summary_witness :
  summarizeIssues (analyzePods apiDefault sampleNow noScope) =
    {| total := 2; criticalCount := 1; warningCount := 1; infoCount := 0 |} /\
  analyzePods apiDown sampleNow noScope = [].
Proof.
  destruct (analyzePods_state_summary apiDefault sampleNow noScope) as [_ Hok].
  destruct (analyzePods_state_summary apiDown sampleNow noScope) as [Hfail _].
  split; [|exact (Hfail forbidden eq_refl)].
  assert (Hev : forall ns sel,
             exists e, listNamespacedEvent apiDefault ns sel = Throw e).
  { intros ns sel. now exists forbidden. }
  destruct (Hok somePods eq_refl Hev) as (Hc & Hw & Hi & Ht & _).
  destruct (summarizeIssues (analyzePods apiDefault sampleNow noScope))
    as [t c w i].
  cbn [total criticalCount warningCount infoCount] in *.
  vm_compute in Hc, Hw, Ht. now subst t c w i.
Defined.

Example analyzePods_sample :
  map (fun i => (problem i, severity i)) (analyzePods apiDefault sampleNow noScope) =
  [ (VStr "Pod is in Failed state", critical);
    (VStr "Container nginx has 7 restarts", warning) ].
Proof. vm_compute. reflexivity. Qed.

Lemma Forall_flat_map {A B : Type} (P : B -> Prop) (f : A -> list B) (l : list A) :
  (forall x, Forall P (f x)) -> Forall P (flat_map f l).
Proof.
  intros H. induction l as [|x l IH]; cbn [flat_map]; [constructor|].
  apply Forall_app. split; [apply H | exact IH].
Qed.

Lemma podIssue_actionable (podName : string) (podNamespace : option string)
  (text remedy : string) (sev : Severity) :
  sev <> info -> remedy <> ""%string ->
  actionable (podIssue podName podNamespace text remedy sev).
Proof.
  intros Hs Hr. split; [now exists text|]. split; [exact Hs|]. now exists remedy.
Qed.

Lemma issuesOfPod_actionable (api : CoreV1Api) (now : Z) (pod : V1Pod) :
  Forall actionable (issuesOfPod api now pod).
Proof.
  unfold issuesOfPod.
  apply Forall_app; split; [|apply Forall_app; split; [|apply Forall_app; split]].
  - unfold phaseIssues.
    destruct (match pod_status pod with Some s => phase s | None => None end) as [st|];
      [|constructor].
    destruct (String.eqb st "Failed" || String.eqb st "Unknown"); [|constructor].
    constructor; [|constructor]. apply podIssue_actionable; discriminate.
  - unfold pendingIssues. destruct (optEqb _ "Pending"); [|constructor].
    destruct (find _ _); [|constructor].
    constructor; [|constructor]. apply podIssue_actionable; discriminate.
  - unfold restartIssues. apply Forall_flat_map. intros c.
    destruct (restartCount c >? 5)%Z; [|constructor].
    constructor; [|constructor]. apply podIssue_actionable; discriminate.
  - destruct (namespaceOf (pod_metadata pod)) as [ns|]; [|constructor].
    destruct (JsString.truthy ns); [|constructor].
    unfold podEventIssues. apply Forall_forall. intros i Hi.
    apply in_map_iff in Hi as (e & <- & _). unfold eventIssue.
    split; [eexists; reflexivity|]. cbn [severity solution]. split.
    + destruct (optEqb (type e) "Error"); discriminate.
    + eexists. split; [reflexivity | discriminate].
Qed.

Lemma issuesOfService_actionable (s : V1Service) :
  Forall actionable (issuesOfService s).
Proof.
  unfold issuesOfService.
  destruct (optEqb (svc_type s) "LoadBalancer" && _); [|constructor].
  constructor; [|constructor].
  split; [eexists; reflexivity|]. cbn [severity solution]. split; [discriminate|].
  eexists. split; [reflexivity | discriminate].
Qed.

Lemma issuesOfDeployment_actionable (d : V1Deployment) :
  Forall actionable (issuesOfDeployment d).
Proof.
  unfold issuesOfDeployment.
  destruct (orZero (status_availableReplicas d) <? orZero (spec_replicas d))%Z;
    [|constructor].
  constructor; [|constructor].
  split; [eexists; reflexivity|]. cbn [severity solution]. split.
  - destruct (orZero (status_availableReplicas d) =? 0)%Z; discriminate.
  - eexists. split; [reflexivity | discriminate].
Qed.

Lemma actionable_no_info (l : list Issue) :
  Forall actionable l -> infoCount (summarizeIssues l) = 0.
Proof.
  unfold summarizeIssues; cbn [infoCount].
  induction 1 as [|i l (_ & Hs & _) _ IH]; [reflexivity|].
  cbn [filter]. destruct (severity i); cbn [Severity_eqb]; [exact IH | exact IH|].
  now contradiction Hs.
Qed.

(** X18.  What the three direct collectors report is always actionable:
    every issue has a text for a problem, a solution that is not empty and
    the severity critical or warning, never info; so the summary of their
    issues counts no info issue, and the recommendations for them can
    always be computed. *)
Theorem collectors_actionable (api : CoreV1Api) (makeAppsApi : result AppsV1Api)
  (now : Z) (options : CollectorOptions) :
  Forall actionable
    (analyzePods api now options ++ analyzeServices api options
     ++ analyzeDeployments makeAppsApi options) /\
  infoCount
    (summarizeIssues
       (analyzePods api now options ++ analyzeServices api options
        ++ analyzeDeployments makeAppsApi options)) = 0 /\
  exists recs,
    getRecommendations
      (analyzePods api now options ++ analyzeServices api options
       ++ analyzeDeployments makeAppsApi options) = Ok recs.
Proof.
  assert (H : Forall actionable
                (analyzePods api now options ++ analyzeServices api options
                 ++ analyzeDeployments makeAppsApi options)).
  { apply Forall_app; split; [|apply Forall_app; split].
    - change (analyzePods api now options)
        with (match podListing api options with
              | Ok pods => flat_map (issuesOfPod api now) pods
              | Throw _ => []
              end).
      destruct (podListing api options); [|constructor].
      apply Forall_flat_map, issuesOfPod_actionable.
    - change (analyzeServices api options)
        with (match serviceListing api options with
              | Ok services => flat_map issuesOfService services
              | Throw _ => []
              end).
      destruct (serviceListing api options); [|constructor].
      apply Forall_flat_map, issuesOfService_actionable.
    - unfold analyzeDeployments. destruct makeAppsApi as [appsApi|]; [|constructor].
      fold (deploymentListing appsApi options).
      destruct (deploymentListing appsApi options); [|constructor].
      apply Forall_flat_map, issuesOfDeployment_actionable. }
  split; [exact H|]. split; [now apply actionable_no_info|].
  rewrite getRecommendations_textual; [eauto|].
  eapply Forall_impl; [|exact H]. now intros i [Ht _].
Qed.

(* ------------------------------------------------------------------ *)
(** ** The command line *)

Section CommandLine.

Context {engine : Engine}.

Variable tool : Tool.
Variable JSON_parse : string -> option value.
Variable isoNow : string.
Variable trim : string -> string.



End CommandLine.



(* ------------------------------------------------------------------ *)
(** ** The route of the server *)

Section Route.

Context {engine : Engine}.

Variable tool : Tool.
Variable JSON_parse : string -> option value.
Variable isoNow : string.
Variable trim : string -> string.

Lemma getAnalyze_unconfigured (e : exn) (q : Server.AnalyzeQuery)
  (tr : list Invocation) :
  Server.getAnalyze tool JSON_parse (Throw e) isoNow trim q tr =
  (Ok (Server.Json500 e), tr).
Proof. reflexivity. Qed.

Lemma getAnalyze_eq (kc : KubeConfig) (q : Server.AnalyzeQuery)
  (tr : list Invocation) :
  Server.getAnalyze tool JSON_parse (Ok kc) isoNow trim q tr =
  (Ok (match fst (analyze tool JSON_parse kc isoNow (Server.requestOf trim q) tr) with
       | Ok r => Server.Json200 r
       | Throw e => Server.Json500 e
       end),
   snd (analyze tool JSON_parse kc isoNow (Server.requestOf trim q) tr)).
Proof.
  unfold Server.getAnalyze, tryCatch, bindRun, liftResult, ret.
  now destruct (analyze tool JSON_parse kc isoNow (Server.requestOf trim q) tr)
    as [[r|e] tr'].
Qed.

Lemma namespaceList_named (q : Server.AnalyzeQuery) (l : list string) :
  Server.namespaceList trim q = Some l -> Forall (fun ns => ns <> ""%string) l.
Proof.
  assert (Hone : forall l0,
             match Server.q_namespace q with
             | Server.QString n => if JsString.truthy n then Some [n] else None
             | _ => None
             end = Some l0 -> Forall (fun ns => ns <> ""%string) l0).
  { intros l0. destruct (Server.q_namespace q) as [|n|]; try discriminate.
    destruct n; cbn [JsString.truthy]; [discriminate|].
    intros H; injection H as <-. constructor; [discriminate | constructor]. }
  unfold Server.namespaceList.
  destruct (Server.q_namespaces q) as [|s|]; try apply Hone.
  destruct (JsString.truthy s); [|apply Hone].
  intros H; injection H as <-. apply Forall_forall. intros ns Hns.
  apply filter_In in Hns as [_ Hlen]. destruct ns; [discriminate Hlen | discriminate].
Qed.

Lemma invocationOf_named (F : list string) (ns : string) :
  F <> [] -> ns <> ""%string ->
  invocationOf (namespaceScope F ns) =
  {| file := "k8sgpt";
     args := ["analyze"; "--output=json";
              ("--filter=" ++ JsString.join "," F)%string;
              ("--namespace=" ++ ns)%string] |}.
Proof.
  intros HF Hns. unfold invocationOf, namespaceScope, buildArgs.
  cbn [run_filters run_namespace]. destruct F; [now contradiction HF|].
  destruct ns; [now contradiction Hns | reflexivity].
Qed.

End Route.

(** X20.  The route [GET /api/analyze] always answers.  When the analyzer
    cannot be made (no active cluster) it answers with status 500 and the
    error, and has called nothing.  Otherwise it answers with the result of
    [analyze], or with status 500 and the error when [analyze] throws.  A
    namespace it passes on is never empty, so that with the flag off and
    a list that is not empty every call of the tool names its namespace,
    and at least one call is made; and when the [namespaces] parameter
    holds only blanks and commas, the list is empty, the [namespace]
    parameter is not looked at, and the whole cluster is analyzed by a
    single call. *)
Theorem getAnalyze_scope {engine : Engine}
  (tool : Tool) (JSON_parse : string -> option value)
  (newAnalyzer : result KubeConfig) (isoNow : string) (trim : string -> string)
  (q : Server.AnalyzeQuery) (tr : list Invocation) :
  (forall e,
     newAnalyzer = Throw e ->
     Server.getAnalyze tool JSON_parse newAnalyzer isoNow trim q tr =
       (Ok (Server.Json500 e), tr)) /\
  (forall kc,
     newAnalyzer = Ok kc ->
     Server.getAnalyze tool JSON_parse newAnalyzer isoNow trim q tr =
       (Ok (match fst (analyze tool JSON_parse kc isoNow (Server.requestOf trim q) tr)
            with
            | Ok r => Server.Json200 r
            | Throw e => Server.Json500 e
            end),
        snd (analyze tool JSON_parse kc isoNow (Server.requestOf trim q) tr)) /\
     (forall n ns,
        Server.allRequested q = false ->
        Server.namespaceList trim q = Some (n :: ns) ->
        exists k,
          1 <= k <= List.length (n :: ns) /\
          snd (Server.getAnalyze tool JSON_parse newAnalyzer isoNow trim q tr) =
          tr ++ firstn k
                  (map (fun x =>
                          {| file := "k8sgpt";
                             args := ["analyze"; "--output=json";
                                      ("--filter=" ++
                                       JsString.join ","
                                         (activeFiltersOf
                                            (Server.requestOf trim q)))%string;
                                      ("--namespace=" ++ x)%string] |})
                       (n :: ns))) /\
     (forall s,
        Server.q_namespaces q = Server.QString s ->
        s <> ""%string ->
        Forall (fun x => trim x = ""%string) (JsString.split "," s) ->
        snd (Server.getAnalyze tool JSON_parse newAnalyzer isoNow trim q tr) =
          tr ++ [invocationOf
                   (clusterScope (activeFiltersOf (Server.requestOf trim q)))])) /\
  (forall s,
     Server.q_namespaces q = Server.QString s ->
     s <> ""%string ->
     Forall (fun x => trim x = ""%string) (JsString.split "," s) ->
     Server.namespaceList trim q = Some []) /\
  (exists answer,
     fst (Server.getAnalyze tool JSON_parse newAnalyzer isoNow trim q tr) = Ok answer).
Proof.
  assert (Hblanks : forall s,
             Server.q_namespaces q = Server.QString s ->
             s <> ""%string ->
             Forall (fun x => trim x = ""%string) (JsString.split "," s) ->
             Server.namespaceList trim q = Some []).
  { intros s Hs Hne Hblank. unfold Server.namespaceList. rewrite Hs.
    destruct s; [now contradiction Hne|]. cbn [JsString.truthy]. f_equal.
    induction Hblank as [|x xs Hx _ IH]; [reflexivity|].
    cbn [map filter]. rewrite Hx. exact IH. }
  split; [|split; [|split]].
  - intros e ->. apply getAnalyze_unconfigured.
  - intros kc ->. split; [apply getAnalyze_eq|]. split.
    + intros n ns Hflag Hlist. rewrite getAnalyze_eq. cbn [snd].
      unfold analyze, bindRun. cbn [Server.requestOf allNamespaces namespaces].
      rewrite Hflag, Hlist.
      destruct (namespaces_loop_calls tool JSON_parse
                  (activeFiltersOf (Server.requestOf trim q)) (n :: ns) ([], []) tr)
        as (k & Hle & Hpos & Htrace & _).
      exists k. split; [split; [apply Hpos; discriminate | exact Hle]|].
      destruct (activeFiltersOf_cons (Server.requestOf trim q)) as (f & fs & HF).
      assert (Hnames := namespaceList_named trim q _ Hlist).
      replace (map _ (n :: ns))
        with (map (fun x => invocationOf
                              (namespaceScope (activeFiltersOf (Server.requestOf trim q)) x))
                  (n :: ns)).
      * rewrite <- Htrace. now destruct (forOfRun _ _ _ _) as [[st|e] tr'].
      * apply map_ext_in. intros x Hx. apply invocationOf_named.
        -- rewrite HF. discriminate.
        -- rewrite Forall_forall in Hnames. now apply Hnames.
    + intros s Hs Hne Hblank.
      assert (Hlist := Hblanks s Hs Hne Hblank).
      rewrite getAnalyze_eq. cbn [snd].
      unfold analyze, bindRun. cbn [Server.requestOf allNamespaces namespaces].
      rewrite Hlist.
      destruct (Server.allRequested q); rewrite analyzeAll_eq;
        now destruct (callOutcome _ _ _ _).
  - exact Hblanks.
  - destruct newAnalyzer as [kc|e].
    + rewrite getAnalyze_eq. cbn [fst]. eauto.
    + rewrite getAnalyze_unconfigured. cbn [fst]. eauto.
Qed.

Lemma getAnalyze_scope_witness :
  snd (Server.getAnalyze toolHealthy parseSample (Ok kcDev)
         "2024-01-01T00:00:00.000Z" trimAscii
         {| Server.q_namespace := Server.QString "prod";
            Server.q_namespaces := Server.QString " , ";
            Server.q_allNamespaces := Server.QAbsent;
            Server.q_filters := Server.QString "Pod" |} []) =
  [ {| file := "k8sgpt"; args := ["analyze"; "--output=json"; "--filter=Pod"]%string |} ] /\
  Server.getAnalyze toolHealthy parseSample (Throw noActiveCluster)
    "2024-01-01T00:00:00.000Z" trimAscii
    {| Server.q_namespace := Server.QString "prod";
       Server.q_namespaces := Server.QString " , ";
       Server.q_allNamespaces := Server.QAbsent;
       Server.q_filters := Server.QString "Pod" |} [] =
  (Ok (Server.Json500 noActiveCluster), []).
Proof.
  destruct (getAnalyze_scope toolHealthy parseSample (Ok kcDev)
              "2024-01-01T00:00:00.000Z" trimAscii
              {| Server.q_namespace := Server.QString "prod";
                 Server.q_namespaces := Server.QString " , ";
                 Server.q_allNamespaces := Server.QAbsent;
                 Server.q_filters := Server.QString "Pod" |} [])
    as (_ & Hmade & _).
  destruct (Hmade kcDev eq_refl) as (_ & _ & Hblank).
  destruct (getAnalyze_scope toolHealthy parseSample (Throw noActiveCluster)
              "2024-01-01T00:00:00.000Z" trimAscii
              {| Server.q_namespace := Server.QString "prod";
                 Server.q_namespaces := Server.QString " , ";
                 Server.q_allNamespaces := Server.QAbsent;
                 Server.q_filters := Server.QString "Pod" |} [])
    as (Hnone & _).
  split.
  - refine (Hblank " , "%string eq_refl _ _).
    + discriminate.
    + repeat constructor.
  - exact (Hnone noActiveCluster eq_refl).
Defined.

(* ------------------------------------------------------------------ *)
(** ** The summary of several sources *)

(** X21.  The summary adds up and does not depend on the order: the
    summary of issues from two sources put one after the other is the sum
    of the two summaries, count by count, and reordering the issues leaves
    the summary as it is. *)
Theorem summarizeIssues_additive :
  (forall l1 l2,
     summarizeIssues (l1 ++ l2) =
     {| total := total (summarizeIssues l1) + total (summarizeIssues l2);
        criticalCount :=
          criticalCount (summarizeIssues l1) + criticalCount (summarizeIssues l2);
        warningCount :=
          warningCount (summarizeIssues l1) + warningCount (summarizeIssues l2);
        infoCount :=
          infoCount (summarizeIssues l1) + infoCount (summarizeIssues l2) |}) /\
  (forall l l', Permutation l l' -> summarizeIssues l = summarizeIssues l').
Proof.
  split; [apply summarize_app|].
  induction 1 as [|i l l' _ IH|i j l|l l' l'' _ IH1 _ IH2].
  - reflexivity.
  - change (i :: l) with ([i] ++ l). change (i :: l') with ([i] ++ l').
    now rewrite !summarize_app, IH.
  - change (j :: i :: l) with ([j] ++ [i] ++ l).
    change (i :: j :: l) with ([i] ++ [j] ++ l).
    rewrite !summarize_app. cbn [total criticalCount warningCount infoCount].
    f_equal; lia.
  - now rewrite IH1.
Qed.

Lemma summarizeIssues_additive_witness :
  summarizeIssues (issuesOfA ++ issuesOfB) = summarizeIssues (issuesOfB ++ issuesOfA).
Proof.
  apply (proj2 summarizeIssues_additive). apply Permutation_app_comm.
Defined.
